(** * RRFLibraries: numeric literal conversion

    A shallow embedding of [src/General/NumericConverter.cpp] and
    [src/General/SafeStrtod.cpp], together with the properties of the
    conversion routines that the design document states.

    Conventions.
    - A C++ [uint32_t]/[unsigned int] is a [Z] reduced with [to_uint32];
      an [int] is a [Z] reduced with [to_int32] (two's complement).
    - A [char] is an [ascii]; a character stream is the list of characters
      that have not been consumed yet, current character first.  The
      sentinel that ends every stream is NUL.
    - [double] and [float] values are [spec_float]s of the binary64 and
      binary32 formats, with the round-to-nearest-even operations of
      [SpecFloat]. *)

From Stdlib Require Import ZArith List Ascii String Bool Lia.
From Stdlib Require Import SpecFloat.
Import ListNotations.
Local Open Scope Z_scope.

(** ** Machine integers *)

Definition UINT32_MAX : Z := 4294967295.
Definition INT32_MAX : Z := 2147483647.
Definition INT32_MIN : Z := -2147483648.

(** Conversion to [uint32_t]: reduction modulo 2^32. *)
Definition to_uint32 (z : Z) : Z := z mod 4294967296.

(** Conversion to [int]: two's complement reduction into
    [INT32_MIN .. INT32_MAX]. *)
Definition to_int32 (z : Z) : Z := (z + 2147483648) mod 4294967296 - 2147483648.

(** [++x] and [--x] on an [int]. *)
Definition incr (x : Z) : Z := to_int32 (x + 1).
Definition decr (x : Z) : Z := to_int32 (x - 1).

(** [x += e] and [x -= e] for [int x] and [unsigned int e]: the usual
    arithmetic conversions make the operation an unsigned one, and the
    result is converted back to [int]. *)
Definition add_unsigned (x e : Z) : Z := to_int32 (to_uint32 (to_uint32 x + e)).
Definition sub_unsigned (x e : Z) : Z := to_int32 (to_uint32 (to_uint32 x - e)).

(** ** Characters *)

Definition NUL : ascii := Ascii.zero.
Definition TAB : ascii := "009"%char.

Definition code (c : ascii) : Z := Z.of_N (N_of_ascii c).

Definition isdigit (c : ascii) : bool := (48 <=? code c) && (code c <=? 57).

Definition toupper (c : ascii) : ascii :=
  if (97 <=? code c) && (code c <=? 122)
  then ascii_of_N (Z.to_N (code c - 32))
  else c.

(** [c - '0'] as an [unsigned int]. *)
Definition digit_of (c : ascii) : Z := to_uint32 (code c - 48).

(** ** Character streams

    A stream is the list of characters still to be delivered, the current
    character [c] of the source at its head.  [cur] reads the current
    character and [NextChar] moves to the next one; an exhausted stream
    keeps delivering the sentinel. *)

Definition stream := list ascii.

Definition cur (s : stream) : ascii := hd NUL s.
Definition NextChar (s : stream) : stream := tl s.

(** A [for (;;)] or [while] loop whose body either consumes the current
    character ([Some] of the new state, followed by [c = NextChar()]) or
    leaves the loop ([None]).  No loop of the converters consumes the
    sentinel, which is what the empty stream case records; see
    [loop_unfold]. *)
Section Loop.
Context {S : Type}.
Variable body : S -> ascii -> option S.

Fixpoint loop (st : S) (s : stream) {struct s} : S * stream :=
  match s with
  | [] => (st, [])
  | c :: s' =>
      match body st c with
      | None => (st, s)
      | Some st' => loop st' s'
      end
  end.

(** The states reached after each consumed character. *)
Fixpoint loop_states (st : S) (s : stream) {struct s} : list S :=
  match s with
  | [] => []
  | c :: s' =>
      match body st c with
      | None => []
      | Some st' => st' :: loop_states st' s'
      end
  end.
End Loop.

(** ** NumericConverter *)

(** Modelled from the spec: the class declaration (NumericConverter.h) is
    not part of the sources at hand.  The fields are those of the
    ScaledLiteral of the design document: an unsigned 32-bit mantissa
    [lvalue], the signed scale exponents [fives] and [twos] (read as [int]
    by [GetFloat] and [GetDigitsAfterPoint]) and three flags. *)
Record NumericConverter : Type := mkNC {
  lvalue : Z;
  fives : Z;
  twos : Z;
  hadDecimalPoint : bool;
  hadExponent : bool;
  isNegative : bool
}.

Definition set_lvalue (v : Z) (o : NumericConverter) : NumericConverter :=
  mkNC v (fives o) (twos o) (hadDecimalPoint o) (hadExponent o) (isNegative o).
Definition set_fives (v : Z) (o : NumericConverter) : NumericConverter :=
  mkNC (lvalue o) v (twos o) (hadDecimalPoint o) (hadExponent o) (isNegative o).
Definition set_twos (v : Z) (o : NumericConverter) : NumericConverter :=
  mkNC (lvalue o) (fives o) v (hadDecimalPoint o) (hadExponent o) (isNegative o).
Definition set_hadDecimalPoint (b : bool) (o : NumericConverter) : NumericConverter :=
  mkNC (lvalue o) (fives o) (twos o) b (hadExponent o) (isNegative o).
Definition set_hadExponent (b : bool) (o : NumericConverter) : NumericConverter :=
  mkNC (lvalue o) (fives o) (twos o) (hadDecimalPoint o) b (isNegative o).
Definition set_isNegative (b : bool) (o : NumericConverter) : NumericConverter :=
  mkNC (lvalue o) (fives o) (twos o) (hadDecimalPoint o) (hadExponent o) b.

(** The object together with the locals [hadDigit] and [overflowed] of
    [Accumulate]. *)
Record Frame : Type := mkFrame {
  this : NumericConverter;
  hadDigit : bool;
  overflowed : bool
}.

(** Lines 18-21: every field is overwritten on entry. *)
Definition reset : NumericConverter := mkNC 0 0 0 false false false.

(** Line 24: [while (c == ' ' || c == '\t')]. *)
Definition white_body (_ : unit) (c : ascii) : option unit :=
  if (c =? " ")%char || (c =? TAB)%char then Some tt else None.

(** Lines 45-65: skip leading zeros, counting those after the point. *)
Definition zeros_body (acceptReals : bool) (f : Frame) (c : ascii) : option Frame :=
  let o := this f in
  if (c =? "0")%char then
    Some (mkFrame
            (if hadDecimalPoint o
             then set_twos (decr (twos o)) (set_fives (decr (fives o)) o)
             else o)
            true (overflowed f))
  else if (c =? ".")%char && negb (hadDecimalPoint o) && acceptReals then
    Some (mkFrame (set_hadDecimalPoint true o) (hadDigit f) (overflowed f))
  else None.

(** The guards of lines 85-86, 99 and 114. *)
Definition fits10 (l digit : Z) : bool :=
  (l <=? (UINT32_MAX - 9) / 10) || (l <=? (UINT32_MAX - digit) / 10).
Definition fits5 (l fivesDigit : Z) : bool := l <=? (UINT32_MAX - fivesDigit) / 5.
Definition fits2 (l twosDigit : Z) : bool := l <=? (UINT32_MAX - twosDigit) / 2.

(** Lines 84-133: one significant digit, the mantissa not yet saturated.
    The second component is the new value of [overflowed]. *)
Definition fold_digit (o : NumericConverter) (digit : Z) : NumericConverter * bool :=
  if fits10 (lvalue o) digit then
    let o1 := set_lvalue (to_uint32 (to_uint32 (lvalue o * 10) + digit)) o in
    (if hadDecimalPoint o1
     then set_twos (decr (twos o1)) (set_fives (decr (fives o1)) o1)
     else o1,
     false)
  else
    let fivesDigit := to_uint32 (digit + 1) / 2 in
    if fits5 (lvalue o) fivesDigit then
      let o1 := set_lvalue (to_uint32 (to_uint32 (lvalue o * 5) + fivesDigit)) o in
      (if hadDecimalPoint o1
       then set_fives (decr (fives o1)) o1
       else set_twos (incr (twos o1)) o1,
       true)
    else
      let twosDigit := to_uint32 (digit + 4) / 5 in
      if fits2 (lvalue o) twosDigit then
        let o1 := set_lvalue (to_uint32 (to_uint32 (lvalue o * 2) + twosDigit)) o in
        (if hadDecimalPoint o1
         then set_twos (decr (twos o1)) o1
         else set_fives (incr (fives o1)) o1,
         true)
      else
        (if negb (hadDecimalPoint o)
         then set_twos (incr (twos o)) (set_fives (incr (fives o)) o)
         else o,
         true).

(** Lines 69-145: read digits, allowing one decimal point. *)
Definition digits_body (acceptReals : bool) (f : Frame) (c : ascii) : option Frame :=
  let o := this f in
  if isdigit c then
    if overflowed f then
      Some (mkFrame
              (if negb (hadDecimalPoint o)
               then set_twos (incr (twos o)) (set_fives (incr (fives o)) o)
               else o)
              true true)
    else
      let '(o', ov) := fold_digit o (digit_of c) in
      Some (mkFrame o' true ov)
  else if (c =? ".")%char && negb (hadDecimalPoint o) && acceptReals then
    Some (mkFrame (set_hadDecimalPoint true o) (hadDigit f) (overflowed f))
  else None.

(** Lines 172-176: the exponent digits, an [unsigned int] accumulation. *)
Definition exponent_body (exponent : Z) (c : ascii) : option Z :=
  if isdigit c
  then Some (to_uint32 (to_uint32 (10 * exponent) + digit_of c))
  else None.

(** Lines 30-42: the optional sign.  [None] is the [return false] of a
    minus sign that is not accepted. *)
Definition check_sign (acceptNegative : bool) (o : NumericConverter) (s : stream)
  : option (NumericConverter * stream) :=
  if (cur s =? "+")%char then Some (o, NextChar s)
  else if (cur s =? "-")%char then
    if negb acceptNegative then None
    else Some (set_isNegative true o, NextChar s)
  else Some (o, s).

(** Lines 178-187: the exponent is added to, or subtracted from, both
    scale exponents. *)
Definition apply_exponent (expNegative : bool) (exponent : Z) (o : NumericConverter)
  : NumericConverter :=
  if expNegative
  then set_fives (sub_unsigned (fives o) exponent)
         (set_twos (sub_unsigned (twos o) exponent) o)
  else set_fives (add_unsigned (fives o) exponent)
         (set_twos (add_unsigned (twos o) exponent) o).

(** Lines 155-187: the exponent part, entered after the marker has been
    recognised.  [None] is the [return false] of a marker that no digit
    follows. *)
Definition read_exponent (o : NumericConverter) (s : stream)
  : option NumericConverter * stream :=
  let s := NextChar s in
  let expNegative := (cur s =? "-")%char in
  let s := if expNegative || (cur s =? "+")%char then NextChar s else s in
  if negb (isdigit (cur s)) then (None, s)
  else
    let o := set_hadExponent true o in
    let '(exponent, s) := loop exponent_body 0 s in
    (Some (apply_exponent expNegative exponent o), s).

(** [NumericConverter::Accumulate].  [c] is the first character and [src]
    what [NextChar] delivers after it.  The result is the returned flag,
    the object as the call leaves it, and the stream from the last
    character read on. *)
Definition Accumulate (c : ascii) (acceptNegative acceptReals : bool) (src : stream)
  : bool * NumericConverter * stream :=
  let s := c :: src in
  let o := reset in
  let '(_, s) := loop white_body tt s in
  match check_sign acceptNegative o s with
  | None => (false, o, s)
  | Some (o, s) =>
      let '(f, s) := loop (zeros_body acceptReals) (mkFrame o false false) s in
      let '(f, s) :=
        loop (digits_body acceptReals) (mkFrame (this f) (hadDigit f) false) s in
      let o := this f in
      if negb (hadDigit f) then (false, o, s)
      else if acceptReals && (toupper (cur s) =? "E")%char then
        match read_exponent o s with
        | (None, s) => (false, o, s)
        | (Some o, s) => (true, o, s)
        end
      else (true, o, s)
  end.

(** The object as it stands after the reset and after each consumed
    character.  The object after the exponent has been applied is the one
    [Accumulate] returns. *)
Definition exponent_states (o : NumericConverter) (s : stream) : list NumericConverter :=
  let s := NextChar s in
  let expNegative := (cur s =? "-")%char in
  let signed := expNegative || (cur s =? "+")%char in
  let s := if signed then NextChar s else s in
  o :: (if signed then [o] else []) ++
  (if negb (isdigit (cur s)) then []
   else map (fun _ => set_hadExponent true o) (loop_states exponent_body 0 s)).

Definition Accumulate_states (c : ascii) (acceptNegative acceptReals : bool) (src : stream)
  : list NumericConverter :=
  let s := c :: src in
  let o := reset in
  o :: map (fun _ => o) (loop_states white_body tt s) ++
  let '(_, s) := loop white_body tt s in
  match check_sign acceptNegative o s with
  | None => []
  | Some (o, s') =>
      (if (cur s =? "+")%char || (cur s =? "-")%char then [o] else []) ++
      let f0 := mkFrame o false false in
      map this (loop_states (zeros_body acceptReals) f0 s') ++
      let '(f, s) := loop (zeros_body acceptReals) f0 s' in
      let f1 := mkFrame (this f) (hadDigit f) false in
      map this (loop_states (digits_body acceptReals) f1 s) ++
      let '(f, s) := loop (digits_body acceptReals) f1 s in
      if negb (hadDigit f) then []
      else if acceptReals && (toupper (cur s) =? "E")%char
           then exponent_states (this f) s
           else []
  end.

(** Parsing a whole string: its first character is handed over as [c],
    the others come from [NextChar], and the string's terminating NUL is
    the sentinel. *)
Definition parse (acceptNegative acceptReals : bool) (str : string)
  : bool * NumericConverter * stream :=
  let s := list_ascii_of_string str in
  Accumulate (cur s) acceptNegative acceptReals (NextChar s).

Definition result_ok (r : bool * NumericConverter * stream) : bool := fst (fst r).
Definition result_obj (r : bool * NumericConverter * stream) : NumericConverter := snd (fst r).


(** ** Result extraction *)

(** Line 197. *)
Definition FitsInInt32 (o : NumericConverter) : bool :=
  negb (hadDecimalPoint o) && negb (hadExponent o)
  && (twos o =? 0) && (fives o =? 0) && (lvalue o <=? INT32_MAX).

(** Line 203. *)
Definition FitsInUint32 (o : NumericConverter) : bool :=
  negb (hadDecimalPoint o) && negb (hadExponent o)
  && (negb (isNegative o) || (lvalue o =? 0))
  && (twos o =? 0) && (fives o =? 0) && (lvalue o <=? UINT32_MAX).

(** Line 209. *)
Definition GetInt32 (o : NumericConverter) : Z :=
  if isNegative o then to_int32 (- to_int32 (lvalue o)) else to_int32 (lvalue o).

(** Line 215. *)
Definition GetUint32 (o : NumericConverter) : Z := lvalue o.

(** Lines 272-276. *)
Definition GetDigitsAfterPoint (o : NumericConverter) : Z :=
  let digits := if fives o <? twos o then fives o else twos o in
  if digits <? 0 then to_uint32 (to_int32 (- digits)) else 0.

(** ** Floating point

    binary64 ([double]) and binary32 ([float]) values and the operations
    the converters use on them. *)

Definition double_of_Z (z : Z) : spec_float := binary_normalize 53 1024 z 0 false.
Definition dmul : spec_float -> spec_float -> spec_float := SFmul 53 1024.
Definition dadd : spec_float -> spec_float -> spec_float := SFadd 53 1024.

(** The [double] a decimal literal [num/den] denotes: the nearest one.
    Numerator and denominator are exact as doubles below 2^53. *)
Definition double_of_decimal (num den : Z) : spec_float :=
  SFdiv 53 1024 (double_of_Z num) (double_of_Z den).

(** The cast [(float)d]. *)
Definition float_of_double (d : spec_float) : spec_float :=
  match d with
  | S754_finite s m e => binary_round 24 128 s m e
  | _ => d
  end.


(** Lines 222-236.  [DOUBLE(x)] is the double nearest to the literal. *)
Definition inversePowersOfTen : list spec_float :=
  [ double_of_decimal 1 10;
    double_of_decimal 1 100;
    double_of_decimal 1 1000;
    double_of_decimal 1 10000;
    double_of_decimal 1 100000;
    double_of_decimal 1 1000000;
    double_of_decimal 1 10000000;
    double_of_decimal 1 100000000;
    double_of_decimal 1 1000000000;
    double_of_decimal 1 10000000000;
    double_of_decimal 1 100000000000;
    double_of_decimal 1 1000000000000 ].

Section WithPow.
(** [pow] of the C library, on doubles. *)
Variable pow : spec_float -> spec_float -> spec_float.

(** Lines 240-268. *)
Definition GetFloat (o : NumericConverter) : spec_float :=
  let dvalue := double_of_Z (lvalue o) in
  let tens := if twos o <? fives o then twos o else fives o in
  let dvalue :=
    if negb (tens =? 0) then
      if (tens <? 0) && (tens >=? - Z.of_nat (List.length inversePowersOfTen))
      then dmul dvalue (nth (Z.to_nat (- tens - 1)) inversePowersOfTen S754_nan)
      else dmul dvalue (pow (double_of_Z 10) (double_of_Z tens))
    else dvalue in
  let dvalue :=
    if fives o >? twos o then dmul dvalue (double_of_Z 5)
    else if twos o >? fives o then dmul dvalue (double_of_Z 2)
    else dvalue in
  if isNegative o
  then SFopp (float_of_double dvalue)
  else float_of_double dvalue.
End WithPow.

(** ** SafeStrtod and SafeStrtoul

    A [const char *] is the list of characters from the pointer up to the
    terminating NUL: [*s] is [cur s] and [++s] is [NextChar s]. *)

Section WithLong.
(** The width of [long] and [unsigned long] (climits). *)
Variable long_bits : Z.

Definition ULONG_MAX : Z := 2 ^ long_bits - 1.
Definition to_ulong (z : Z) : Z := z mod 2 ^ long_bits.
Definition to_long (z : Z) : Z :=
  (z + 2 ^ (long_bits - 1)) mod 2 ^ long_bits - 2 ^ (long_bits - 1).

(** [TimesPowerOf10] of Math/Power.h. *)
Variable TimesPowerOf10 : spec_float -> Z -> spec_float.

(** Lines 43-47. *)
Definition before_body (valueBeforePoint : spec_float) (c : ascii) : option spec_float :=
  if isdigit c
  then Some (dadd (dmul valueBeforePoint (double_of_Z 10)) (double_of_Z (code c - 48)))
  else None.

(** The locals of step 3: [valueAfterPoint], [digitsAfterPoint] and
    [overflowed]. *)
Record Fraction : Type := mkFraction {
  valueAfterPoint : Z;
  digitsAfterPoint : Z;
  fraction_overflowed : bool
}.

(** Lines 58-78. *)
Definition after_body (fr : Fraction) (c : ascii) : option Fraction :=
  if isdigit c then
    if negb (fraction_overflowed fr) then
      let digit := digit_of c in
      if valueAfterPoint fr <=? (ULONG_MAX - digit) / 10 then
        Some (mkFraction (to_ulong (to_ulong (valueAfterPoint fr * 10) + digit))
                         (to_long (digitsAfterPoint fr + 1))
                         false)
      else
        Some (mkFraction
                (if (digit >=? 5) && negb (valueAfterPoint fr =? ULONG_MAX)
                 then to_ulong (valueAfterPoint fr + 1)
                 else valueAfterPoint fr)
                (digitsAfterPoint fr)
                true)
    else Some fr
  else None.

(** Lines 95-99. *)
Definition strtod_exponent_body (exponent : Z) (c : ascii) : option Z :=
  if isdigit c
  then Some (to_long (to_long (10 * exponent) + (code c - 48)))
  else None.

(** Lines 107-123: step 6, the composite value. *)
Definition composite_value (valueBeforePoint : spec_float) (fr : Fraction) (exponent : Z)
  : spec_float :=
  if negb (valueAfterPoint fr =? 0) then
    if SFeqb valueBeforePoint (S754_zero false) then
      TimesPowerOf10 (double_of_Z (valueAfterPoint fr))
                     (to_long (exponent - digitsAfterPoint fr))
    else
      TimesPowerOf10
        (dadd (TimesPowerOf10 (double_of_Z (valueAfterPoint fr))
                              (to_long (- digitsAfterPoint fr)))
              valueBeforePoint)
        exponent
  else TimesPowerOf10 valueBeforePoint exponent.

(** Lines 82-105: step 5, the exponent part. *)
Definition strtod_exponent (s : stream) : Z * stream :=
  if (toupper (cur s) =? "E")%char then
    let s := NextChar s in
    let expNegative := (cur s =? "-")%char in
    let s := if expNegative || (cur s =? "+")%char then NextChar s else s in
    let '(exponent, s) := loop strtod_exponent_body 0 s in
    (if expNegative then to_long (- exponent) else exponent, s)
  else (0, s).

(** Lines 26-133.  The second component is the value stored through [p]
    when [p] is not null. *)
Definition SafeStrtod (s : stream) : spec_float * stream :=
  let '(_, s) := loop white_body tt s in
  let negative := (cur s =? "-")%char in
  let s := if negative || (cur s =? "+")%char then NextChar s else s in
  let '(valueBeforePoint, s) := loop before_body (S754_zero false) s in
  let '(fr, s) :=
    if (cur s =? ".")%char
    then loop after_body (mkFraction 0 0 false) (NextChar s)
    else (mkFraction 0 0 false, s) in
  let '(exponent, s) := strtod_exponent s in
  let retvalue := composite_value valueBeforePoint fr exponent in
  (if negative then SFopp retvalue else retvalue, s).

(** Lines 135-138. *)
Definition SafeStrtof (s : stream) : spec_float * stream :=
  let '(d, p) := SafeStrtod s in (float_of_double d, p).

(** [strtoul] of the C library: the value, and what it stores through a
    non-null [endptr]. *)
Variable strtoul : stream -> bool -> Z -> Z * option stream.

(** Lines 140-156 (and the overload of lines 158-174).  [endptr] tells
    whether the end pointer is not null; the second component is what is
    stored through it. *)
Definition SafeStrtoul (s : stream) (endptr : bool) (base : Z) : Z * option stream :=
  let '(_, s) := loop white_body tt s in
  if (cur s =? "-")%char
  then (0, if endptr then Some s else None)
  else strtoul s endptr base.
End WithLong.

(** ** Stand-ins for the functions that are not at hand

    They are used to run the converters on examples only; every theorem
    holds for any [pow] and any [TimesPowerOf10]. *)

(** The integer a double denotes, when it denotes one. *)
Definition Z_of_double (d : spec_float) : option Z :=
  match d with
  | S754_zero _ => Some 0
  | S754_finite s m e =>
      if 0 <=? e then Some (cond_Zopp s (Z.pos m * 2 ^ e))
      else if (Z.pos m) mod 2 ^ (- e) =? 0
           then Some (cond_Zopp s (Z.pos m / 2 ^ (- e)))
           else None
  | _ => None
  end.

(** Multiplying, or dividing, by [x] once for each unit of [n]. *)
Definition times_power (x d : spec_float) (n : Z) : spec_float :=
  match n with
  | Z0 => d
  | Zpos p => Pos.iter (fun y => dmul y x) d p
  | Zneg p => Pos.iter (fun y => SFdiv 53 1024 y x) d p
  end.

(** [pow] of the C library, for the integer exponents [GetFloat] passes
    to it. *)
Definition pow_model (x y : spec_float) : spec_float :=
  match Z_of_double y with
  | Some n => times_power x (double_of_Z 1) n
  | None => S754_nan
  end.

(** Modelled from the spec: [TimesPowerOf10] of Math/Power.h is not part
    of the sources at hand.  The design document has the two digit groups
    combined by multiplication by powers of ten. *)
Definition TimesPowerOf10_model (d : spec_float) (e : Z) : spec_float :=
  times_power (double_of_Z 10) d e.

(** ** The vocabulary of the properties *)

(** The mantissa is within the unsigned 32-bit range. *)
Definition mantissa_in_range (o : NumericConverter) : Prop :=
  0 <= lvalue o <= UINT32_MAX.

(** The object [o] with a new mantissa and new scale exponents. *)
Definition after_fold (o : NumericConverter) (l f t : Z) : NumericConverter :=
  mkNC l f t (hadDecimalPoint o) (hadExponent o) (isNegative o).

(** The update that [fold_digit] performs is the one its guard lets
    through, and it is stored exactly. *)
Definition exact_update (o : NumericConverter) (digit : Z) : Prop :=
  let l := lvalue o in
  let o' := fst (fold_digit o digit) in
  let fivesDigit := (digit + 1) / 2 in
  let twosDigit := (digit + 4) / 5 in
  mantissa_in_range o' /\
  (fits10 l digit = true ->
   l * 10 + digit <= UINT32_MAX /\ lvalue o' = l * 10 + digit) /\
  (fits10 l digit = false -> fits5 l fivesDigit = true ->
   l * 5 + fivesDigit <= UINT32_MAX /\ lvalue o' = l * 5 + fivesDigit) /\
  (fits10 l digit = false -> fits5 l fivesDigit = false -> fits2 l twosDigit = true ->
   l * 2 + twosDigit <= UINT32_MAX /\ lvalue o' = l * 2 + twosDigit) /\
  (fits10 l digit = false -> fits5 l fivesDigit = false -> fits2 l twosDigit = false ->
   lvalue o' = l).

(** The two scale exponents differ by at most one. *)
Definition balanced (o : NumericConverter) : Prop := Z.abs (twos o - fives o) <= 1.

(** One scale exponent is the least [int] and the other the greatest. *)
Definition wrapped_apart (o : NumericConverter) : Prop :=
  (twos o = INT32_MIN /\ fives o = INT32_MAX) \/
  (twos o = INT32_MAX /\ fives o = INT32_MIN).

(** With [N] characters to read in all, the exponents are bounded by the
    number of characters consumed so far, they are equal until overflow
    begins, and they differ by at most one afterwards. *)
Definition scale_inv (N : Z) (f : Frame) (s : stream) : Prop :=
  let o := this f in
  let n := N - Z.of_nat (List.length s) in
  mantissa_in_range o /\
  - n <= twos o <= n /\ - n <= fives o <= n /\
  (overflowed f = false -> twos o = fives o) /\
  -1 <= twos o - fives o <= 1.

(** What the design document says of [GetDigitsAfterPoint]: the exponent
    of smaller magnitude, negated, and zero if that exponent is
    positive. *)
Definition smaller_magnitude_negated (o : NumericConverter) : Z :=
  let e := if Z.abs (twos o) <=? Z.abs (fives o) then twos o else fives o in
  if 0 <? e then 0 else - e.

(** Lines 18-145 of [Accumulate]: everything up to the test of
    [hadDigit].  [None] is the [return false] of a rejected minus sign. *)
Definition read_mantissa (acceptNegative acceptReals : bool) (s : stream)
  : option Frame * stream :=
  let '(_, s) := loop white_body tt s in
  match check_sign acceptNegative reset s with
  | None => (None, s)
  | Some (o, s) =>
      let '(f, s) := loop (zeros_body acceptReals) (mkFrame o false false) s in
      let '(f, s) :=
        loop (digits_body acceptReals) (mkFrame (this f) (hadDigit f) false) s in
      (Some f, s)
  end.

(** The characters at which the mantissa ends whatever the state: no
    white space, no sign, no digit, and no decimal point if reals are
    accepted. *)
Definition ends_mantissa (acceptReals : bool) (ch : ascii) : bool :=
  negb ((ch =? " ")%char || (ch =? TAB)%char)
  && negb ((ch =? "+")%char || (ch =? "-")%char)
  && negb (isdigit ch)
  && negb ((ch =? ".")%char && acceptReals).

(** A text without any digit. *)
Definition no_digit (s : stream) : Prop := Forall (fun ch => isdigit ch = false) s.

(** A space or a tab. *)
Definition is_blank (ch : ascii) : Prop := ch = " "%char \/ ch = TAB.

(** A decimal literal [num/den] as [DOUBLE] makes it where [long double]
    has the precision [prec]: rounded to [long double] first, then cast
    to [double]. *)
Definition double_via_long_double (prec emax num den : Z) : spec_float :=
  match SFdiv prec emax (binary_normalize prec emax num 0 false)
                        (binary_normalize prec emax den 0 false) with
  | S754_finite s m e => binary_round 53 1024 s m e
  | d => d
  end.

(** ** Decimal texts

    What a text of digits and decimal points denotes, for comparison with
    what the converters make of it. *)

(** The value of a digit character. *)
Definition digit_value (c : ascii) : Z := code c - 48.

(** A text read from left to right: the integer its digits spell, whether
    a decimal point was met, how many digits follow the point, and whether
    there was any digit.  The number written is
    [r_value / 10 ^ r_fraction]. *)
Record Reading : Type := mkReading {
  r_value : Z;
  r_point : bool;
  r_fraction : Z;
  r_digit : bool
}.

Definition read_char (r : Reading) (c : ascii) : Reading :=
  if isdigit c then
    mkReading (r_value r * 10 + digit_value c) (r_point r)
              (if r_point r then r_fraction r + 1 else r_fraction r) true
  else if (c =? ".")%char then
    mkReading (r_value r) true (r_fraction r) (r_digit r)
  else r.

Definition reading_from (r : Reading) (m : stream) : Reading := fold_left read_char m r.
Definition reading (m : stream) : Reading := reading_from (mkReading 0 false 0 false) m.

(** The integer that the digits of a text spell, the point left out. *)
Definition decimal_value (m : stream) : Z := r_value (reading m).

(** The number of digits after the decimal point. *)
Definition fraction_digits (m : stream) : Z := r_fraction (reading m).

Fixpoint count_points (m : stream) : nat :=
  match m with
  | [] => 0%nat
  | c :: m' => ((if (c =? ".")%char then 1 else 0) + count_points m')%nat
  end.

(** A mantissa as [Accumulate] accepts it: digits, with at most one
    decimal point, and none when reals are not accepted. *)
Definition mantissa_text (acceptReals : bool) (m : stream) : Prop :=
  Forall (fun c => isdigit c = true \/ c = "."%char) m /\
  (count_points m <= if acceptReals then 1 else 0)%nat.

(** The value [lvalue * 2^twos * 5^fives] of the object, multiplied by
    [10^n]. *)
Definition scaled_value (o : NumericConverter) (n : Z) : Z :=
  lvalue o * 2 ^ (twos o + n) * 5 ^ (fives o + n).

(** The frame agrees with the reading [r] of the text consumed so far.
    Until overflow begins the mantissa is the value read and both scale
    exponents count the digits after the point.  Afterwards a factor of
    2 or of 5 (or both) has been taken out, and the value of the object
    is within [10 * E] of the value read, where [2^32 * E] is at most
    that value. *)
Definition tracks (r : Reading) (f : Frame) : Prop :=
  let o := this f in
  let n := r_fraction r in
  hadDecimalPoint o = r_point r /\ hadDigit f = r_digit r /\
  0 <= r_value r /\ 0 <= n /\
  (overflowed f = false ->
   lvalue o = r_value r /\ twos o = - n /\ fives o = - n) /\
  (overflowed f = true ->
   exists E, 0 < E /\ 4294967296 * E <= r_value r /\
             0 <= twos o + n /\ 0 <= fives o + n /\
             1 <= (twos o + n) + (fives o + n) /\
             - (10 * E - 1) <= scaled_value o n - r_value r <= 4 * E).

(** The invariant of the two mantissa loops on a mantissa text of [N]
    characters that reads as [final]. *)
Definition reads_mantissa
  (N : Z) (acceptReals : bool) (final : Reading) (neg : bool) (f : Frame) (s : stream)
  : Prop :=
  scale_inv N f s /\
  hadExponent (this f) = false /\ isNegative (this f) = neg /\
  exists r, tracks r f /\ reading_from r s = final /\
            Forall (fun c => isdigit c = true \/ c = "."%char) s /\
            (count_points s + (if r_point r then 1 else 0)
             <= if acceptReals then 1 else 0)%nat.

(** The object represents the number that reads as [r]: exactly when the
    digits spell a value within the unsigned 32-bit range, and otherwise
    with a factor of 2 or 5 taken out and a relative error of at most
    10 / 2^32. *)
Definition represents (r : Reading) (o : NumericConverter) : Prop :=
  let V := r_value r in
  let n := r_fraction r in
  0 <= twos o + n /\ 0 <= fives o + n /\
  4294967296 * Z.abs (scaled_value o n - V) <= 10 * V /\
  (V <= UINT32_MAX -> lvalue o = V /\ twos o = - n /\ fives o = - n) /\
  (UINT32_MAX < V -> 1 <= (twos o + n) + (fives o + n)).

(** The characters at which a mantissa that has begun ends: no digit, and
    no decimal point if reals are accepted. *)
Definition ends_number (acceptReals : bool) (ch : ascii) : bool :=
  negb (isdigit ch) && negb ((ch =? ".")%char && acceptReals).

(** An optional sign before the mantissa, and whether it makes the number
    negative.  A minus sign is one only if negative numbers are
    accepted. *)
Definition sign_text (acceptNegative : bool) (sign : stream) (neg : bool) : Prop :=
  (sign = [] /\ neg = false) \/
  (sign = ["+"%char] /\ neg = false) \/
  (sign = ["-"%char] /\ neg = true /\ acceptNegative = true).

(** The frame with [isNegative] set. *)
Definition negative_frame (f : Frame) : Frame :=
  mkFrame (set_isNegative true (this f)) (hadDigit f) (overflowed f).

(** [Accumulate] called on a text: its first character is handed over as
    [c] and the others come from [NextChar]. *)
Definition Accumulate_text (acceptNegative acceptReals : bool) (s : stream)
  : bool * NumericConverter * stream :=
  Accumulate (cur s) acceptNegative acceptReals (NextChar s).

(** * Properties *)

(** ** Machine integers *)

Lemma to_uint32_id (z : Z) : 0 <= z <= UINT32_MAX -> to_uint32 z = z.
Proof. unfold to_uint32, UINT32_MAX. intros H. apply Z.mod_small. lia. Qed.

Lemma to_uint32_range (z : Z) : 0 <= to_uint32 z <= UINT32_MAX.
Proof.
  unfold to_uint32, UINT32_MAX.
  pose proof (Z.mod_pos_bound z 4294967296 eq_refl). lia.
Qed.

Lemma to_int32_id (z : Z) : INT32_MIN <= z <= INT32_MAX -> to_int32 z = z.
Proof.
  unfold to_int32, INT32_MIN, INT32_MAX. intros H.
  rewrite Z.mod_small by lia. lia.
Qed.

Lemma to_int32_range (z : Z) : INT32_MIN <= to_int32 z <= INT32_MAX.
Proof.
  unfold to_int32, INT32_MIN, INT32_MAX.
  pose proof (Z.mod_pos_bound (z + 2147483648) 4294967296 eq_refl). lia.
Qed.

(** Negating a negative [int] and converting to [unsigned int]. *)
Lemma to_int32_to_uint32_neg (z : Z) :
  INT32_MIN <= z < 0 -> to_uint32 (to_int32 (- z)) = - z.
Proof.
  unfold INT32_MIN, to_uint32, to_int32. intros H.
  pose proof (Z.div_mod (- z + 2147483648) 4294967296 ltac:(lia)) as E1.
  pose proof (Z.mod_pos_bound (- z + 2147483648) 4294967296 ltac:(lia)) as B1.
  set (r := (- z + 2147483648) mod 4294967296) in *.
  pose proof (Z.div_mod (r - 2147483648) 4294967296 ltac:(lia)) as E2.
  pose proof (Z.mod_pos_bound (r - 2147483648) 4294967296 ltac:(lia)) as B2.
  lia.
Qed.

Lemma incr_exact (x : Z) : INT32_MIN <= x < INT32_MAX -> incr x = x + 1.
Proof. intros H. apply to_int32_id. unfold INT32_MIN, INT32_MAX in *. lia. Qed.

Lemma decr_exact (x : Z) : INT32_MIN < x <= INT32_MAX -> decr x = x - 1.
Proof. intros H. apply to_int32_id. unfold INT32_MIN, INT32_MAX in *. lia. Qed.

(** ** Characters *)

Lemma code_range (c : ascii) : 0 <= code c < 256.
Proof.
  unfold code. pose proof (N_ascii_bounded c) as H.
  split; [apply N2Z.is_nonneg|]. change 256 with (Z.of_N 256). lia.
Qed.

Lemma isdigit_code (c : ascii) : isdigit c = true <-> 48 <= code c <= 57.
Proof. unfold isdigit. rewrite andb_true_iff, !Z.leb_le. tauto. Qed.

Lemma digit_of_exact (c : ascii) : isdigit c = true -> digit_of c = code c - 48.
Proof.
  intros H. apply isdigit_code in H. unfold digit_of.
  apply to_uint32_id. unfold UINT32_MAX. lia.
Qed.

Lemma digit_of_range (c : ascii) : isdigit c = true -> 0 <= digit_of c <= 9.
Proof.
  intros H. rewrite (digit_of_exact c H). apply isdigit_code in H. lia.
Qed.

(** ** The loops

    The sentinel ends every loop, so [loop] is the loop of the source:
    test the current character, run the body, fetch the next character. *)

Lemma loop_unfold {S : Type} (body : S -> ascii -> option S) :
  (forall st, body st NUL = None) ->
  forall st s,
    loop body st s =
    match body st (cur s) with
    | None => (st, s)
    | Some st' => loop body st' (NextChar s)
    end.
Proof.
  intros Hnul st [|c s']; simpl.
  - now rewrite Hnul.
  - reflexivity.
Qed.

Lemma white_body_NUL (u : unit) : white_body u NUL = None.
Proof. reflexivity. Qed.

Lemma zeros_body_NUL (acceptReals : bool) (f : Frame) : zeros_body acceptReals f NUL = None.
Proof. reflexivity. Qed.

Lemma digits_body_NUL (acceptReals : bool) (f : Frame) : digits_body acceptReals f NUL = None.
Proof. reflexivity. Qed.

Lemma exponent_body_NUL (e : Z) : exponent_body e NUL = None.
Proof. reflexivity. Qed.

(** ** The overflow guards

    Each guard holds exactly when the update it protects stays within the
    unsigned 32-bit range. *)

Lemma fits10_iff (l d : Z) :
  0 <= d <= 9 -> (fits10 l d = true <-> l * 10 + d <= UINT32_MAX).
Proof.
  intros Hd. unfold fits10, UINT32_MAX.
  rewrite orb_true_iff, !Z.leb_le.
  change ((4294967295 - 9) / 10) with 429496728.
  pose proof (Z.div_mod (4294967295 - d) 10 ltac:(lia)) as E.
  pose proof (Z.mod_pos_bound (4294967295 - d) 10 ltac:(lia)) as B.
  lia.
Qed.

Lemma fits5_iff (l fd : Z) : fits5 l fd = true <-> l * 5 + fd <= UINT32_MAX.
Proof.
  unfold fits5, UINT32_MAX. rewrite Z.leb_le.
  pose proof (Z.div_mod (4294967295 - fd) 5 ltac:(lia)) as E.
  pose proof (Z.mod_pos_bound (4294967295 - fd) 5 ltac:(lia)) as B.
  lia.
Qed.

Lemma fits2_iff (l td : Z) : fits2 l td = true <-> l * 2 + td <= UINT32_MAX.
Proof.
  unfold fits2, UINT32_MAX. rewrite Z.leb_le.
  pose proof (Z.div_mod (4294967295 - td) 2 ltac:(lia)) as E.
  pose proof (Z.mod_pos_bound (4294967295 - td) 2 ltac:(lia)) as B.
  lia.
Qed.

Lemma half_digit (d : Z) : 0 <= d <= 9 -> to_uint32 (d + 1) / 2 = (d + 1) / 2 /\ 0 <= (d + 1) / 2 <= 5.
Proof.
  intros H. rewrite to_uint32_id by (unfold UINT32_MAX; lia).
  split; [reflexivity|].
  pose proof (Z.div_mod (d + 1) 2 ltac:(lia)).
  pose proof (Z.mod_pos_bound (d + 1) 2 ltac:(lia)). lia.
Qed.

Lemma fifth_digit (d : Z) : 0 <= d <= 9 -> to_uint32 (d + 4) / 5 = (d + 4) / 5 /\ 0 <= (d + 4) / 5 <= 2.
Proof.
  intros H. rewrite to_uint32_id by (unfold UINT32_MAX; lia).
  split; [reflexivity|].
  pose proof (Z.div_mod (d + 4) 5 ltac:(lia)).
  pose proof (Z.mod_pos_bound (d + 4) 5 ltac:(lia)). lia.
Qed.

(** An update that its guard lets through is not reduced. *)
Lemma update_exact (l k a : Z) :
  0 <= l -> 0 <= a -> 0 < k -> l * k + a <= UINT32_MAX ->
  to_uint32 (to_uint32 (l * k) + a) = l * k + a.
Proof.
  intros Hl Ha Hk H.
  rewrite (to_uint32_id (l * k)) by nia.
  apply to_uint32_id. nia.
Qed.

(** ** One digit

    What [fold_digit] does, in mathematical integers: which of the four
    branches is taken, and the object it leaves. *)

Lemma fold_digit_cases (o : NumericConverter) (d : Z) :
  0 <= lvalue o <= UINT32_MAX -> 0 <= d <= 9 ->
  let l := lvalue o in
  let dp := hadDecimalPoint o in
  (l * 10 + d <= UINT32_MAX /\
   fold_digit o d =
   (after_fold o (l * 10 + d)
      (if dp then decr (fives o) else fives o)
      (if dp then decr (twos o) else twos o), false))
  \/
  (l * 10 + d > UINT32_MAX /\ l * 5 + (d + 1) / 2 <= UINT32_MAX /\
   fold_digit o d =
   (after_fold o (l * 5 + (d + 1) / 2)
      (if dp then decr (fives o) else fives o)
      (if dp then twos o else incr (twos o)), true))
  \/
  (l * 10 + d > UINT32_MAX /\ l * 5 + (d + 1) / 2 > UINT32_MAX /\
   l * 2 + (d + 4) / 5 <= UINT32_MAX /\
   fold_digit o d =
   (after_fold o (l * 2 + (d + 4) / 5)
      (if dp then fives o else incr (fives o))
      (if dp then decr (twos o) else twos o), true))
  \/
  (l * 10 + d > UINT32_MAX /\ l * 5 + (d + 1) / 2 > UINT32_MAX /\
   l * 2 + (d + 4) / 5 > UINT32_MAX /\
   fold_digit o d =
   (after_fold o l
      (if dp then fives o else incr (fives o))
      (if dp then twos o else incr (twos o)), true)).
Proof.
  intros Hl Hd l dp.
  destruct (half_digit d Hd) as [E5 B5].
  destruct (fifth_digit d Hd) as [E2 B2].
  unfold fold_digit. rewrite E5, E2. fold l.
  destruct (fits10 l d) eqn:G10.
  - left. apply fits10_iff in G10; [|exact Hd].
    split; [exact G10|].
    rewrite update_exact by lia.
    destruct o as [l0 f0 t0 [] he ng]; reflexivity.
  - right.
    assert (N10 : l * 10 + d > UINT32_MAX).
    { destruct (Z_le_gt_dec (l * 10 + d) UINT32_MAX) as [H|H]; [|exact H].
      apply (fits10_iff l d Hd) in H. congruence. }
    destruct (fits5 l ((d + 1) / 2)) eqn:G5.
    + left. apply fits5_iff in G5.
      split; [exact N10|]. split; [exact G5|].
      rewrite update_exact by lia.
      destruct o as [l0 f0 t0 [] he ng]; reflexivity.
    + right.
      assert (N5 : l * 5 + (d + 1) / 2 > UINT32_MAX).
      { destruct (Z_le_gt_dec (l * 5 + (d + 1) / 2) UINT32_MAX) as [H|H]; [|exact H].
        apply fits5_iff in H. congruence. }
      destruct (fits2 l ((d + 4) / 5)) eqn:G2.
      * left. apply fits2_iff in G2.
        repeat (split; [assumption|]).
        rewrite update_exact by lia.
        destruct o as [l0 f0 t0 [] he ng]; reflexivity.
      * right.
        assert (N2 : l * 2 + (d + 4) / 5 > UINT32_MAX).
        { destruct (Z_le_gt_dec (l * 2 + (d + 4) / 5) UINT32_MAX) as [H|H]; [|exact H].
          apply fits2_iff in H. congruence. }
        repeat (split; [assumption|]).
        destruct o as [l0 f0 t0 [] he ng]; reflexivity.
Qed.

(** Once set, [overflowed] stays set for the rest of the digit loop. *)
Lemma overflowed_sticky (acceptReals : bool) (f f' : Frame) (c : ascii) :
  digits_body acceptReals f c = Some f' ->
  overflowed f = true -> overflowed f' = true.
Proof.
  unfold digits_body. intros H Hov. rewrite Hov in H.
  destruct (isdigit c).
  - injection H as <-. reflexivity.
  - destruct ((c =? ".")%char && negb (hadDecimalPoint (this f)) && acceptReals);
      [|discriminate].
    injection H as <-. reflexivity.
Qed.

(** C1.  A digit that no longer fits after multiplying the mantissa by 10
    is folded in through the largest multiplier that still fits: times 5
    with (digit+1)/2 added, the missing factor of 2 going to [twos] before
    the decimal point and coming off [fives] after it; failing that, times
    2 with (digit+4)/5 added, the missing factor of 5 going to [fives]
    before the point and coming off [twos] after it; failing both, the
    mantissa is left alone and, before the point, both exponents go up by
    one.  Once overflow has begun the flag stays set, every further digit
    before the point adds one to both exponents, and every further digit
    after the point changes neither the mantissa nor the exponents. *)
Theorem overflow_folding (acceptReals : bool) (f : Frame) (c : ascii) :
  0 <= lvalue (this f) <= UINT32_MAX ->
  INT32_MIN < twos (this f) < INT32_MAX ->
  INT32_MIN < fives (this f) < INT32_MAX ->
  let o := this f in
  let l := lvalue o in
  let d := code c - 48 in
  (isdigit c = true ->
   exists f', digits_body acceptReals f c = Some f' /\
     let o' := this f' in
     (overflowed f = false -> l * 10 + d > UINT32_MAX ->
        overflowed f' = true /\
        (l * 5 + (d + 1) / 2 <= UINT32_MAX ->
           lvalue o' = l * 5 + (d + 1) / 2 /\
           (hadDecimalPoint o = false -> twos o' = twos o + 1 /\ fives o' = fives o) /\
           (hadDecimalPoint o = true -> fives o' = fives o - 1 /\ twos o' = twos o)) /\
        (l * 5 + (d + 1) / 2 > UINT32_MAX -> l * 2 + (d + 4) / 5 <= UINT32_MAX ->
           lvalue o' = l * 2 + (d + 4) / 5 /\
           (hadDecimalPoint o = false -> fives o' = fives o + 1 /\ twos o' = twos o) /\
           (hadDecimalPoint o = true -> twos o' = twos o - 1 /\ fives o' = fives o)) /\
        (l * 5 + (d + 1) / 2 > UINT32_MAX -> l * 2 + (d + 4) / 5 > UINT32_MAX ->
           lvalue o' = l /\
           (hadDecimalPoint o = false -> twos o' = twos o + 1 /\ fives o' = fives o + 1) /\
           (hadDecimalPoint o = true -> twos o' = twos o /\ fives o' = fives o))) /\
     (overflowed f = true ->
        lvalue o' = l /\
        (hadDecimalPoint o = false -> twos o' = twos o + 1 /\ fives o' = fives o + 1) /\
        (hadDecimalPoint o = true -> twos o' = twos o /\ fives o' = fives o)))
  /\
  (forall f', digits_body acceptReals f c = Some f' ->
              overflowed f = true -> overflowed f' = true).
Proof.
  intros Hl Ht Hf o l d. split; [|intros f'; apply overflowed_sticky].
  intros Hc.
  assert (Hd : 0 <= d <= 9) by (apply isdigit_code in Hc; subst d; lia).
  assert (It : incr (twos o) = twos o + 1) by (apply incr_exact; subst o; lia).
  assert (If : incr (fives o) = fives o + 1) by (apply incr_exact; subst o; lia).
  assert (Dt : decr (twos o) = twos o - 1) by (apply decr_exact; subst o; lia).
  assert (Df : decr (fives o) = fives o - 1) by (apply decr_exact; subst o; lia).
  unfold digits_body. rewrite Hc. fold o.
  rewrite (digit_of_exact c Hc). fold d.
  destruct (overflowed f) eqn:Hov.
  - eexists; split; [reflexivity|]. simpl.
    split; [discriminate|]. intros _.
    rewrite It, If.
    destruct (hadDecimalPoint o) eqn:Hdp; simpl;
      (split; [reflexivity|]); split; intros; (discriminate || (split; reflexivity)).
  - destruct (fold_digit_cases o d Hl Hd) as
      [[B E]|[[N10 [B E]]|[[N10 [N5 [B E]]]|[N10 [N5 [N2 E]]]]]];
      fold l in B, E || fold l in E; rewrite E;
      (eexists; split; [reflexivity|]); simpl;
      (split; [|discriminate]); intros _ G10; try lia;
      (split; [reflexivity|]);
      rewrite ?It, ?If, ?Dt, ?Df;
      repeat split; intros; try lia;
      destruct (hadDecimalPoint o); try discriminate; reflexivity.
Qed.

(** The tenth digit of 4294967296 is folded in through the factor 5. *)
Lemma overflow_folding_witness :
  exists f',
    digits_body true (mkFrame (mkNC 429496729 0 0 false false false) true false) "6"
    = Some f' /\
    overflowed f' = true /\
    lvalue (this f') = 2147483648 /\ twos (this f') = 1 /\ fives (this f') = 0.
Proof.
  destruct (overflow_folding true
              (mkFrame (mkNC 429496729 0 0 false false false) true false) "6"%char)
    as [H _].
  - simpl. unfold UINT32_MAX. lia.
  - simpl. unfold INT32_MIN, INT32_MAX. lia.
  - simpl. unfold INT32_MIN, INT32_MAX. lia.
  - destruct (H eq_refl) as [f' [E [A _]]].
    destruct (A eq_refl eq_refl) as [Hov [A5 _]].
    destruct A5 as [Hl [Hb _]]; [vm_compute; discriminate|].
    destruct (Hb eq_refl) as [Ht Hf].
    exists f'. repeat split; assumption.
Defined.

(** ** Loop invariants *)

Section LoopFacts.
Context {S : Type}.
Variable body : S -> ascii -> option S.

(** An invariant on the state and the stream still to be read holds
    after every consumed character and when the loop is left. *)
Lemma loop_invariant (I : S -> stream -> Prop) :
  (forall st c s st', I st (c :: s) -> body st c = Some st' -> I st' s) ->
  forall s st, I st s ->
    Forall (fun st' => exists s', I st' s') (loop_states body st s) /\
    I (fst (loop body st s)) (snd (loop body st s)).
Proof.
  intros Hstep. induction s as [|c s IH]; intros st Hst; simpl.
  - split; [constructor | exact Hst].
  - destruct (body st c) as [st'|] eqn:E.
    + pose proof (Hstep _ _ _ _ Hst E) as Hst'.
      destruct (IH st' Hst') as [IH1 IH2].
      split; [|exact IH2].
      constructor; [exists s; exact Hst' | exact IH1].
    + split; [constructor | exact Hst].
Qed.

(** The same for a property of the state alone. *)
Lemma loop_preserves (P : S -> Prop) :
  (forall st c st', P st -> body st c = Some st' -> P st') ->
  forall s st, P st ->
    Forall P (loop_states body st s) /\ P (fst (loop body st s)).
Proof.
  intros Hstep s st Hst.
  destruct (loop_invariant (fun st _ => P st)
              (fun st c _ st' => Hstep st c st') s st Hst) as [H1 H2].
  split; [|exact H2].
  eapply Forall_impl; [|exact H1]. intros a [_ Ha]. exact Ha.
Qed.

(** The loop leaves the last state it went through. *)
Lemma loop_last (s : stream) (st d : S) :
  fst (loop body st s) = last (st :: loop_states body st s) d.
Proof.
  revert st. induction s as [|c s IH]; intros st; [reflexivity|].
  cbn [loop loop_states].
  destruct (body st c) as [st'|]; [|reflexivity].
  rewrite IH. reflexivity.
Qed.

(** The loop never hands back more than it was given. *)
Lemma loop_length (s : stream) (st : S) :
  (List.length (snd (loop body st s)) <= List.length s)%nat.
Proof.
  revert st. induction s as [|c s IH]; intros st; simpl; [lia|].
  destruct (body st c) as [st'|]; simpl; [|lia].
  specialize (IH st'). lia.
Qed.
End LoopFacts.

(** ** The mantissa stays in range *)

Lemma fold_digit_range (o : NumericConverter) (d : Z) :
  mantissa_in_range o -> 0 <= d <= 9 ->
  mantissa_in_range (fst (fold_digit o d)).
Proof.
  unfold mantissa_in_range. intros Hl Hd.
  destruct (fold_digit_cases o d Hl Hd) as
    [[B E]|[[N10 [B E]]|[[N10 [N5 [B E]]]|[N10 [N5 [N2 E]]]]]];
    rewrite E; cbn [fst lvalue after_fold];
    destruct (half_digit d Hd) as [_ B5];
    destruct (fifth_digit d Hd) as [_ B2]; lia.
Qed.

Lemma zeros_body_range (acceptReals : bool) (f f' : Frame) (c : ascii) :
  mantissa_in_range (this f) -> zeros_body acceptReals f c = Some f' ->
  mantissa_in_range (this f').
Proof.
  unfold zeros_body, mantissa_in_range. intros H E.
  destruct (c =? "0")%char.
  - injection E as <-. simpl. destruct (hadDecimalPoint (this f)); exact H.
  - destruct ((c =? ".")%char && negb (hadDecimalPoint (this f)) && acceptReals);
      [|discriminate].
    injection E as <-. exact H.
Qed.

Lemma digits_body_range (acceptReals : bool) (f f' : Frame) (c : ascii) :
  mantissa_in_range (this f) -> digits_body acceptReals f c = Some f' ->
  mantissa_in_range (this f').
Proof.
  unfold digits_body. intros H E.
  destruct (isdigit c) eqn:Hc.
  - destruct (overflowed f).
    + injection E as <-. simpl.
      destruct (hadDecimalPoint (this f)); exact H.
    + pose proof (fold_digit_range (this f) (digit_of c) H (digit_of_range c Hc)) as R.
      destruct (fold_digit (this f) (digit_of c)) as [o' ov].
      injection E as <-. exact R.
  - destruct ((c =? ".")%char && negb (hadDecimalPoint (this f)) && acceptReals);
      [|discriminate].
    injection E as <-. exact H.
Qed.

(** ** Properties of every state of a run

    [check_sign] leaves the freshly reset object, with [isNegative] set
    when it consumed a minus sign, and does not lengthen the stream. *)
Lemma check_sign_result (acceptNegative : bool) (s s' : stream) (o : NumericConverter) :
  check_sign acceptNegative reset s = Some (o, s') ->
  (o = reset \/ o = set_isNegative true reset) /\
  (List.length s' <= List.length s)%nat.
Proof.
  unfold check_sign, NextChar. intros H.
  assert (L : (List.length (tl s) <= List.length s)%nat)
    by (destruct s; simpl; lia).
  destruct (cur s =? "+")%char.
  - injection H as <- <-. split; [left; reflexivity | exact L].
  - destruct (cur s =? "-")%char.
    + destruct (negb acceptNegative); [discriminate|].
      injection H as <- <-. split; [right; reflexivity | exact L].
    + injection H as <- <-. split; [left; reflexivity | lia].
Qed.

Lemma zeros_body_overflowed (acceptReals : bool) (f f' : Frame) (c : ascii) :
  zeros_body acceptReals f c = Some f' -> overflowed f' = overflowed f.
Proof.
  unfold zeros_body. intros E.
  destruct (c =? "0")%char; [injection E as <-; reflexivity|].
  destruct ((c =? ".")%char && negb (hadDecimalPoint (this f)) && acceptReals);
    [|discriminate].
  injection E as <-. reflexivity.
Qed.

Lemma Forall_constant {A B : Type} (P : B -> Prop) (b : B) (l : list A) :
  P b -> Forall P (map (fun _ => b) l).
Proof. intros H. induction l; simpl; constructor; assumption. Qed.

Section RunInvariant.
Variables (c : ascii) (acceptNegative acceptReals : bool) (src : stream).
Variable P : NumericConverter -> Prop.
Variable Q : NumericConverter -> Prop.
Variable I : Frame -> stream -> Prop.

Hypothesis P_reset : P reset.
Hypothesis Q_reset : Q reset.
Hypothesis I_start :
  forall o s, o = reset \/ o = set_isNegative true reset ->
              (List.length s <= List.length (c :: src))%nat ->
              I (mkFrame o false false) s.
Hypothesis I_zeros :
  forall f c s f', I f (c :: s) -> zeros_body acceptReals f c = Some f' -> I f' s.
Hypothesis I_digits :
  forall f c s f', I f (c :: s) -> digits_body acceptReals f c = Some f' -> I f' s.
Hypothesis I_P :
  forall f s, I f s -> P (this f) /\ P (set_hadExponent true (this f)) /\ Q (this f).
Hypothesis I_exponent :
  forall f s b e, I f s -> Q (apply_exponent b e (set_hadExponent true (this f))).

Lemma exponent_states_Forall (f : Frame) (s0 s : stream) :
  I f s0 -> Forall P (exponent_states (this f) s).
Proof.
  intros Hf. unfold exponent_states.
  destruct (I_P f s0 Hf) as (P0 & P1 & _).
  constructor; [exact P0|].
  apply Forall_app. split.
  - destruct ((cur (NextChar s) =? "-")%char || (cur (NextChar s) =? "+")%char)%bool;
      repeat constructor; exact P0.
  - destruct (negb (isdigit _)); [constructor|].
    apply Forall_constant. exact P1.
Qed.

Lemma read_exponent_final (f : Frame) (s0 s : stream) :
  I f s0 ->
  match fst (read_exponent (this f) s) with
  | Some o => Q o
  | None => True
  end.
Proof.
  intros Hf. unfold read_exponent.
  destruct (negb (isdigit _)); [exact Logic.I|].
  destruct (loop exponent_body 0 _) as [e s1]. cbn [fst].
  apply (I_exponent f s0). exact Hf.
Qed.

(** [P] holds after the reset and after each consumed character, [Q]
    for the object that is returned. *)
Lemma Accumulate_invariant :
  Forall P (Accumulate_states c acceptNegative acceptReals src) /\
  Q (result_obj (Accumulate c acceptNegative acceptReals src)).
Proof.
  unfold Accumulate_states, Accumulate, result_obj.
  pose proof (loop_length white_body (c :: src) tt) as Lw.
  destruct (loop white_body tt (c :: src)) as [u s]. cbn [snd] in Lw.
  assert (HW : Forall P (map (fun _ : unit => reset)
                           (loop_states white_body tt (c :: src))))
    by (apply Forall_constant; exact P_reset).
  destruct (check_sign acceptNegative reset s) as [[o s']|] eqn:Es.
  2:{ split; [|exact Q_reset].
      constructor; [exact P_reset|]. apply Forall_app. split; [exact HW|constructor]. }
  destruct (check_sign_result _ _ _ _ Es) as [Ho Ls].
  assert (I0 : I (mkFrame o false false) s') by (apply I_start; [exact Ho | lia]).
  destruct (loop_invariant (zeros_body acceptReals)
              (fun f s => I f s /\ overflowed f = false)) with
    (s := s') (st := mkFrame o false false) as [Z1 Z2].
  { intros f c0 s0 f' [Hi Ho'] E. split; [eapply I_zeros; eassumption|].
    rewrite (zeros_body_overflowed _ _ _ _ E). exact Ho'. }
  { split; [exact I0 | reflexivity]. }
  assert (HZ : Forall P (map this (loop_states (zeros_body acceptReals)
                                     (mkFrame o false false) s'))).
  { apply Forall_map. eapply Forall_impl; [|exact Z1].
    intros f [s0 [Hi _]]. exact (proj1 (I_P _ _ Hi)). }
  destruct (loop (zeros_body acceptReals) (mkFrame o false false) s') as [f s1].
  cbn [fst snd] in Z2. destruct Z2 as [I1 Ov1].
  assert (Ef : mkFrame (this f) (hadDigit f) false = f)
    by (destruct f; simpl in *; subst; reflexivity).
  rewrite Ef.
  destruct (loop_invariant (digits_body acceptReals) I I_digits s1 f I1) as [D1 D2].
  assert (HD : Forall P (map this (loop_states (digits_body acceptReals) f s1))).
  { apply Forall_map. eapply Forall_impl; [|exact D1].
    intros g [s0 Hi]. exact (proj1 (I_P _ _ Hi)). }
  destruct (loop (digits_body acceptReals) f s1) as [g s2].
  cbn [fst snd] in D2.
  destruct (I_P _ _ D2) as (_ & _ & Qg).
  assert (HS : Forall P (if ((cur s =? "+")%char || (cur s =? "-")%char)%bool
                         then [o] else [])).
  { destruct ((cur s =? "+")%char || (cur s =? "-")%char)%bool;
      repeat constructor. exact (proj1 (I_P _ _ I0)). }
  assert (Common : forall tail, Forall P tail ->
            Forall P (reset :: map (fun _ : unit => reset)
                                 (loop_states white_body tt (c :: src)) ++
                      (if ((cur s =? "+")%char || (cur s =? "-")%char)%bool
                       then [o] else []) ++
                      map this (loop_states (zeros_body acceptReals)
                                  (mkFrame o false false) s') ++
                      map this (loop_states (digits_body acceptReals) f s1) ++ tail)).
  { intros tail Ht. constructor; [exact P_reset|].
    repeat (apply Forall_app; split; try assumption). }
  destruct (negb (hadDigit g)).
  { split; [apply Common; constructor | exact Qg]. }
  destruct (acceptReals && (toupper (cur s2) =? "E")%char)%bool.
  2:{ split; [apply Common; constructor | exact Qg]. }
  split.
  - apply Common. eapply exponent_states_Forall. exact D2.
  - pose proof (read_exponent_final g s2 s2 D2) as F.
    destruct (read_exponent (this g) s2) as [[o'|] s3]; cbn [fst snd] in *;
      [exact F | exact Qg].
Qed.
End RunInvariant.

(** ** The states of a run end with the object that [Accumulate] leaves *)

Lemma last_cons_default {A : Type} (a d : A) (l : list A) :
  last (a :: l) d = last l a.
Proof.
  revert a d. induction l as [|b l IH]; intros a d; [reflexivity|].
  change (last (a :: b :: l) d) with (last (b :: l) d).
  rewrite (IH b d), (IH b a). reflexivity.
Qed.

Lemma last_app_default {A : Type} (l1 l2 : list A) (d : A) :
  last (l1 ++ l2) d = last l2 (last l1 d).
Proof.
  revert d. induction l1 as [|a l1 IH]; intros d; [reflexivity|].
  rewrite <- app_comm_cons, !last_cons_default. apply IH.
Qed.

Lemma last_map_default {A B : Type} (g : A -> B) (l : list A) (d : A) :
  last (map g l) (g d) = g (last l d).
Proof.
  revert d. induction l as [|a l IH]; intros d; [reflexivity|].
  cbn [map]. rewrite !last_cons_default. apply IH.
Qed.

Lemma last_constant {A B : Type} (b : B) (l : list A) :
  last (map (fun _ => b) l) b = b.
Proof.
  induction l as [|a l IH]; [reflexivity|].
  cbn [map]. rewrite last_cons_default. exact IH.
Qed.

Lemma loop_states_last {S : Type} (body : S -> ascii -> option S) (s : stream) (st : S) :
  last (loop_states body st s) st = fst (loop body st s).
Proof. rewrite (loop_last body s st st), last_cons_default. reflexivity. Qed.

Lemma check_sign_unsigned (acceptNegative : bool) (o o' : NumericConverter) (s s' : stream) :
  check_sign acceptNegative o s = Some (o', s') ->
  ((cur s =? "+")%char || (cur s =? "-")%char)%bool = false -> o' = o.
Proof.
  unfold check_sign. intros H N. apply orb_false_iff in N. destruct N as [N1 N2].
  rewrite N1, N2 in H. injection H as <- _. reflexivity.
Qed.

(** The object that [Accumulate] returns is the last state of the run,
    or what [apply_exponent] makes of it. *)
Lemma exponent_states_last (o d : NumericConverter) (s : stream) :
  match fst (read_exponent o s) with
  | Some o' => exists b e, o' = apply_exponent b e (last (exponent_states o s) d)
  | None => last (exponent_states o s) d = o
  end.
Proof.
  unfold exponent_states, read_exponent.
  rewrite last_cons_default, last_app_default.
  set (neg := (cur (NextChar s) =? "-")%char).
  set (sg := (neg || (cur (NextChar s) =? "+")%char)%bool).
  set (s1 := if sg then NextChar (NextChar s) else NextChar s).
  assert (E : last (if sg then [o] else []) o = o) by (destruct sg; reflexivity).
  rewrite E.
  destruct (negb (isdigit (cur s1))) eqn:Hd; [reflexivity|].
  destruct s1 as [|c1 s1']; [discriminate|].
  cbn [cur hd] in Hd. apply negb_false_iff in Hd.
  cbn [loop loop_states]. unfold exponent_body at 1 3. rewrite Hd.
  cbn [map]. rewrite last_cons_default, last_constant.
  destruct (loop exponent_body _ s1') as [e s2]. cbn [fst].
  exists neg, e. reflexivity.
Qed.

Lemma Accumulate_states_last (c : ascii) (acceptNegative acceptReals : bool) (src : stream) :
  let final := result_obj (Accumulate c acceptNegative acceptReals src) in
  let states := Accumulate_states c acceptNegative acceptReals src in
  final = last states reset \/
  exists b e, final = apply_exponent b e (last states reset).
Proof.
  unfold Accumulate_states, Accumulate, result_obj.
  rewrite last_cons_default, last_app_default, last_constant.
  destruct (loop white_body tt (c :: src)) as [u s].
  destruct (check_sign acceptNegative reset s) as [[o s']|] eqn:Es;
    [|left; reflexivity].
  rewrite last_app_default.
  assert (E0 : last (if ((cur s =? "+")%char || (cur s =? "-")%char)%bool
                     then [o] else []) reset = o).
  { destruct ((cur s =? "+")%char || (cur s =? "-")%char)%bool eqn:N; [reflexivity|].
    symmetry. exact (check_sign_unsigned _ _ _ _ _ Es N). }
  rewrite E0, last_app_default.
  rewrite (last_map_default this _ (mkFrame o false false)), loop_states_last.
  destruct (loop (zeros_body acceptReals) (mkFrame o false false) s') as [f s1].
  cbn [fst]. rewrite last_app_default.
  rewrite (last_map_default this _ (mkFrame (this f) (hadDigit f) false)),
    loop_states_last.
  destruct (loop (digits_body acceptReals) (mkFrame (this f) (hadDigit f) false) s1)
    as [g s2].
  cbn [fst].
  destruct (negb (hadDigit g)); [left; reflexivity|].
  destruct (acceptReals && (toupper (cur s2) =? "E")%char)%bool; [|left; reflexivity].
  pose proof (exponent_states_last (this g) (this g) s2) as L.
  destruct (read_exponent (this g) s2) as [[o'|] s3]; cbn [fst snd] in *.
  - right. exact L.
  - left. symmetry. exact L.
Qed.

(** ** Arithmetic of the exponent update *)

Lemma to_int32_to_uint32 (z : Z) : to_int32 (to_uint32 z) = to_int32 z.
Proof.
  unfold to_int32, to_uint32.
  rewrite Zplus_mod_idemp_l. reflexivity.
Qed.

Lemma add_unsigned_eq (x e : Z) : add_unsigned x e = to_int32 (x + e).
Proof.
  unfold add_unsigned. rewrite to_int32_to_uint32.
  unfold to_int32, to_uint32.
  rewrite <- Z.add_assoc, Zplus_mod_idemp_l, Z.add_assoc. reflexivity.
Qed.

Lemma sub_unsigned_eq (x e : Z) : sub_unsigned x e = to_int32 (x - e).
Proof.
  unfold sub_unsigned. rewrite to_int32_to_uint32.
  unfold to_int32, to_uint32.
  replace (x mod 4294967296 - e + 2147483648)
    with (x mod 4294967296 + (- e + 2147483648)) by lia.
  rewrite Zplus_mod_idemp_l.
  f_equal. f_equal. lia.
Qed.

(** Two integers that differ by at most one are converted to [int]s that
    differ by at most one, unless the conversion wraps between them. *)
Lemma to_int32_neighbours (a b : Z) :
  -1 <= a - b <= 1 ->
  -1 <= to_int32 a - to_int32 b <= 1 \/
  (to_int32 a = INT32_MIN /\ to_int32 b = INT32_MAX) \/
  (to_int32 a = INT32_MAX /\ to_int32 b = INT32_MIN).
Proof.
  intros H. unfold to_int32, INT32_MIN, INT32_MAX.
  pose proof (Z.div_mod (a + 2147483648) 4294967296 ltac:(lia)) as Ea.
  pose proof (Z.mod_pos_bound (a + 2147483648) 4294967296 ltac:(lia)) as Ba.
  pose proof (Z.div_mod (b + 2147483648) 4294967296 ltac:(lia)) as Eb.
  pose proof (Z.mod_pos_bound (b + 2147483648) 4294967296 ltac:(lia)) as Bb.
  lia.
Qed.

(** ** The scale exponents during the mantissa *)

Section ScaleInvariant.
Variable N : Z.
Hypothesis N_small : N <= INT32_MAX.
Variable acceptReals : bool.

Lemma scale_inv_zeros (f : Frame) (c : ascii) (s : stream) (f' : Frame) :
  scale_inv N f (c :: s) -> zeros_body acceptReals f c = Some f' -> scale_inv N f' s.
Proof.
  unfold scale_inv. cbn [List.length]. rewrite Nat2Z.inj_succ.
  intros (R & T & F & Q & D) E.
  pose proof (zeros_body_range _ _ _ _ R E) as R'.
  split; [exact R'|]. clear R R'.
  unfold zeros_body in E.
  unfold INT32_MAX in N_small.
  destruct (c =? "0")%char.
  - injection E as <-. cbn [this overflowed].
    destruct (hadDecimalPoint (this f)); cbn [twos fives set_twos set_fives].
    + rewrite !decr_exact by (unfold INT32_MIN, INT32_MAX; lia).
      repeat split; try lia. intros H. specialize (Q H). lia.
    + repeat split; try lia. exact Q.
  - destruct ((c =? ".")%char && negb (hadDecimalPoint (this f)) && acceptReals);
      [|discriminate].
    injection E as <-. cbn [this overflowed twos fives set_hadDecimalPoint].
    repeat split; try lia. exact Q.
Qed.

Lemma scale_inv_digits (f : Frame) (c : ascii) (s : stream) (f' : Frame) :
  scale_inv N f (c :: s) -> digits_body acceptReals f c = Some f' -> scale_inv N f' s.
Proof.
  unfold scale_inv. cbn [List.length]. rewrite Nat2Z.inj_succ.
  intros (R & T & F & Q & D) E.
  pose proof (digits_body_range _ _ _ _ R E) as R'.
  split; [exact R'|]. clear R'.
  unfold INT32_MAX in N_small.
  assert (It : incr (twos (this f)) = twos (this f) + 1)
    by (apply incr_exact; unfold INT32_MIN, INT32_MAX; lia).
  assert (If : incr (fives (this f)) = fives (this f) + 1)
    by (apply incr_exact; unfold INT32_MIN, INT32_MAX; lia).
  assert (Dt : decr (twos (this f)) = twos (this f) - 1)
    by (apply decr_exact; unfold INT32_MIN, INT32_MAX; lia).
  assert (Df : decr (fives (this f)) = fives (this f) - 1)
    by (apply decr_exact; unfold INT32_MIN, INT32_MAX; lia).
  unfold digits_body in E.
  destruct (isdigit c) eqn:Hc.
  - destruct (overflowed f) eqn:Hov.
    + injection E as <-. cbn [this overflowed].
      destruct (hadDecimalPoint (this f));
        cbn [negb twos fives set_twos set_fives]; rewrite ?It, ?If;
        repeat split; try lia; discriminate.
    + specialize (Q eq_refl).
      destruct (fold_digit_cases (this f) (digit_of c) R (digit_of_range c Hc)) as
        [[B E']|[[N10 [B E']]|[[N10 [N5 [B E']]]|[N10 [N5 [N2 E']]]]]];
        rewrite E' in E; injection E as <-;
        cbn [this overflowed twos fives after_fold];
        destruct (hadDecimalPoint (this f));
        rewrite ?It, ?If, ?Dt, ?Df;
        repeat split; try lia; try discriminate.
  - destruct ((c =? ".")%char && negb (hadDecimalPoint (this f)) && acceptReals);
      [|discriminate].
    injection E as <-. cbn [this overflowed twos fives set_hadDecimalPoint].
    repeat split; try lia. exact Q.
Qed.
End ScaleInvariant.

Lemma apply_exponent_scale (b : bool) (e : Z) (o : NumericConverter) :
  -1 <= twos o - fives o <= 1 ->
  balanced (apply_exponent b e (set_hadExponent true o)) \/
  (hadExponent (apply_exponent b e (set_hadExponent true o)) = true /\
   wrapped_apart (apply_exponent b e (set_hadExponent true o))).
Proof.
  intros D. unfold balanced, wrapped_apart, apply_exponent.
  destruct b; cbn [twos fives hadExponent set_twos set_fives set_hadExponent];
    rewrite ?add_unsigned_eq, ?sub_unsigned_eq.
  - destruct (to_int32_neighbours (twos o - e) (fives o - e)) as [H|H]; [lia| |].
    + left. lia.
    + right. split; [reflexivity | exact H].
  - destruct (to_int32_neighbours (twos o + e) (fives o + e)) as [H|H]; [lia| |].
    + left. lia.
    + right. split; [reflexivity | exact H].
Qed.

(** ** The mantissa never wraps *)

Lemma fold_digit_exact (o : NumericConverter) (digit : Z) :
  mantissa_in_range o -> 0 <= digit <= 9 -> exact_update o digit.
Proof.
  intros Hl Hd. unfold exact_update.
  split; [apply fold_digit_range; assumption|].
  pose proof (fits10_iff (lvalue o) digit Hd) as G10.
  pose proof (fits5_iff (lvalue o) ((digit + 1) / 2)) as G5.
  pose proof (fits2_iff (lvalue o) ((digit + 4) / 5)) as G2.
  destruct (fold_digit_cases o digit Hl Hd) as
    [[B E]|[[N10 [B E]]|[[N10 [N5 [B E]]]|[N10 [N5 [N2 E]]]]]];
    rewrite E; cbn [fst lvalue after_fold];
    destruct (fits10 (lvalue o) digit);
    destruct (fits5 (lvalue o) ((digit + 1) / 2));
    destruct (fits2 (lvalue o) ((digit + 4) / 5));
    repeat split; intros; try discriminate; try reflexivity; try assumption;
    try (exfalso; lia); try (exfalso; intuition lia).
Qed.

(** C5.  For every input stream, however many digits it has, the mantissa
    is within the unsigned 32-bit range after the reset, after every
    consumed character and on return; and whatever digit comes next, the
    update expression that is evaluated (times 10, times 5 or times 2) is
    one whose guard bounds its mathematical value by 2^32 - 1, so that the
    value stored in [lvalue] is that value and not a residue modulo
    2^32. *)
Theorem mantissa_never_wraps
  (c : ascii) (acceptNegative acceptReals : bool) (src : stream) :
  Forall (fun o => mantissa_in_range o /\
                   forall digit, 0 <= digit <= 9 -> exact_update o digit)
         (Accumulate_states c acceptNegative acceptReals src)
  /\ mantissa_in_range (result_obj (Accumulate c acceptNegative acceptReals src)).
Proof.
  destruct (Accumulate_invariant c acceptNegative acceptReals src
              mantissa_in_range mantissa_in_range
              (fun f _ => mantissa_in_range (this f))) as [HP HQ].
  - unfold mantissa_in_range, UINT32_MAX. simpl. lia.
  - unfold mantissa_in_range, UINT32_MAX. simpl. lia.
  - intros o s [-> | ->] _; unfold mantissa_in_range, UINT32_MAX; simpl; lia.
  - intros f c0 s f' H E. exact (zeros_body_range _ _ _ _ H E).
  - intros f c0 s f' H E. exact (digits_body_range _ _ _ _ H E).
  - intros f s H. repeat split; apply H.
  - intros f s b e H. unfold mantissa_in_range, apply_exponent.
    destruct b; exact H.
  - split; [|exact HQ].
    eapply Forall_impl; [|exact HP].
    intros o Ho. split; [exact Ho|].
    intros digit Hd. apply fold_digit_exact; assumption.
Qed.

(** ** The scale exponents differ by at most one *)

(** C3 (amended).  For an input of fewer than 2^31 characters the two
    scale exponents differ by at most 1 after the initial reset and after
    each consumed character.  After the exponent is applied they still
    differ by at most 1, unless adding the exponent wrapped one of them
    around the [int] range and not the other, which leaves one at INT_MIN
    and the other at INT_MAX. *)
Theorem scale_exponents_balanced
  (c : ascii) (acceptNegative acceptReals : bool) (src : stream) :
  Z.of_nat (List.length (c :: src)) <= INT32_MAX ->
  Forall balanced (Accumulate_states c acceptNegative acceptReals src) /\
  let final := result_obj (Accumulate c acceptNegative acceptReals src) in
  (balanced final \/ (hadExponent final = true /\ wrapped_apart final)) /\
  (hadExponent final = false -> balanced final).
Proof.
  intros HN.
  set (N := Z.of_nat (List.length (c :: src))) in *.
  destruct (Accumulate_invariant c acceptNegative acceptReals src
              balanced
              (fun o => balanced o \/ (hadExponent o = true /\ wrapped_apart o))
              (scale_inv N)) as [HP HQ].
  - unfold balanced. simpl. lia.
  - left. unfold balanced. simpl. lia.
  - intros o s Ho Hlen. unfold scale_inv, mantissa_in_range, UINT32_MAX.
    assert (Z.of_nat (List.length s) <= N) by (subst N; lia).
    clearbody N.
    destruct Ho as [-> | ->];
      cbn [this overflowed lvalue twos fives reset set_isNegative];
      repeat split; lia.
  - intros f c0 s f'. apply scale_inv_zeros. exact HN.
  - intros f c0 s f'. apply scale_inv_digits. exact HN.
  - intros f s (_ & _ & _ & _ & D). unfold balanced. simpl.
    repeat split; try left; lia.
  - intros f s b e (_ & _ & _ & _ & D). apply apply_exponent_scale. exact D.
  - split; [exact HP|]. cbv zeta. split; [exact HQ|].
    intros He. destruct HQ as [H|[H _]]; [exact H | congruence].
Qed.

(** A run with an exponent whose application does not wrap. *)
Lemma scale_exponents_balanced_witness :
  Forall balanced (Accumulate_states "4" true true (list_ascii_of_string "294967296.5e-3")) /\
  balanced (result_obj (Accumulate "4" true true (list_ascii_of_string "294967296.5e-3"))).
Proof.
  destruct (scale_exponents_balanced "4" true true
              (list_ascii_of_string "294967296.5e-3")) as [H1 [H2 _]].
  - vm_compute. discriminate.
  - split; [exact H1|].
    assert (E : twos (result_obj (Accumulate "4" true true
                                    (list_ascii_of_string "294967296.5e-3"))) = -2)
      by (vm_compute; reflexivity).
    destruct H2 as [H|[_ [[H _]|[H _]]]]; [exact H| |];
      rewrite E in H; discriminate H.
Defined.

(** C3 as stated fails: after "4294967296" the exponents are [twos] = 1
    and [fives] = 0, and the exponent 2147483647 takes [twos] to INT_MIN
    and [fives] to INT_MAX. *)
Lemma scale_exponents_counterexample :
  result_ok (Accumulate "4" true true (list_ascii_of_string "294967296e2147483647"))
  = true /\
  twos (result_obj (Accumulate "4" true true
                      (list_ascii_of_string "294967296e2147483647"))) = INT32_MIN /\
  fives (result_obj (Accumulate "4" true true
                       (list_ascii_of_string "294967296e2147483647"))) = INT32_MAX /\
  ~ balanced (result_obj (Accumulate "4" true true
                            (list_ascii_of_string "294967296e2147483647"))).
Proof.
  repeat split; try (vm_compute; reflexivity).
  unfold balanced.
  assert (E : twos (result_obj (Accumulate "4" true true
                (list_ascii_of_string "294967296e2147483647"))) -
              fives (result_obj (Accumulate "4" true true
                (list_ascii_of_string "294967296e2147483647"))) = -4294967295)
    by (vm_compute; reflexivity).
  rewrite E. vm_compute. intros H. apply H. reflexivity.
Qed.

(** ** Integer extraction *)

(** C4.  [FitsInUint32] holds exactly when no decimal point and no
    exponent were seen, the value is not negative or is zero, both scale
    exponents are zero and the mantissa does not exceed the largest
    unsigned 32-bit value.  After "4294967295" it holds and [GetUint32] is
    4294967295; after "4294967296" it does not hold. *)
Theorem FitsInUint32_spec :
  (forall o,
     FitsInUint32 o = true <->
     hadDecimalPoint o = false /\ hadExponent o = false /\
     (isNegative o = false \/ lvalue o = 0) /\
     twos o = 0 /\ fives o = 0 /\ lvalue o <= UINT32_MAX) /\
  (forall acceptNegative acceptReals,
     let r := parse acceptNegative acceptReals "4294967295" in
     result_ok r = true /\ FitsInUint32 (result_obj r) = true /\
     GetUint32 (result_obj r) = 4294967295) /\
  (forall acceptNegative acceptReals,
     let r := parse acceptNegative acceptReals "4294967296" in
     result_ok r = true /\ FitsInUint32 (result_obj r) = false).
Proof.
  split; [|split].
  - intros o. unfold FitsInUint32.
    rewrite !andb_true_iff, orb_true_iff, !negb_true_iff, !Z.eqb_eq, Z.leb_le.
    tauto.
  - intros [] []; vm_compute; repeat split.
  - intros [] []; vm_compute; repeat split.
Qed.

(** ** Digits after the point *)

(** C8 as stated fails: "429496.7296" is parsed with [twos] = -3 and
    [fives] = -4, for which the document says 3 and the code returns 4. *)
Lemma digits_after_point_counterexample :
  result_ok (parse true true "429496.7296") = true /\
  twos (result_obj (parse true true "429496.7296")) = -3 /\
  fives (result_obj (parse true true "429496.7296")) = -4 /\
  smaller_magnitude_negated (result_obj (parse true true "429496.7296")) = 3 /\
  GetDigitsAfterPoint (result_obj (parse true true "429496.7296")) = 4 /\
  GetDigitsAfterPoint (result_obj (parse true true "429496.7296")) <>
  smaller_magnitude_negated (result_obj (parse true true "429496.7296")).
Proof.
  repeat split; try (vm_compute; reflexivity).
  vm_compute. discriminate.
Qed.

(** C8 (amended).  [GetDigitsAfterPoint] returns the smaller of the two
    scale exponents (the one of larger magnitude when both are negative),
    negated, and zero when that exponent is not negative; with
    [twos] = -3 and [fives] = -4 it returns 4. *)
Theorem GetDigitsAfterPoint_spec (o : NumericConverter) :
  INT32_MIN <= twos o <= INT32_MAX ->
  INT32_MIN <= fives o <= INT32_MAX ->
  GetDigitsAfterPoint o = Z.max 0 (- Z.min (twos o) (fives o)) /\
  (0 <= Z.min (twos o) (fives o) -> GetDigitsAfterPoint o = 0) /\
  (twos o = -3 -> fives o = -4 -> GetDigitsAfterPoint o = 4).
Proof.
  intros Ht Hf.
  assert (E : GetDigitsAfterPoint o = Z.max 0 (- Z.min (twos o) (fives o))).
  { unfold GetDigitsAfterPoint.
    assert (M : (if fives o <? twos o then fives o else twos o)
                = Z.min (twos o) (fives o))
      by (destruct (Z.ltb_spec (fives o) (twos o)); lia).
    rewrite M.
    unfold INT32_MIN, INT32_MAX in *.
    destruct (Z.ltb_spec (Z.min (twos o) (fives o)) 0) as [L|L]; [|lia].
    rewrite to_int32_to_uint32_neg by (unfold INT32_MIN; lia). lia. }
  split; [exact E|]. split.
  - intros H. rewrite E. lia.
  - intros H3 H4. rewrite E, H3, H4. reflexivity.
Qed.

Lemma GetDigitsAfterPoint_spec_witness :
  GetDigitsAfterPoint (result_obj (parse true true "429496.7296")) = 4.
Proof.
  destruct (GetDigitsAfterPoint_spec (result_obj (parse true true "429496.7296")))
    as (_ & _ & H).
  - vm_compute. split; discriminate.
  - vm_compute. split; discriminate.
  - apply H; vm_compute; reflexivity.
Defined.

(** ** Reading up to a character that ends the mantissa *)

Lemma Accumulate_unfold (c : ascii) (acceptNegative acceptReals : bool) (src : stream) :
  Accumulate c acceptNegative acceptReals src =
  match read_mantissa acceptNegative acceptReals (c :: src) with
  | (None, s) => (false, reset, s)
  | (Some f, s) =>
      if negb (hadDigit f) then (false, this f, s)
      else if acceptReals && (toupper (cur s) =? "E")%char then
        match read_exponent (this f) s with
        | (None, s') => (false, this f, s')
        | (Some o, s') => (true, o, s')
        end
      else (true, this f, s)
  end.
Proof.
  unfold Accumulate, read_mantissa.
  destruct (loop white_body tt (c :: src)) as [u s].
  destruct (check_sign acceptNegative reset s) as [[o s']|]; [|reflexivity].
  destruct (loop (zeros_body acceptReals) (mkFrame o false false) s') as [f s1].
  destruct (loop (digits_body acceptReals) (mkFrame (this f) (hadDigit f) false) s1)
    as [g s2].
  reflexivity.
Qed.

(** A loop that stops at the head of [t] does on [pre ++ t] what it does
    on [pre], and leaves [t] unread. *)
Lemma loop_app {S : Type} (body : S -> ascii -> option S) (t : stream) :
  (forall st, body st (cur t) = None) ->
  forall pre st,
    loop body st (pre ++ t) = (fst (loop body st pre), snd (loop body st pre) ++ t).
Proof.
  intros Ht. induction pre as [|a pre IH]; intros st.
  - destruct t as [|b t']; [reflexivity|].
    cbn [app loop fst snd]. cbn [cur hd] in Ht. rewrite Ht. reflexivity.
  - cbn [app loop]. destruct (body st a) as [st'|]; [apply IH | reflexivity].
Qed.

Lemma ends_mantissa_white (acceptReals : bool) (ch : ascii) (u : unit) :
  ends_mantissa acceptReals ch = true -> white_body u ch = None.
Proof.
  unfold ends_mantissa, white_body. intros H.
  destruct ((ch =? " ")%char || (ch =? TAB)%char)%bool; [discriminate | reflexivity].
Qed.

Lemma isdigit_zero (ch : ascii) : (ch =? "0")%char = true -> isdigit ch = true.
Proof. intros H. apply Ascii.eqb_eq in H. subst ch. reflexivity. Qed.

Lemma ends_mantissa_zeros (acceptReals : bool) (ch : ascii) (f : Frame) :
  ends_mantissa acceptReals ch = true -> zeros_body acceptReals f ch = None.
Proof.
  unfold ends_mantissa, zeros_body. intros H.
  destruct (ch =? "0")%char eqn:Z.
  - rewrite (isdigit_zero ch Z) in H. rewrite !andb_false_r in H. discriminate.
  - destruct (ch =? ".")%char; destruct acceptReals;
      rewrite ?andb_false_r; try reflexivity.
    rewrite !andb_false_r in H. discriminate.
Qed.

Lemma ends_mantissa_digits (acceptReals : bool) (ch : ascii) (f : Frame) :
  ends_mantissa acceptReals ch = true -> digits_body acceptReals f ch = None.
Proof.
  unfold ends_mantissa, digits_body. intros H.
  destruct (isdigit ch).
  - rewrite !andb_false_r in H. discriminate.
  - destruct (ch =? ".")%char; destruct acceptReals;
      rewrite ?andb_false_r; try reflexivity.
    rewrite !andb_false_r in H. discriminate.
Qed.

Lemma check_sign_app (acceptNegative acceptReals : bool) (o : NumericConverter) (s t : stream) :
  ends_mantissa acceptReals (cur t) = true ->
  check_sign acceptNegative o (s ++ t) =
  match check_sign acceptNegative o s with
  | None => None
  | Some (o', s') => Some (o', s' ++ t)
  end.
Proof.
  intros H. destruct s as [|a s].
  - cbn [app]. unfold check_sign at 2. cbn [cur hd].
    change (NUL =? "+")%char with false. change (NUL =? "-")%char with false.
    unfold check_sign, ends_mantissa in *.
    destruct (cur t =? "+")%char; [rewrite !andb_false_r in H; discriminate|].
    destruct (cur t =? "-")%char; [rewrite orb_true_r, !andb_false_r in H; discriminate|].
    reflexivity.
  - unfold check_sign. cbn [app cur hd NextChar tl].
    destruct (a =? "+")%char; [reflexivity|].
    destruct (a =? "-")%char; [|reflexivity].
    destruct (negb acceptNegative); reflexivity.
Qed.

Lemma read_mantissa_app (acceptNegative acceptReals : bool) (s t : stream) :
  ends_mantissa acceptReals (cur t) = true ->
  read_mantissa acceptNegative acceptReals (s ++ t) =
  (fst (read_mantissa acceptNegative acceptReals s),
   snd (read_mantissa acceptNegative acceptReals s) ++ t).
Proof.
  intros H. unfold read_mantissa.
  rewrite (loop_app white_body t) by (intros u; apply (ends_mantissa_white _ _ _ H)).
  destruct (loop white_body tt s) as [u s0]. cbn [fst snd].
  rewrite (check_sign_app _ acceptReals _ _ _ H).
  destruct (check_sign acceptNegative reset s0) as [[o s1]|]; [|reflexivity].
  rewrite (loop_app (zeros_body acceptReals) t)
    by (intros f; apply (ends_mantissa_zeros _ _ _ H)).
  destruct (loop (zeros_body acceptReals) (mkFrame o false false) s1) as [f s2].
  cbn [fst snd].
  rewrite (loop_app (digits_body acceptReals) t)
    by (intros g; apply (ends_mantissa_digits _ _ _ H)).
  destruct (loop (digits_body acceptReals) (mkFrame (this f) (hadDigit f) false) s2)
    as [g s3].
  reflexivity.
Qed.

(** ** A decimal point when reals are not accepted *)

(** C7 as stated fails: "1.5" read with [acceptReals] off is not a
    failure. *)
Lemma point_without_reals_counterexample :
  result_ok (Accumulate "1" true false (list_ascii_of_string ".5")) = true /\
  result_ok (Accumulate "1" false false (list_ascii_of_string ".5")) = true /\
  result_ok (Accumulate "1" false false (list_ascii_of_string ".5")) <> false.
Proof. repeat split; try (vm_compute; reflexivity). vm_compute. discriminate. Qed.

(** C7 (amended).  With [acceptReals] off a decimal point is not part of
    the literal and ends it like the end of the input does: [Accumulate]
    returns the flag and the object it returns for the input cut at the
    point, and leaves the point and what follows unread.  So "1.5" is
    read as the integer 1 with the flag true, and the flag is false only
    when the input cut at the point is itself rejected, as for a point
    that comes first. *)
Theorem point_ends_integer_literal (acceptNegative : bool) :
  (forall c src rest,
     result_ok (Accumulate c acceptNegative false (src ++ "."%char :: rest)) =
     result_ok (Accumulate c acceptNegative false src) /\
     result_obj (Accumulate c acceptNegative false (src ++ "."%char :: rest)) =
     result_obj (Accumulate c acceptNegative false src) /\
     snd (Accumulate c acceptNegative false (src ++ "."%char :: rest)) =
     snd (Accumulate c acceptNegative false src) ++ "."%char :: rest) /\
  (forall rest,
     Accumulate "." acceptNegative false rest = (false, reset, "."%char :: rest)) /\
  parse acceptNegative false "1.5" =
  (true, mkNC 1 0 0 false false false, list_ascii_of_string ".5") /\
  FitsInUint32 (result_obj (parse acceptNegative false "1.5")) = true /\
  GetUint32 (result_obj (parse acceptNegative false "1.5")) = 1.
Proof.
  split; [|split; [|split; [|split]]].
  - intros c src rest.
    rewrite !Accumulate_unfold.
    change (c :: src ++ "."%char :: rest) with ((c :: src) ++ "."%char :: rest).
    rewrite (read_mantissa_app acceptNegative false (c :: src) ("."%char :: rest))
      by reflexivity.
    destruct (read_mantissa acceptNegative false (c :: src)) as [[f|] s];
      cbn [fst snd andb]; [|repeat split].
    destruct (negb (hadDigit f)); repeat split.
  - intros rest. destruct acceptNegative; reflexivity.
  - destruct acceptNegative; reflexivity.
  - destruct acceptNegative; reflexivity.
  - destruct acceptNegative; reflexivity.
Qed.

(** ** Inputs that are not numbers *)

Lemma no_digit_tl (s : stream) : no_digit s -> no_digit (tl s).
Proof. intros H. destruct s; [exact H|]. inversion H; assumption. Qed.

Lemma no_digit_loop {S : Type} (body : S -> ascii -> option S) (s : stream) (st : S) :
  no_digit s -> no_digit (snd (loop body st s)).
Proof.
  intros H.
  apply (loop_invariant body (fun _ s => no_digit s)); [|exact H].
  intros _ c s0 _ H0 _. inversion H0; assumption.
Qed.

(** Without a digit in the input, [hadDigit] is never set. *)
Lemma no_digit_read_mantissa (acceptNegative acceptReals : bool) (s : stream) :
  no_digit s ->
  match fst (read_mantissa acceptNegative acceptReals s) with
  | Some f => hadDigit f = false
  | None => True
  end.
Proof.
  intros H. unfold read_mantissa.
  pose proof (no_digit_loop white_body s tt H) as H0.
  destruct (loop white_body tt s) as [u s0]. cbn [snd] in H0.
  destruct (check_sign acceptNegative reset s0) as [[o s1]|] eqn:Es; [|exact Logic.I].
  assert (H1 : no_digit s1).
  { unfold check_sign, NextChar in Es.
    destruct (cur s0 =? "+")%char; [injection Es as _ <-; apply no_digit_tl, H0|].
    destruct (cur s0 =? "-")%char; [|injection Es as _ <-; exact H0].
    destruct (negb acceptNegative); [discriminate|].
    injection Es as _ <-. apply no_digit_tl, H0. }
  destruct (loop_invariant (zeros_body acceptReals)
              (fun f s => (hadDigit f = false /\ overflowed f = false) /\ no_digit s))
    with (s := s1) (st := mkFrame o false false) as [_ Z].
  { intros f c s2 f' [[Hd Ho] Hs] E. inversion Hs as [|? ? Hc Hs']; subst.
    split; [|exact Hs'].
    unfold zeros_body in E.
    destruct (c =? "0")%char eqn:Ec;
      [rewrite (isdigit_zero c Ec) in Hc; discriminate|].
    destruct ((c =? ".")%char && negb (hadDecimalPoint (this f)) && acceptReals);
      [|discriminate].
    injection E as <-. split; assumption. }
  { repeat split. exact H1. }
  destruct (loop (zeros_body acceptReals) (mkFrame o false false) s1) as [f s2].
  cbn [fst snd] in Z. destruct Z as [[Hd Ho] Hs].
  destruct (loop_invariant (digits_body acceptReals)
              (fun f s => hadDigit f = false /\ no_digit s))
    with (s := s2) (st := mkFrame (this f) (hadDigit f) false) as [_ D].
  { intros g c s3 g' [Hg Hs3] E. inversion Hs3 as [|? ? Hc Hs']; subst.
    split; [|exact Hs'].
    unfold digits_body in E. rewrite Hc in E.
    destruct ((c =? ".")%char && negb (hadDecimalPoint (this g)) && acceptReals);
      [|discriminate].
    injection E as <-. exact Hg. }
  { split; [exact Hd | exact Hs]. }
  destruct (loop (digits_body acceptReals) (mkFrame (this f) (hadDigit f) false) s2)
    as [g s3].
  cbn [fst snd] in *. exact (proj1 D).
Qed.

(** Leading zeros alone are read to the end and leave the object as the
    reset made it. *)
Lemma zeros_loop_repeat (acceptReals : bool) (n : nat) (o : NumericConverter) (hd ov : bool) :
  hadDecimalPoint o = false ->
  loop (zeros_body acceptReals) (mkFrame o hd ov) (repeat "0"%char (S n)) =
  (mkFrame o true ov, []).
Proof.
  intros Hdp. revert hd. induction n as [|n IH]; intros hd.
  - cbn. rewrite Hdp. reflexivity.
  - change (repeat "0"%char (S (S n))) with ("0"%char :: repeat "0"%char (S n)).
    cbn [loop]. unfold zeros_body at 1. cbn [this overflowed].
    change ("0" =? "0")%char with true. cbv iota. rewrite Hdp. apply IH.
Qed.

Lemma read_exponent_hadExponent (o o' : NumericConverter) (s : stream) :
  fst (read_exponent o s) = Some o' -> hadExponent o' = true.
Proof.
  unfold read_exponent.
  destruct (negb (isdigit _)); [discriminate|].
  destruct (loop exponent_body 0 _) as [e s']. cbn [fst].
  intros H. injection H as <-.
  unfold apply_exponent. destruct (cur (NextChar s) =? "-")%char; reflexivity.
Qed.

(** A marker that no digit follows, after an optional sign. *)
Lemma read_exponent_no_digit (o : NumericConverter) (marker : ascii) (sign rest : stream) :
  sign = [] \/ sign = ["+"%char] \/ sign = ["-"%char] ->
  isdigit (cur rest) = false ->
  (sign = [] -> (cur rest =? "+")%char = false /\ (cur rest =? "-")%char = false) ->
  fst (read_exponent o (marker :: sign ++ rest)) = None.
Proof.
  intros Hs Hd Hn. unfold read_exponent. cbn [NextChar tl].
  destruct Hs as [-> | [-> | ->]].
  - destruct (Hn eq_refl) as [Hp Hm]. cbn [app]. rewrite Hp, Hm. cbn [orb].
    rewrite Hd. reflexivity.
  - cbn [app cur hd NextChar tl]. change ("+" =? "-")%char with false.
    change ("+" =? "+")%char with true. cbn [orb]. fold (cur rest).
    rewrite Hd. reflexivity.
  - cbn [app cur hd NextChar tl]. change ("-" =? "-")%char with true.
    cbn [orb]. fold (cur rest). rewrite Hd. reflexivity.
Qed.

(** C6.  [Accumulate] returns false whenever the input holds no digit at
    all, as for ".", "" and "e5"; and whenever an accepted exponent marker
    is followed, after an optional sign, by something that is not a
    digit, as for "1e".  An input made of zero digits only is a valid
    zero. *)
Theorem not_a_number :
  (forall c acceptNegative acceptReals src,
     no_digit (c :: src) ->
     result_ok (Accumulate c acceptNegative acceptReals src) = false) /\
  (forall c acceptNegative src o marker sign rest,
     Accumulate c acceptNegative true src = (true, o, []) ->
     hadExponent o = false ->
     marker = "E"%char \/ marker = "e"%char ->
     sign = [] \/ sign = ["+"%char] \/ sign = ["-"%char] ->
     isdigit (cur rest) = false ->
     (sign = [] -> (cur rest =? "+")%char = false /\ (cur rest =? "-")%char = false) ->
     result_ok (Accumulate c acceptNegative true (src ++ marker :: sign ++ rest))
     = false) /\
  (forall acceptNegative acceptReals n,
     Accumulate "0" acceptNegative acceptReals (repeat "0"%char n) = (true, reset, [])) /\
  (forall acceptNegative acceptReals,
     result_ok (parse acceptNegative acceptReals ".") = false /\
     result_ok (parse acceptNegative acceptReals "") = false /\
     result_ok (parse acceptNegative acceptReals "e5") = false) /\
  (forall acceptNegative, result_ok (parse acceptNegative true "1e") = false).
Proof.
  split; [|split; [|split; [|split]]].
  - intros c aN aR src H. rewrite Accumulate_unfold.
    pose proof (no_digit_read_mantissa aN aR (c :: src) H) as R.
    destruct (read_mantissa aN aR (c :: src)) as [[f|] s]; cbn [fst] in R;
      [|reflexivity].
    rewrite R. reflexivity.
  - intros c aN src o marker sign rest Hrun Hexp Hm Hs Hd Hn.
    rewrite Accumulate_unfold in Hrun. rewrite Accumulate_unfold.
    change (c :: src ++ marker :: sign ++ rest)
      with ((c :: src) ++ marker :: sign ++ rest).
    rewrite (read_mantissa_app aN true (c :: src) (marker :: sign ++ rest))
      by (destruct Hm as [-> | ->]; reflexivity).
    destruct (read_mantissa aN true (c :: src)) as [[f|] s]; cbn [fst snd];
      [|reflexivity].
    destruct (negb (hadDigit f)); [reflexivity|].
    assert (Es : s = [] /\ o = this f).
    { destruct (true && (toupper (cur s) =? "E")%char)%bool.
      - pose proof (read_exponent_hadExponent (this f) o s) as X.
        destruct (read_exponent (this f) s) as [[o'|] s'];
          [|discriminate]. injection Hrun as -> _.
        specialize (X eq_refl). congruence.
      - injection Hrun as -> ->. split; reflexivity. }
    destruct Es as [-> ->]. cbn [app].
    assert (Em : (true && (toupper (cur (marker :: sign ++ rest)) =? "E")%char)%bool
                 = true) by (destruct Hm as [-> | ->]; reflexivity).
    rewrite Em.
    pose proof (read_exponent_no_digit (this f) marker sign rest Hs Hd Hn) as X.
    destruct (read_exponent (this f) (marker :: sign ++ rest)) as [[o'|] s'];
      [discriminate | reflexivity].
  - intros aN aR n. unfold Accumulate.
    change ("0"%char :: repeat "0"%char n) with (repeat "0"%char (S n)).
    change (loop white_body tt (repeat "0"%char (S n)))
      with (tt, repeat "0"%char (S n)).
    cbv iota beta.
    change (check_sign aN reset (repeat "0"%char (S n)))
      with (Some (reset, repeat "0"%char (S n))).
    cbv iota beta.
    rewrite zeros_loop_repeat by reflexivity.
    cbn. rewrite andb_false_r. reflexivity.
  - intros [] []; vm_compute; repeat split.
  - intros []; vm_compute; reflexivity.
Qed.

Lemma not_a_number_witness :
  result_ok (Accumulate "+" true true (list_ascii_of_string ".x")) = false /\
  result_ok (Accumulate "1" true true (list_ascii_of_string "2.5" ++ "e"%char :: ["-"%char] ++ list_ascii_of_string "x"))
  = false.
Proof.
  destruct not_a_number as (A & B & _).
  split.
  - apply A. repeat constructor.
  - apply (B "1"%char true (list_ascii_of_string "2.5") (mkNC 125 (-1) (-1) true false false)).
    + vm_compute. reflexivity.
    + reflexivity.
    + right. reflexivity.
    + right. right. reflexivity.
    + reflexivity.
    + discriminate.
Defined.

(** ** SafeStrtoul *)

Lemma white_body_blank (ch : ascii) : is_blank ch -> white_body tt ch = Some tt.
Proof. intros [-> | ->]; reflexivity. Qed.

Lemma white_body_other (ch : ascii) :
  ~ is_blank ch -> forall u, white_body u ch = None.
Proof.
  unfold is_blank, white_body. intros H u.
  destruct (Ascii.eqb_spec ch " "%char) as [E|_]; [tauto|].
  destruct (Ascii.eqb_spec ch TAB) as [E|_]; [tauto|].
  reflexivity.
Qed.

(** Leading blanks are skipped up to the first character that is not
    one. *)
Lemma skip_blanks (blanks rest : stream) :
  Forall is_blank blanks -> ~ is_blank (cur rest) ->
  loop white_body tt (blanks ++ rest) = (tt, rest).
Proof.
  intros Hb Hr. induction Hb as [|b blanks Hb _ IH].
  - destruct rest as [|r rest]; [reflexivity|].
    cbn [app loop]. cbn [cur hd] in Hr.
    rewrite (white_body_other r Hr). reflexivity.
  - cbn [app loop]. rewrite (white_body_blank b Hb). exact IH.
Qed.

(** C9 as stated fails: on "  -5" the end pointer is not left at the
    start of the text.  It points at the minus sign, two characters
    further, whatever [strtoul] is: the consumed length is 2, not 0. *)
Lemma SafeStrtoul_consumed_counterexample :
  (forall strtoul : stream -> bool -> Z -> Z * option stream,
     SafeStrtoul strtoul (list_ascii_of_string "  -5") true 10 =
     (0, Some (list_ascii_of_string "-5"))) /\
  (List.length (list_ascii_of_string "  -5")
   - List.length (list_ascii_of_string "-5"))%nat = 2%nat /\
  list_ascii_of_string "-5" <> list_ascii_of_string "  -5".
Proof.
  split; [intros strtoul; reflexivity|].
  split; [reflexivity | discriminate].
Qed.

(** C9 (amended).  When the first character after leading spaces and tabs
    is a minus sign, [SafeStrtoul] returns 0 and sets the end pointer, if
    there is one, to that minus sign: no character of a number is
    consumed, but the skipped blanks are, so the consumed length is the
    number of leading blanks and is zero only when there is none.
    [strtoul] is not consulted.  In every other case the result is that
    of [strtoul], called at the first character that is not a space or a
    tab with the base of the caller. *)
Theorem SafeStrtoul_rejects_minus
  (strtoul : stream -> bool -> Z -> Z * option stream)
  (blanks rest : stream) (endptr : bool) (base : Z) :
  Forall is_blank blanks ->
  SafeStrtoul strtoul (blanks ++ "-"%char :: rest) endptr base =
  (0, if endptr then Some ("-"%char :: rest) else None) /\
  (forall p,
     snd (SafeStrtoul strtoul (blanks ++ "-"%char :: rest) endptr base) = Some p ->
     cur p = "-"%char /\
     (List.length (blanks ++ "-"%char :: rest) - List.length p)%nat = List.length blanks) /\
  (forall strtoul',
     SafeStrtoul strtoul' (blanks ++ "-"%char :: rest) endptr base =
     SafeStrtoul strtoul (blanks ++ "-"%char :: rest) endptr base) /\
  (~ is_blank (cur rest) -> cur rest <> "-"%char ->
   SafeStrtoul strtoul (blanks ++ rest) endptr base = strtoul rest endptr base).
Proof.
  intros Hb.
  assert (Hm : ~ is_blank (cur ("-"%char :: rest)))
    by (intros [H|H]; discriminate H).
  assert (E : forall f, SafeStrtoul f (blanks ++ "-"%char :: rest) endptr base =
                        (0, if endptr then Some ("-"%char :: rest) else None)).
  { intros f. unfold SafeStrtoul. rewrite (skip_blanks _ _ Hb Hm). reflexivity. }
  split; [apply E|]. split; [|split; [intros f; rewrite !E; reflexivity|]].
  - intros p. rewrite E. cbn [snd]. destruct endptr; [|discriminate].
    intros H. injection H as <-. split; [reflexivity|].
    rewrite List.length_app. lia.
  - intros Hr Hn. unfold SafeStrtoul. rewrite (skip_blanks _ _ Hb Hr).
    destruct (Ascii.eqb_spec (cur rest) "-"%char) as [X|_]; [contradiction | reflexivity].
Qed.

Lemma SafeStrtoul_rejects_minus_witness :
  SafeStrtoul (fun _ _ _ => (7, None)) (list_ascii_of_string "  -5") true 10
  = (0, Some (list_ascii_of_string "-5")).
Proof.
  destruct (SafeStrtoul_rejects_minus (fun _ _ _ => (7, None))
              (list_ascii_of_string "  ") (list_ascii_of_string "5") true 10)
    as [H _].
  - repeat constructor.
  - exact H.
Defined.

(** ** SafeStrtod with a fraction of zeros *)

(** A loop reads to the end a text of which it accepts every character. *)
Lemma loop_consumes {S : Type} (body : S -> ascii -> option S) (pre : stream) :
  Forall (fun c => forall st, body st c <> None) pre ->
  forall st, snd (loop body st pre) = [].
Proof.
  induction 1 as [|c pre Hc _ IH]; intros st; [reflexivity|].
  cbn [loop]. destruct (body st c) as [st'|] eqn:E; [apply IH|].
  exfalso. exact (Hc st E).
Qed.

Lemma loop_prefix {S : Type} (body : S -> ascii -> option S) (pre t : stream) (st : S) :
  Forall (fun c => forall st, body st c <> None) pre ->
  (forall st, body st (cur t) = None) ->
  loop body st (pre ++ t) = (fst (loop body st pre), t).
Proof.
  intros Hp Ht. rewrite (loop_app body t Ht), (loop_consumes body pre Hp).
  reflexivity.
Qed.

Section ZeroFraction.
Variable long_bits : Z.
Variable TimesPowerOf10 : spec_float -> Z -> spec_float.

(** Zero digits after the point leave [valueAfterPoint] at zero. *)
Lemma after_body_zero (fr : Fraction) (c : ascii) :
  c = "0"%char -> valueAfterPoint fr = 0 ->
  exists fr', after_body long_bits fr c = Some fr' /\ valueAfterPoint fr' = 0.
Proof.
  intros -> Hv. unfold after_body.
  change (isdigit "0") with true. change (digit_of "0") with 0. cbv iota.
  destruct (negb (fraction_overflowed fr)); [|exists fr; split; [reflexivity|exact Hv]].
  rewrite Hv.
  destruct (0 <=? (ULONG_MAX long_bits - 0) / 10).
  - eexists; split; [reflexivity|]. cbn [valueAfterPoint].
    unfold to_ulong. change (0 * 10) with 0.
    rewrite (Zmod_0_l (2 ^ long_bits)). cbn [Z.add]. apply Zmod_0_l.
  - eexists; split; [reflexivity|]. reflexivity.
Qed.

Lemma after_loop_zeros (zs : stream) :
  Forall (fun c => c = "0"%char) zs ->
  forall fr, valueAfterPoint fr = 0 ->
    valueAfterPoint (fst (loop (after_body long_bits) fr zs)) = 0 /\
    snd (loop (after_body long_bits) fr zs) = [].
Proof.
  induction 1 as [|c zs Hc _ IH]; intros fr Hv; [split; [exact Hv|reflexivity]|].
  cbn [loop].
  destruct (after_body_zero fr c Hc Hv) as [fr' [E Hv']].
  rewrite E. apply IH. exact Hv'.
Qed.

Lemma before_body_digit (c : ascii) :
  isdigit c = true -> forall v, before_body v c <> None.
Proof. intros H v. unfold before_body. rewrite H. discriminate. Qed.

Lemma before_body_other (c : ascii) :
  isdigit c = false -> forall v, before_body v c = None.
Proof. intros H v. unfold before_body. rewrite H. reflexivity. Qed.

Lemma after_body_other (c : ascii) :
  isdigit c = false -> forall fr, after_body long_bits fr c = None.
Proof. intros H fr. unfold after_body. rewrite H. reflexivity. Qed.

(** C10.  When the digits after the point amount to zero, the composite
    value is computed from the value before the point and the exponent
    alone, whatever the count of digits after the point.  Hence a number
    written with digits [d], a point and zeros only gives exactly the
    double, and the end pointer, of the number written with [d] alone,
    whatever follows: an exponent part, or any text that does not start
    with a digit or a point. *)
Theorem SafeStrtod_zero_fraction (d zs t : stream) :
  d <> [] ->
  Forall (fun c => isdigit c = true) d ->
  Forall (fun c => c = "0"%char) zs ->
  isdigit (cur t) = false ->
  (cur t =? ".")%char = false ->
  (forall v fr e,
     valueAfterPoint fr = 0 ->
     composite_value long_bits TimesPowerOf10 v fr e = TimesPowerOf10 v e) /\
  (forall sign,
     sign = [] \/ sign = ["+"%char] \/ sign = ["-"%char] ->
     SafeStrtod long_bits TimesPowerOf10 (sign ++ d ++ "."%char :: zs ++ t) =
     SafeStrtod long_bits TimesPowerOf10 (sign ++ d ++ t)).
Proof.
  intros Hne Hd Hz Ht Hp. split.
  - intros v fr e Hv. unfold composite_value. rewrite Hv. reflexivity.
  - intros sign Hs.
    assert (Hd' : Forall (fun c => forall v : spec_float, before_body v c <> None) d)
      by (eapply Forall_impl; [|exact Hd]; intros c Hc; exact (before_body_digit c Hc)).
    assert (Body : forall negative : bool,
      (let '(valueBeforePoint, s) :=
         loop before_body (S754_zero false) (d ++ "."%char :: zs ++ t) in
       let '(fr, s0) :=
         if (cur s =? ".")%char
         then loop (after_body long_bits) (mkFraction 0 0 false) (NextChar s)
         else (mkFraction 0 0 false, s) in
       let '(exponent, s1) := strtod_exponent long_bits s0 in
       let retvalue :=
         composite_value long_bits TimesPowerOf10 valueBeforePoint fr exponent in
       (if negative then SFopp retvalue else retvalue, s1))
      =
      (let '(valueBeforePoint, s) := loop before_body (S754_zero false) (d ++ t) in
       let '(fr, s0) :=
         if (cur s =? ".")%char
         then loop (after_body long_bits) (mkFraction 0 0 false) (NextChar s)
         else (mkFraction 0 0 false, s) in
       let '(exponent, s1) := strtod_exponent long_bits s0 in
       let retvalue :=
         composite_value long_bits TimesPowerOf10 valueBeforePoint fr exponent in
       (if negative then SFopp retvalue else retvalue, s1))).
    { intros negative.
      rewrite (loop_prefix before_body d ("."%char :: zs ++ t) _ Hd'
                 (before_body_other "."%char eq_refl)).
      rewrite (loop_prefix before_body d t _ Hd' (before_body_other _ Ht)).
      rewrite Hp. cbn [cur hd NextChar tl]. change ("." =? ".")%char with true.
      cbv iota.
      rewrite (loop_app (after_body long_bits) t (after_body_other _ Ht)).
      destruct (after_loop_zeros zs Hz (mkFraction 0 0 false) eq_refl) as [V0 S0].
      rewrite S0. cbn [app].
      destruct (strtod_exponent long_bits t) as [e s1].
      unfold composite_value. rewrite V0. reflexivity. }
    destruct d as [|c d'] eqn:Ed; [contradiction|].
    assert (Hc : isdigit c = true) by (inversion Hd; assumption).
    assert (Hw : forall u, white_body u c = None).
    { intros u. unfold white_body.
      destruct (Ascii.eqb_spec c " "%char) as [->|_]; [discriminate Hc|].
      destruct (Ascii.eqb_spec c TAB) as [->|_]; [discriminate Hc|]. reflexivity. }
    assert (Hnm : (c =? "-")%char = false)
      by (destruct (Ascii.eqb_spec c "-"%char) as [->|_]; [discriminate Hc|reflexivity]).
    assert (Hnp : (c =? "+")%char = false)
      by (destruct (Ascii.eqb_spec c "+"%char) as [->|_]; [discriminate Hc|reflexivity]).
    unfold SafeStrtod.
    destruct Hs as [-> | [-> | ->]]; cbn [app].
    + cbn [app loop]. rewrite !Hw.
      cbn [cur hd]. rewrite Hnm, Hnp. cbn [orb].
      exact (Body false).
    + cbn [loop]. change (white_body tt "+") with (@None unit).
      cbn [cur hd NextChar tl]. change ("+" =? "-")%char with false.
      change ("+" =? "+")%char with true. cbn [orb]. apply (Body false).
    + cbn [loop]. change (white_body tt "-") with (@None unit).
      cbn [cur hd NextChar tl]. change ("-" =? "-")%char with true.
      cbn [orb]. apply (Body true).
Qed.
End ZeroFraction.

(** "12.000e2" and "12e2" both give 1200. *)
Lemma SafeStrtod_zero_fraction_witness :
  SafeStrtod 32 TimesPowerOf10_model (list_ascii_of_string "12.000e2") =
  SafeStrtod 32 TimesPowerOf10_model (list_ascii_of_string "12e2") /\
  fst (SafeStrtod 32 TimesPowerOf10_model (list_ascii_of_string "12e2")) =
  double_of_Z 1200.
Proof.
  destruct (SafeStrtod_zero_fraction 32 TimesPowerOf10_model
              (list_ascii_of_string "12") (list_ascii_of_string "000")
              (list_ascii_of_string "e2")) as [_ H].
  - discriminate.
  - repeat constructor.
  - repeat constructor.
  - reflexivity.
  - reflexivity.
  - split; [exact (H [] (or_introl eq_refl))|].
    vm_compute. reflexivity.
Defined.

(** ** GetFloat *)

(** The table does not depend on the width of [long double]: going
    through the 64-bit significand of the x87 format or the 113-bit one of
    binary128 gives the entries that direct rounding to [double] gives. *)
Lemma inversePowersOfTen_long_double :
  inversePowersOfTen =
  map (fun k => double_via_long_double 64 16384 1 (10 ^ k))
      [1; 2; 3; 4; 5; 6; 7; 8; 9; 10; 11; 12] /\
  inversePowersOfTen =
  map (fun k => double_via_long_double 113 16384 1 (10 ^ k))
      [1; 2; 3; 4; 5; 6; 7; 8; 9; 10; 11; 12].
Proof. split; vm_compute; reflexivity. Qed.




(** * Further properties *)

(** ** Readings of decimal texts *)

Lemma reading_from_app (r : Reading) (p q : stream) :
  reading_from r (p ++ q) = reading_from (reading_from r p) q.
Proof. unfold reading_from. apply fold_left_app. Qed.

Lemma digit_value_range (c : ascii) : isdigit c = true -> 0 <= digit_value c <= 9.
Proof. intros H. apply isdigit_code in H. unfold digit_value. lia. Qed.

Lemma digit_of_value (c : ascii) : isdigit c = true -> digit_of c = digit_value c.
Proof. apply digit_of_exact. Qed.

Lemma point_not_digit (c : ascii) : c = "."%char -> isdigit c = false.
Proof. intros ->. reflexivity. Qed.

Lemma count_points_app (p q : stream) :
  count_points (p ++ q) = (count_points p + count_points q)%nat.
Proof. induction p as [|c p IH]; [reflexivity|]. cbn [app count_points]. lia. Qed.

Lemma count_points_digits (p : stream) :
  Forall (fun c => isdigit c = true) p -> count_points p = 0%nat.
Proof.
  induction 1 as [|c p Hc _ IH]; [reflexivity|].
  cbn [count_points]. rewrite IH.
  destruct (Ascii.eqb_spec c "."%char) as [->|_]; [discriminate Hc | reflexivity].
Qed.

(** A text of digits only. *)
Lemma reading_from_digits (p : stream) :
  Forall (fun c => isdigit c = true) p ->
  forall r,
    r_point (reading_from r p) = r_point r /\
    r_fraction (reading_from r p) =
    (if r_point r then r_fraction r + Z.of_nat (List.length p) else r_fraction r) /\
    r_digit (reading_from r p) = (r_digit r || negb (Nat.eqb (List.length p) 0))%bool.
Proof.
  induction 1 as [|c p Hc _ IH]; intros r.
  - cbn. rewrite orb_false_r. destruct (r_point r); repeat split; lia.
  - change (reading_from r (c :: p)) with (reading_from (read_char r c) p).
    destruct (IH (read_char r c)) as (P & F & D).
    unfold read_char in *. rewrite Hc in *.
    cbn [r_point r_fraction r_digit r_value] in *.
    rewrite P, F, D. cbn [List.length]. rewrite Nat2Z.inj_succ.
    destruct (r_point r); repeat split; try lia.
    all: rewrite orb_true_r; reflexivity.
Qed.

(** The value read never decreases along a text. *)
Lemma reading_from_monotone (s : stream) (r : Reading) :
  0 <= r_value r -> r_value r <= r_value (reading_from r s).
Proof.
  revert r. induction s as [|c s IH]; intros r H; [cbn; lia|].
  change (reading_from r (c :: s)) with (reading_from (read_char r c) s).
  assert (S1 : r_value r <= r_value (read_char r c)).
  { unfold read_char. destruct (isdigit c) eqn:Hc.
    - pose proof (digit_value_range c Hc). cbn [r_value]. lia.
    - destruct (c =? ".")%char; cbn [r_value]; lia. }
  specialize (IH (read_char r c) ltac:(lia)). lia.
Qed.

(** ** One step of the mantissa loops against the reading *)

Lemma scaled_value_at (o : NumericConverter) (n a b : Z) :
  twos o + n = a -> fives o + n = b -> scaled_value o n = lvalue o * 2 ^ a * 5 ^ b.
Proof. intros <- <-. reflexivity. Qed.

Lemma scaled_step (l a b : Z) :
  0 <= a -> 0 <= b ->
  l * 2 ^ (Z.succ a) * 5 ^ (Z.succ b) = 10 * (l * 2 ^ a * 5 ^ b).
Proof. intros Ha Hb. rewrite !Z.pow_succ_r by assumption. ring. Qed.

Lemma fold_digit_flags (o : NumericConverter) (d : Z) :
  hadDecimalPoint (fst (fold_digit o d)) = hadDecimalPoint o /\
  hadExponent (fst (fold_digit o d)) = hadExponent o /\
  isNegative (fst (fold_digit o d)) = isNegative o.
Proof.
  unfold fold_digit. destruct o as [l f t dp he ng].
  cbn [lvalue hadDecimalPoint set_lvalue].
  destruct (fits10 l d); [destruct dp; repeat split|].
  destruct (fits5 l _); [destruct dp; repeat split|].
  destruct (fits2 l _); destruct dp; repeat split.
Qed.

Lemma digits_body_flags (acceptReals : bool) (f f' : Frame) (c : ascii) :
  digits_body acceptReals f c = Some f' ->
  hadExponent (this f') = hadExponent (this f) /\
  isNegative (this f') = isNegative (this f).
Proof.
  unfold digits_body. intros E.
  destruct (isdigit c).
  - destruct (overflowed f).
    + injection E as <-. cbn [this]. destruct (negb _); split; reflexivity.
    + destruct (fold_digit_flags (this f) (digit_of c)) as (_ & H1 & H2).
      destruct (fold_digit (this f) (digit_of c)) as [o' ov].
      injection E as <-. split; assumption.
  - destruct ((c =? ".")%char && negb (hadDecimalPoint (this f)) && acceptReals);
      [|discriminate].
    injection E as <-. split; reflexivity.
Qed.

Lemma zeros_body_flags (acceptReals : bool) (f f' : Frame) (c : ascii) :
  zeros_body acceptReals f c = Some f' ->
  hadExponent (this f') = hadExponent (this f) /\
  isNegative (this f') = isNegative (this f) /\
  lvalue (this f') = lvalue (this f).
Proof.
  unfold zeros_body. intros E.
  destruct (c =? "0")%char.
  - injection E as <-. cbn [this]. destruct (hadDecimalPoint _); repeat split.
  - destruct ((c =? ".")%char && negb (hadDecimalPoint (this f)) && acceptReals);
      [|discriminate].
    injection E as <-. repeat split.
Qed.

Section MantissaStep.
Variable N : Z.
Hypothesis N_small : N <= INT32_MAX.
Variable acceptReals : bool.

(** A digit, against the reading. *)
Lemma tracks_digit (r : Reading) (f f' : Frame) (c : ascii) (s : stream) :
  scale_inv N f (c :: s) -> tracks r f -> isdigit c = true ->
  digits_body acceptReals f c = Some f' ->
  tracks (read_char r c) f'.
Proof.
  intros SI T Hc E.
  destruct SI as (R & Bt & Bf & _ & _).
  cbn [List.length] in Bt, Bf. rewrite Nat2Z.inj_succ in Bt, Bf.
  unfold INT32_MAX in N_small.
  assert (It : incr (twos (this f)) = twos (this f) + 1)
    by (apply incr_exact; unfold INT32_MIN, INT32_MAX; lia).
  assert (If : incr (fives (this f)) = fives (this f) + 1)
    by (apply incr_exact; unfold INT32_MIN, INT32_MAX; lia).
  assert (Dt : decr (twos (this f)) = twos (this f) - 1)
    by (apply decr_exact; unfold INT32_MIN, INT32_MAX; lia).
  assert (Df : decr (fives (this f)) = fives (this f) - 1)
    by (apply decr_exact; unfold INT32_MIN, INT32_MAX; lia).
  pose proof (digit_value_range c Hc) as Hd.
  destruct T as (Tp & Tg & Tv & Tn & Texact & Tover).
  unfold read_char. rewrite Hc.
  unfold digits_body in E. rewrite Hc in E.
  destruct (overflowed f) eqn:Hov.
  - (* overflow has begun *)
    injection E as <-.
    destruct (Tover eq_refl) as (E0 & HE0 & HV & Ha & Hb & Hab & Hdiff).
    unfold tracks.
    cbn [this hadDigit overflowed r_value r_point r_fraction r_digit].
    rewrite Tp. destruct (r_point r) eqn:Hp; cbn [negb].
    + assert (Sc : scaled_value (this f) (r_fraction r + 1)
                   = 10 * scaled_value (this f) (r_fraction r)).
      { unfold scaled_value.
        replace (twos (this f) + (r_fraction r + 1))
          with (Z.succ (twos (this f) + r_fraction r)) by lia.
        replace (fives (this f) + (r_fraction r + 1))
          with (Z.succ (fives (this f) + r_fraction r)) by lia.
        apply scaled_step; assumption. }
      split; [exact Tp|]. split; [reflexivity|].
      split; [lia|]. split; [lia|]. split; [discriminate|]. intros _.
      exists (10 * E0). rewrite Sc. repeat split; lia.
    + assert (Sc : scaled_value
                     (set_twos (incr (twos (this f)))
                        (set_fives (incr (fives (this f))) (this f)))
                     (r_fraction r)
                   = 10 * scaled_value (this f) (r_fraction r)).
      { unfold scaled_value. cbn [lvalue twos fives set_twos set_fives].
        rewrite It, If.
        replace (twos (this f) + 1 + r_fraction r)
          with (Z.succ (twos (this f) + r_fraction r)) by lia.
        replace (fives (this f) + 1 + r_fraction r)
          with (Z.succ (fives (this f) + r_fraction r)) by lia.
        apply scaled_step; assumption. }
      split; [exact Tp|]. split; [reflexivity|].
      split; [lia|]. split; [lia|]. split; [discriminate|]. intros _.
      exists (10 * E0). rewrite Sc.
      cbn [twos fives set_twos set_fives]. rewrite It, If.
      repeat split; lia.
  - (* overflow has not begun *)
    destruct (Texact eq_refl) as (Hl & Ht & Hf).
    rewrite (digit_of_value c Hc) in E.
    pose proof (Z.div_mod (digit_value c + 1) 2 ltac:(lia)) as Q5.
    pose proof (Z.mod_pos_bound (digit_value c + 1) 2 ltac:(lia)) as B5.
    pose proof (Z.div_mod (digit_value c + 4) 5 ltac:(lia)) as Q2.
    pose proof (Z.mod_pos_bound (digit_value c + 4) 5 ltac:(lia)) as B2.
    unfold UINT32_MAX in *.
    destruct (fold_digit_cases (this f) (digit_value c) R Hd) as
      [[B E']|[[N10 [B E']]|[[N10 [N5 [B E']]]|[N10 [N5 [N2 E']]]]]];
      rewrite E' in E; injection E as <-; unfold tracks;
      unfold UINT32_MAX in *;
      cbn [this hadDigit overflowed r_value r_point r_fraction r_digit
           hadDecimalPoint after_fold lvalue twos fives];
      rewrite ?It, ?If, ?Dt, ?Df, Tp;
      (split; [reflexivity|]); (split; [reflexivity|]);
      (split; [lia|]); (split; [destruct (r_point r); lia|]).
    + split; [|discriminate]. intros _.
      destruct (r_point r); repeat split; lia.
    + split; [discriminate|]. intros _. exists 1.
      destruct (r_point r).
      * rewrite (scaled_value_at _ _ 1 0) by (cbn [twos fives after_fold]; lia).
        cbn [lvalue after_fold twos fives]. change (2 ^ 1) with 2. change (5 ^ 0) with 1.
        repeat split; lia.
      * rewrite (scaled_value_at _ _ 1 0) by (cbn [twos fives after_fold]; lia).
        cbn [lvalue after_fold twos fives]. change (2 ^ 1) with 2. change (5 ^ 0) with 1.
        repeat split; lia.
    + split; [discriminate|]. intros _. exists 1.
      destruct (r_point r).
      * rewrite (scaled_value_at _ _ 0 1) by (cbn [twos fives after_fold]; lia).
        cbn [lvalue after_fold twos fives]. change (2 ^ 0) with 1. change (5 ^ 1) with 5.
        repeat split; lia.
      * rewrite (scaled_value_at _ _ 0 1) by (cbn [twos fives after_fold]; lia).
        cbn [lvalue after_fold twos fives]. change (2 ^ 0) with 1. change (5 ^ 1) with 5.
        repeat split; lia.
    + split; [discriminate|]. intros _. exists 1.
      destruct (r_point r).
      * rewrite (scaled_value_at _ _ 1 1) by (cbn [twos fives after_fold]; lia).
        cbn [lvalue after_fold twos fives]. change (2 ^ 1) with 2. change (5 ^ 1) with 5.
        repeat split; lia.
      * rewrite (scaled_value_at _ _ 1 1) by (cbn [twos fives after_fold]; lia).
        cbn [lvalue after_fold twos fives]. change (2 ^ 1) with 2. change (5 ^ 1) with 5.
        repeat split; lia.
Qed.
(** A decimal point, in either loop. *)
Lemma tracks_point (r : Reading) (f : Frame) :
  tracks r f ->
  tracks (read_char r ".")
         (mkFrame (set_hadDecimalPoint true (this f)) (hadDigit f) (overflowed f)).
Proof.
  intros (Tp & Tg & Tv & Tn & Texact & Tover).
  unfold tracks, read_char. change (isdigit ".") with false.
  change ("." =? ".")%char with true.
  cbn [this hadDigit overflowed r_value r_point r_fraction r_digit
       hadDecimalPoint set_hadDecimalPoint lvalue twos fives].
  repeat (split; [assumption || reflexivity|]).
  exact Tover.
Qed.

(** A leading zero. *)
Lemma tracks_zero (r : Reading) (f f' : Frame) (s : stream) :
  scale_inv N f ("0"%char :: s) -> tracks r f ->
  lvalue (this f) = 0 -> overflowed f = false ->
  zeros_body acceptReals f "0" = Some f' ->
  tracks (read_char r "0") f' /\ lvalue (this f') = 0 /\ overflowed f' = false.
Proof.
  intros SI T L0 Hov E.
  destruct SI as (R & Bt & Bf & _ & _).
  cbn [List.length] in Bt, Bf. rewrite Nat2Z.inj_succ in Bt, Bf.
  unfold INT32_MAX in N_small.
  assert (Dt : decr (twos (this f)) = twos (this f) - 1)
    by (apply decr_exact; unfold INT32_MIN, INT32_MAX; lia).
  assert (Df : decr (fives (this f)) = fives (this f) - 1)
    by (apply decr_exact; unfold INT32_MIN, INT32_MAX; lia).
  destruct T as (Tp & Tg & Tv & Tn & Texact & _).
  destruct (Texact Hov) as (Hl & Ht & Hf).
  unfold zeros_body in E. change ("0" =? "0")%char with true in E.
  cbv iota in E. injection E as <-.
  unfold tracks, read_char. change (isdigit "0") with true.
  change (digit_value "0") with 0.
  cbn [this hadDigit overflowed r_value r_point r_fraction r_digit].
  rewrite Hov, Tp.
  destruct (r_point r);
    cbn [hadDecimalPoint lvalue twos fives set_twos set_fives];
    rewrite ?Dt, ?Df; repeat split; try lia; try assumption; try discriminate.
Qed.

(** [digits_body] takes every character of a mantissa text. *)
Lemma reads_mantissa_digits (final : Reading) (neg : bool) (f : Frame) (c : ascii) (s : stream) :
  reads_mantissa N acceptReals final neg f (c :: s) ->
  exists f', digits_body acceptReals f c = Some f' /\
             reads_mantissa N acceptReals final neg f' s.
Proof.
  intros (SI & HE & HN & r & T & RF & Sh & Cp).
  inversion Sh as [|? ? Hc Sh']; subst.
  assert (Ex : exists f', digits_body acceptReals f c = Some f' /\
                          tracks (read_char r c) f' /\
                          (count_points s + (if r_point (read_char r c) then 1 else 0)
                           <= if acceptReals then 1 else 0)%nat).
  { destruct Hc as [Hc | ->].
    - assert (Np : (c =? ".")%char = false)
        by (destruct (Ascii.eqb_spec c "."%char) as [->|_];
            [discriminate Hc | reflexivity]).
      assert (Ef : exists f', digits_body acceptReals f c = Some f').
      { unfold digits_body. rewrite Hc. destruct (overflowed f); [eexists; reflexivity|].
        destruct (fold_digit (this f) (digit_of c)). eexists; reflexivity. }
      destruct Ef as [f' Ef]. exists f'. split; [exact Ef|].
      split; [exact (tracks_digit r f f' c s SI T Hc Ef)|].
      cbn [count_points] in Cp. rewrite Np in Cp.
      unfold read_char. rewrite Hc. cbn [r_point]. lia.
    - cbn [count_points] in Cp. change ("." =? ".")%char with true in Cp.
      assert (Pr : r_point r = false) by (destruct (r_point r), acceptReals; [lia..|reflexivity|reflexivity]).
      assert (Ar : acceptReals = true) by (destruct acceptReals; [reflexivity|lia]).
      destruct T as (Tp & T').
      exists (mkFrame (set_hadDecimalPoint true (this f)) (hadDigit f) (overflowed f)).
      split.
      { unfold digits_body. change (isdigit ".") with false.
        change ("." =? ".")%char with true. rewrite Tp, Pr, Ar. reflexivity. }
      split; [apply tracks_point; split; assumption|].
      unfold read_char. change (isdigit ".") with false.
      change ("." =? ".")%char with true. cbn [r_point].
      rewrite Pr in Cp. lia. }
  destruct Ex as (f' & Ef & T' & Cp').
  exists f'. split; [exact Ef|].
  split; [exact (scale_inv_digits N N_small acceptReals f c s f' SI Ef)|].
  destruct (digits_body_flags _ _ _ _ Ef) as [F1 F2].
  split; [congruence|]. split; [congruence|].
  exists (read_char r c).
  split; [exact T'|]. split; [reflexivity|]. split; assumption.
Qed.

(** [zeros_body] keeps the invariant for as long as it goes on. *)
Lemma reads_mantissa_zeros (final : Reading) (neg : bool) (f f' : Frame) (c : ascii) (s : stream) :
  reads_mantissa N acceptReals final neg f (c :: s) /\
  lvalue (this f) = 0 /\ overflowed f = false ->
  zeros_body acceptReals f c = Some f' ->
  reads_mantissa N acceptReals final neg f' s /\
  lvalue (this f') = 0 /\ overflowed f' = false.
Proof.
  intros ((SI & HE & HN & r & T & RF & Sh & Cp) & L0 & Hov) E.
  inversion Sh as [|? ? Hc Sh']; subst.
  destruct (zeros_body_flags _ _ _ _ E) as (F1 & F2 & F3).
  pose proof (scale_inv_zeros N N_small acceptReals f c s f' SI E) as SI'.
  assert (Ex : tracks (read_char r c) f' /\ overflowed f' = false /\
               (count_points s + (if r_point (read_char r c) then 1 else 0)
                <= if acceptReals then 1 else 0)%nat).
  { destruct (Ascii.eqb_spec c "0"%char) as [->|Nz].
    - destruct (tracks_zero r f f' s SI T L0 Hov E) as (T' & _ & Ov').
      split; [exact T'|]. split; [exact Ov'|].
      simpl count_points in Cp.
      unfold read_char. change (isdigit "0") with true. cbn [r_point]. lia.
    - unfold zeros_body in E.
      destruct (Ascii.eqb_spec c "0"%char) as [X|_]; [contradiction|].
      destruct (Ascii.eqb_spec c "."%char) as [->|Np]; [|discriminate E].
      cbn [andb] in E.
      destruct (negb (hadDecimalPoint (this f)) && acceptReals)%bool eqn:G;
        [|discriminate E].
      injection E as <-.
      split; [apply tracks_point; exact T|]. split; [exact Hov|].
      cbn [count_points] in Cp. change ("." =? ".")%char with true in Cp.
      unfold read_char. change (isdigit ".") with false.
      change ("." =? ".")%char with true. cbn [r_point].
      destruct (r_point r), acceptReals; lia. }
  destruct Ex as (T' & Ov' & Cp').
  split; [|split; [congruence | exact Ov']].
  split; [exact SI'|]. split; [congruence|]. split; [congruence|].
  exists (read_char r c).
  split; [exact T'|]. split; [reflexivity|]. split; assumption.
Qed.
End MantissaStep.

(** ** The mantissa loops on a mantissa text *)

(** A loop that takes every character under its invariant reads the text
    to its end. *)
Lemma loop_exhausts {S : Type} (body : S -> ascii -> option S) (I : S -> stream -> Prop) :
  (forall st c s, I st (c :: s) -> exists st', body st c = Some st' /\ I st' s) ->
  forall s st, I st s ->
    snd (loop body st s) = [] /\ I (fst (loop body st s)) [].
Proof.
  intros Hstep. induction s as [|c s IH]; intros st Hst.
  - split; [reflexivity | exact Hst].
  - cbn [loop]. destruct (Hstep st c s Hst) as (st' & E & Hst').
    rewrite E. apply IH. exact Hst'.
Qed.

Lemma existsb_isdigit_reading (m : stream) (r : Reading) :
  r_digit (reading_from r m) = (r_digit r || existsb isdigit m)%bool.
Proof.
  revert r. induction m as [|c m IH]; intros r.
  - cbn. rewrite orb_false_r. reflexivity.
  - change (reading_from r (c :: m)) with (reading_from (read_char r c) m).
    rewrite IH. cbn [existsb]. unfold read_char.
    destruct (isdigit c); cbn [r_digit orb].
    + rewrite orb_true_r. reflexivity.
    + destruct (c =? ".")%char; reflexivity.
Qed.

(** The two mantissa loops read a mantissa text to its end and leave a
    frame that agrees with the reading of the whole text. *)
Lemma mantissa_loops (acceptReals neg : bool) (m : stream) :
  mantissa_text acceptReals m ->
  Z.of_nat (List.length m) <= INT32_MAX ->
  let f0 := mkFrame (set_isNegative neg reset) false false in
  let f := fst (loop (zeros_body acceptReals) f0 m) in
  let s1 := snd (loop (zeros_body acceptReals) f0 m) in
  let f1 := mkFrame (this f) (hadDigit f) false in
  let g := fst (loop (digits_body acceptReals) f1 s1) in
  snd (loop (digits_body acceptReals) f1 s1) = [] /\
  mantissa_in_range (this g) /\
  hadExponent (this g) = false /\ isNegative (this g) = neg /\
  tracks (reading m) g.
Proof.
  intros [Sh Cp] HN f0 f s1 f1 g.
  set (N := Z.of_nat (List.length m)) in *.
  assert (I0 : reads_mantissa N acceptReals (reading m) neg f0 m).
  { split.
    - unfold scale_inv, mantissa_in_range, UINT32_MAX. subst N f0.
      cbn [this overflowed lvalue twos fives reset set_isNegative].
      repeat split; lia.
    - split; [reflexivity|]. split; [reflexivity|].
      exists (mkReading 0 false 0 false).
      split; [|split; [reflexivity|split; [exact Sh|cbn [r_point]; lia]]].
      unfold tracks. subst f0.
      cbn [this hadDigit overflowed lvalue twos fives hadDecimalPoint reset
           set_isNegative r_value r_point r_fraction r_digit].
      repeat split; try lia; discriminate. }
  destruct (loop_invariant (zeros_body acceptReals)
              (fun f s => reads_mantissa N acceptReals (reading m) neg f s /\
                          lvalue (this f) = 0 /\ overflowed f = false))
    with (s := m) (st := f0) as [_ Z].
  { intros a c s a' Ha E. exact (reads_mantissa_zeros N HN acceptReals _ _ a a' c s Ha E). }
  { split; [exact I0|]. split; reflexivity. }
  fold f s1 in Z. destruct Z as (I1 & L1 & Ov1).
  assert (Ef : f1 = f) by (subst f1; destruct f; cbn in *; subst; reflexivity).
  subst g. rewrite Ef. clear Ef.
  destruct (loop_exhausts (digits_body acceptReals)
              (reads_mantissa N acceptReals (reading m) neg)
              (fun a c s Ha => reads_mantissa_digits N HN acceptReals _ _ a c s Ha)
              s1 f I1) as [S2 I2].
  split; [exact S2|].
  destruct I2 as (SI & HE & HNg & r & T & RF & _ & _).
  cbn in RF. subst r.
  split; [exact (proj1 SI)|]. split; [exact HE|]. split; [exact HNg|]. exact T.
Qed.

Lemma sign_text_head (acceptNegative : bool) (sign : stream) (neg : bool)
  (c : ascii) (rest : stream) :
  sign_text acceptNegative sign neg ->
  isdigit c = true \/ c = "."%char ->
  loop white_body tt (sign ++ c :: rest) = (tt, sign ++ c :: rest) /\
  check_sign acceptNegative reset (sign ++ c :: rest) =
  Some (set_isNegative neg reset, c :: rest).
Proof.
  intros Hs Hc.
  assert (Wc : white_body tt c = None).
  { unfold white_body.
    destruct (Ascii.eqb_spec c " "%char) as [->|_];
      [destruct Hc as [Hc|Hc]; discriminate Hc|].
    destruct (Ascii.eqb_spec c TAB) as [->|_];
      [destruct Hc as [Hc|Hc]; discriminate Hc|]. reflexivity. }
  assert (Pc : (c =? "+")%char = false).
  { destruct (Ascii.eqb_spec c "+"%char) as [->|_];
      [destruct Hc as [Hc|Hc]; discriminate Hc | reflexivity]. }
  assert (Mc : (c =? "-")%char = false).
  { destruct (Ascii.eqb_spec c "-"%char) as [->|_];
      [destruct Hc as [Hc|Hc]; discriminate Hc | reflexivity]. }
  destruct Hs as [[-> ->] | [[-> ->] | (-> & -> & ->)]]; cbn [app loop].
  - rewrite Wc. split; [reflexivity|].
    unfold check_sign. cbn [cur hd]. rewrite Pc, Mc. reflexivity.
  - split; reflexivity.
  - split; reflexivity.
Qed.

Lemma ends_number_zeros (acceptReals : bool) (ch : ascii) (f : Frame) :
  ends_number acceptReals ch = true -> zeros_body acceptReals f ch = None.
Proof.
  unfold ends_number, zeros_body. intros H.
  destruct (ch =? "0")%char eqn:Z.
  - rewrite (isdigit_zero ch Z) in H. discriminate.
  - destruct (ch =? ".")%char; destruct acceptReals;
      rewrite ?andb_false_r; try reflexivity.
    rewrite andb_false_r in H. discriminate.
Qed.

Lemma ends_number_digits (acceptReals : bool) (ch : ascii) (f : Frame) :
  ends_number acceptReals ch = true -> digits_body acceptReals f ch = None.
Proof.
  unfold ends_number, digits_body. intros H.
  destruct (isdigit ch); [discriminate|].
  destruct (ch =? ".")%char; destruct acceptReals;
    rewrite ?andb_false_r; try reflexivity.
  discriminate.
Qed.

(** The mantissa part of [Accumulate] on a sign, a mantissa text and what
    follows it. *)
Lemma read_mantissa_literal
  (acceptNegative acceptReals : bool) (sign m t : stream) (neg : bool) :
  sign_text acceptNegative sign neg ->
  mantissa_text acceptReals m ->
  existsb isdigit m = true ->
  Z.of_nat (List.length m) <= INT32_MAX ->
  ends_number acceptReals (cur t) = true ->
  exists g,
    read_mantissa acceptNegative acceptReals (sign ++ m ++ t) = (Some g, t) /\
    hadDigit g = true /\ mantissa_in_range (this g) /\
    hadExponent (this g) = false /\ isNegative (this g) = neg /\
    tracks (reading m) g.
Proof.
  intros Hs Hm Hd HN Ht.
  pose proof (mantissa_loops acceptReals neg m Hm HN) as ML. cbv zeta in ML.
  unfold read_mantissa.
  destruct m as [|c m'] eqn:Em; [discriminate Hd|].
  assert (Hc : isdigit c = true \/ c = "."%char)
    by (destruct Hm as [Hm _]; inversion Hm; assumption).
  rewrite <- app_comm_cons.
  destruct (sign_text_head _ _ _ c (m' ++ t) Hs Hc) as [W C].
  rewrite W, C. rewrite app_comm_cons.
  rewrite (loop_app (zeros_body acceptReals) t)
    by (intros f; apply (ends_number_zeros _ _ _ Ht)).
  destruct (loop (zeros_body acceptReals)
              (mkFrame (set_isNegative neg reset) false false) (c :: m')) as [f s1].
  cbn [fst snd] in *.
  rewrite (loop_app (digits_body acceptReals) t)
    by (intros f'; apply (ends_number_digits _ _ _ Ht)).
  destruct (loop (digits_body acceptReals) (mkFrame (this f) (hadDigit f) false) s1)
    as [g s2].
  cbn [fst snd] in *. destruct ML as (S2 & R & HE & HNg & T). subst s2.
  exists g. split; [reflexivity|].
  split; [|split; [exact R|split; [exact HE|split; [exact HNg|exact T]]]].
  destruct T as (_ & Tg & _). rewrite Tg.
  unfold reading. rewrite existsb_isdigit_reading. exact Hd.
Qed.

Lemma tracks_represents (r : Reading) (g : Frame) :
  tracks r g -> mantissa_in_range (this g) -> represents r (this g).
Proof.
  intros (_ & _ & Tv & Tn & Texact & Tover) R.
  unfold represents, mantissa_in_range, UINT32_MAX in *.
  destruct (overflowed g).
  - destruct (Tover eq_refl) as (E & HE & HV & Ha & Hb & Hab & Hd).
    repeat split; try lia.
  - destruct (Texact eq_refl) as (Hl & Ht & Hf).
    assert (S0 : scaled_value (this g) (r_fraction r) = r_value r).
    { rewrite (scaled_value_at _ _ 0 0) by lia. rewrite Hl.
      change (2 ^ 0) with 1. change (5 ^ 0) with 1. lia. }
    rewrite S0. repeat split; try lia.
Qed.

(** [Accumulate] on a sign, a mantissa text and what follows it, when
    that is not an exponent part. *)
Lemma Accumulate_literal
  (acceptNegative acceptReals : bool) (sign m t : stream) (neg : bool) :
  sign_text acceptNegative sign neg ->
  mantissa_text acceptReals m ->
  existsb isdigit m = true ->
  Z.of_nat (List.length m) <= INT32_MAX ->
  ends_number acceptReals (cur t) = true ->
  (acceptReals && (toupper (cur t) =? "E")%char)%bool = false ->
  exists o,
    Accumulate_text acceptNegative acceptReals (sign ++ m ++ t) = (true, o, t) /\
    hadDecimalPoint o = r_point (reading m) /\
    hadExponent o = false /\ isNegative o = neg /\
    mantissa_in_range o /\ represents (reading m) o.
Proof.
  intros Hs Hm Hd HN Ht HE.
  destruct (read_mantissa_literal _ _ _ _ _ _ Hs Hm Hd HN Ht)
    as (g & Rm & Dg & R & He & Hn & T).
  exists (this g).
  assert (Hne : sign ++ m ++ t <> []).
  { destruct m; [discriminate Hd|]. destruct sign; discriminate. }
  destruct (sign ++ m ++ t) as [|c src] eqn:Es; [contradiction|].
  unfold Accumulate_text. cbn [cur hd NextChar tl].
  rewrite Accumulate_unfold, Rm, Dg. cbn [negb]. rewrite HE.
  split; [reflexivity|].
  split; [exact (proj1 T)|]. split; [exact He|]. split; [exact Hn|].
  split; [exact R|]. apply tracks_represents; assumption.
Qed.

(** The value read does not depend on the point. *)
Lemma reading_value_indep (p : stream) (r r' : Reading) :
  r_value r = r_value r' ->
  r_value (reading_from r p) = r_value (reading_from r' p).
Proof.
  revert r r'. induction p as [|c p IH]; intros r r' H; [exact H|].
  change (reading_from r (c :: p)) with (reading_from (read_char r c) p).
  change (reading_from r' (c :: p)) with (reading_from (read_char r' c) p).
  apply IH. unfold read_char.
  destruct (isdigit c); [cbn [r_value]; rewrite H; reflexivity|].
  destruct (c =? ".")%char; cbn [r_value]; exact H.
Qed.

(** Digits [a], a point and digits [b] read as the integer that [a ++ b]
    spells, with as many fraction digits as [b] has. *)
Lemma reading_with_point (a b : stream) :
  Forall (fun c => isdigit c = true) a ->
  Forall (fun c => isdigit c = true) b ->
  r_value (reading (a ++ "."%char :: b)) = decimal_value (a ++ b) /\
  r_point (reading (a ++ "."%char :: b)) = true /\
  r_fraction (reading (a ++ "."%char :: b)) = Z.of_nat (List.length b).
Proof.
  intros Ha Hb. unfold decimal_value, reading.
  rewrite !reading_from_app.
  change (reading_from ?r ("."%char :: b)) with (reading_from (read_char r ".") b).
  destruct (reading_from_digits a Ha (mkReading 0 false 0 false)) as (Pa & Fa & _).
  cbn [r_point r_fraction] in Pa, Fa.
  set (ra := reading_from (mkReading 0 false 0 false) a) in *.
  destruct (reading_from_digits b Hb (read_char ra ".")) as (Pb & Fb & _).
  unfold read_char in Pb, Fb |- *. change (isdigit ".") with false in *.
  change ("." =? ".")%char with true in *. cbn [r_point r_fraction] in Pb, Fb.
  split; [apply reading_value_indep; reflexivity|].
  split; [exact Pb|]. rewrite Fb, Fa. lia.
Qed.

(** A text of digits reads as an integer. *)
Lemma reading_digits (a : stream) :
  Forall (fun c => isdigit c = true) a ->
  r_point (reading a) = false /\ r_fraction (reading a) = 0.
Proof.
  intros Ha.
  destruct (reading_from_digits a Ha (mkReading 0 false 0 false)) as (Pa & Fa & _).
  split; [exact Pa | exact Fa].
Qed.

Lemma mantissa_text_digits (acceptReals : bool) (a : stream) :
  Forall (fun c => isdigit c = true) a -> mantissa_text acceptReals a.
Proof.
  intros Ha. split.
  - eapply Forall_impl; [|exact Ha]. intros c Hc. left. exact Hc.
  - rewrite (count_points_digits a Ha). lia.
Qed.

Lemma mantissa_text_point (a b : stream) :
  Forall (fun c => isdigit c = true) a ->
  Forall (fun c => isdigit c = true) b ->
  mantissa_text true (a ++ "."%char :: b).
Proof.
  intros Ha Hb. split.
  - apply Forall_app. split.
    + eapply Forall_impl; [|exact Ha]. intros c Hc. left. exact Hc.
    + constructor; [right; reflexivity|].
      eapply Forall_impl; [|exact Hb]. intros c Hc. left. exact Hc.
  - rewrite count_points_app. cbn [count_points].
    change ("." =? ".")%char with true.
    rewrite (count_points_digits a Ha), (count_points_digits b Hb). lia.
Qed.

Lemma existsb_isdigit_digits (a : stream) :
  Forall (fun c => isdigit c = true) a -> a <> [] -> existsb isdigit a = true.
Proof.
  intros Ha Hne. destruct a as [|c a]; [contradiction|].
  cbn [existsb]. inversion Ha as [|? ? Hc _]; subst. rewrite Hc. reflexivity.
Qed.

(** ** Literals that fit the mantissa *)

(** X1.  A number written as digits, a decimal point and digits, the
    digits spelling a value within the unsigned 32-bit range, is read
    exactly: [Accumulate] returns true, stops at the character after the
    number, the mantissa is the integer that all the digits spell, both
    scale exponents are minus the number of digits after the point, and
    [GetDigitsAfterPoint] is that number of digits. *)
Theorem decimal_literal_exact
  (acceptNegative : bool) (sign a b t : stream) (neg : bool) :
  sign_text acceptNegative sign neg ->
  Forall (fun c => isdigit c = true) a ->
  Forall (fun c => isdigit c = true) b ->
  a ++ b <> [] ->
  Z.of_nat (List.length (a ++ "."%char :: b)) <= INT32_MAX ->
  decimal_value (a ++ b) <= UINT32_MAX ->
  ends_number true (cur t) = true ->
  (toupper (cur t) =? "E")%char = false ->
  Accumulate_text acceptNegative true (sign ++ (a ++ "."%char :: b) ++ t) =
  (true,
   mkNC (decimal_value (a ++ b))
        (- Z.of_nat (List.length b)) (- Z.of_nat (List.length b))
        true false neg,
   t) /\
  GetDigitsAfterPoint
    (result_obj (Accumulate_text acceptNegative true
                   (sign ++ (a ++ "."%char :: b) ++ t))) =
  Z.of_nat (List.length b).
Proof.
  intros Hs Ha Hb Hne HN HV Ht HE.
  assert (Hd : existsb isdigit (a ++ "."%char :: b) = true).
  { rewrite existsb_app. cbn [existsb]. change (isdigit ".") with false. cbn [orb].
    destruct a as [|c a].
    - destruct b as [|c b]; [contradiction|].
      inversion Hb as [|? ? Hc _]; subst. cbn. rewrite Hc. reflexivity.
    - inversion Ha as [|? ? Hc _]; subst. cbn. rewrite Hc. reflexivity. }
  destruct (Accumulate_literal acceptNegative true sign (a ++ "."%char :: b) t neg
              Hs (mantissa_text_point a b Ha Hb) Hd HN Ht)
    as (o & Eo & Hp & He & Hn & R & Rep).
  { cbn [andb]. exact HE. }
  destruct (reading_with_point a b Ha Hb) as (Rv & Rp & Rf).
  destruct Rep as (_ & _ & _ & Ex & _). rewrite Rv, Rf in Ex.
  destruct (Ex HV) as (Hl & Htw & Hfv).
  assert (Eq : o = mkNC (decimal_value (a ++ b))
                        (- Z.of_nat (List.length b)) (- Z.of_nat (List.length b))
                        true false neg).
  { destruct o as [l f tw dp he ng]. cbn in *. congruence. }
  rewrite Eo. subst o. split; [reflexivity|].
  unfold result_obj, GetDigitsAfterPoint. cbn [fst snd fives twos].
  rewrite Z.ltb_irrefl.
  assert (Lb : Z.of_nat (List.length b) <= INT32_MAX).
  { rewrite length_app in HN. cbn [List.length] in HN. lia. }
  destruct (Z.ltb_spec (- Z.of_nat (List.length b)) 0) as [L|L]; [|lia].
  rewrite to_int32_to_uint32_neg by (unfold INT32_MIN, INT32_MAX in *; lia). lia.
Qed.

(** "-12.50" is read as -1250 / 10^2. *)
Lemma decimal_literal_exact_witness :
  Accumulate_text true true (list_ascii_of_string "-12.50 ") =
  (true, mkNC 1250 (-2) (-2) true false true, [" "%char]).
Proof.
  destruct (decimal_literal_exact true ["-"%char] (list_ascii_of_string "12")
              (list_ascii_of_string "50") [" "%char] true) as [H _].
  - right. right. repeat split.
  - repeat constructor.
  - repeat constructor.
  - discriminate.
  - vm_compute. discriminate.
  - vm_compute. discriminate.
  - reflexivity.
  - reflexivity.
  - exact H.
Defined.

(** X2.  Whatever the number of digits of a mantissa, the object that
    [Accumulate] returns stands for a number within a relative error of
    10 / 2^32 of the number written.  With [V] the integer that the digits
    spell and [n] the number of digits after the point, the number written
    is [V / 10^n]; the object stands for [lvalue * 2^twos * 5^fives],
    which is [scaled_value o n / 10^n], and [2^32 * |scaled_value o n - V|]
    is at most [10 * V].  The digits are folded into the exponents (one of
    them exceeds [- n]) exactly when [V] exceeds the unsigned 32-bit
    range. *)
Theorem literal_accuracy
  (acceptNegative acceptReals : bool) (sign m t : stream) (neg : bool) :
  sign_text acceptNegative sign neg ->
  mantissa_text acceptReals m ->
  existsb isdigit m = true ->
  Z.of_nat (List.length m) <= INT32_MAX ->
  ends_number acceptReals (cur t) = true ->
  (acceptReals && (toupper (cur t) =? "E")%char)%bool = false ->
  exists o,
    Accumulate_text acceptNegative acceptReals (sign ++ m ++ t) = (true, o, t) /\
    isNegative o = neg /\
    let V := decimal_value m in
    let n := fraction_digits m in
    0 <= twos o + n /\ 0 <= fives o + n /\
    4294967296 * Z.abs (scaled_value o n - V) <= 10 * V /\
    (V <= UINT32_MAX <-> twos o = - n /\ fives o = - n) /\
    (V <= UINT32_MAX -> lvalue o = V).
Proof.
  intros Hs Hm Hd HN Ht HE.
  destruct (Accumulate_literal _ _ _ _ _ _ Hs Hm Hd HN Ht HE)
    as (o & Eo & _ & _ & Hn & _ & Rep).
  exists o. split; [exact Eo|]. split; [exact Hn|].
  unfold represents in Rep. unfold decimal_value, fraction_digits. cbv zeta.
  destruct Rep as (A & B & C & Ex & Ov).
  repeat split; try assumption.
  - apply Ex; assumption.
  - apply Ex; assumption.
  - intros [Htw Hfv].
    destruct (Z_le_gt_dec (r_value (reading m)) UINT32_MAX) as [L|G]; [exact L|].
    assert (G' : UINT32_MAX < r_value (reading m)) by lia.
    specialize (Ov G'). lia.
  - intros L. apply Ex. exact L.
Qed.

(** "99999999999999999999.99" is read as 2000000000 * 2^10 * 5^11, which
    is 10^20. *)
Lemma literal_accuracy_witness :
  exists o,
    Accumulate_text true true (list_ascii_of_string "99999999999999999999.99") =
    (true, o, []) /\
    4294967296 *
    Z.abs (scaled_value o 2 - decimal_value (list_ascii_of_string "99999999999999999999.99"))
    <= 10 * decimal_value (list_ascii_of_string "99999999999999999999.99").
Proof.
  destruct (literal_accuracy true true [] (list_ascii_of_string "99999999999999999999.99")
              [] false) as (o & Eo & _ & H).
  - left. split; reflexivity.
  - split; [|vm_compute; lia].
    repeat (apply Forall_cons; [first [left; reflexivity | right; reflexivity]|]).
    apply Forall_nil.
  - reflexivity.
  - vm_compute. discriminate.
  - reflexivity.
  - reflexivity.
  - exists o. rewrite app_nil_r in Eo. split; [exact Eo|].
    destruct H as (_ & _ & H & _). exact H.
Defined.

(** ** Integer literals *)

(** [Accumulate] on a sign and digits: the facts the two integer
    properties share. *)
Lemma integer_literal
  (acceptNegative acceptReals : bool) (sign a t : stream) (neg : bool) :
  sign_text acceptNegative sign neg ->
  Forall (fun c => isdigit c = true) a -> a <> [] ->
  Z.of_nat (List.length a) <= INT32_MAX ->
  ends_number acceptReals (cur t) = true ->
  (acceptReals && (toupper (cur t) =? "E")%char)%bool = false ->
  exists o,
    Accumulate_text acceptNegative acceptReals (sign ++ a ++ t) = (true, o, t) /\
    hadDecimalPoint o = false /\ hadExponent o = false /\ isNegative o = neg /\
    0 <= lvalue o <= UINT32_MAX /\ 0 <= decimal_value a /\
    (decimal_value a <= UINT32_MAX ->
     lvalue o = decimal_value a /\ twos o = 0 /\ fives o = 0) /\
    (UINT32_MAX < decimal_value a -> 1 <= twos o + fives o).
Proof.
  intros Hs Ha Hne HN Ht HE.
  destruct (Accumulate_literal acceptNegative acceptReals sign a t neg Hs
              (mantissa_text_digits acceptReals a Ha)
              (existsb_isdigit_digits a Ha Hne) HN Ht HE)
    as (o & Eo & Hp & He & Hn & R & Rep).
  destruct (reading_digits a Ha) as [Rp Rf].
  exists o. split; [exact Eo|].
  rewrite Rp in Hp. unfold represents in Rep. rewrite Rf in Rep.
  fold (decimal_value a) in Rep. cbv zeta in Rep.
  destruct Rep as (A & B & C & Ex & Ov).
  split; [exact Hp|]. split; [exact He|]. split; [exact Hn|].
  split; [exact R|]. split.
  { pose proof (reading_from_monotone a (mkReading 0 false 0 false)) as M.
    cbn [r_value] in M. unfold decimal_value, reading. lia. }
  split.
  - intros H. destruct (Ex H) as (X1 & X2 & X3). repeat split; lia.
  - intros H. specialize (Ov H). lia.
Qed.

(** X3.  After an unsigned or signed integer literal, [FitsInUint32]
    holds exactly when the digits spell a value within the unsigned 32-bit
    range and the number is not negative or is zero, and [GetUint32] then
    returns that value.  A literal with more digits than fit is never
    taken for a small number. *)
Theorem unsigned_literal
  (acceptNegative acceptReals : bool) (sign a t : stream) (neg : bool) :
  sign_text acceptNegative sign neg ->
  Forall (fun c => isdigit c = true) a -> a <> [] ->
  Z.of_nat (List.length a) <= INT32_MAX ->
  ends_number acceptReals (cur t) = true ->
  (acceptReals && (toupper (cur t) =? "E")%char)%bool = false ->
  exists o,
    Accumulate_text acceptNegative acceptReals (sign ++ a ++ t) = (true, o, t) /\
    (FitsInUint32 o = true <->
     decimal_value a <= UINT32_MAX /\ (neg = false \/ decimal_value a = 0)) /\
    (FitsInUint32 o = true -> GetUint32 o = decimal_value a).
Proof.
  intros Hs Ha Hne HN Ht HE.
  destruct (integer_literal _ _ _ _ _ _ Hs Ha Hne HN Ht HE)
    as (o & Eo & Hp & He & Hn & R & V0 & Ex & Ov).
  exists o. split; [exact Eo|].
  assert (F : FitsInUint32 o = true <->
              decimal_value a <= UINT32_MAX /\ (neg = false \/ decimal_value a = 0)).
  { unfold FitsInUint32. rewrite Hp, He, Hn. cbn [negb andb].
    rewrite !andb_true_iff, orb_true_iff, negb_true_iff, !Z.eqb_eq, Z.leb_le.
    split.
    - intros [[[Hz Tw] Fv] _].
      destruct (Z_le_gt_dec (decimal_value a) UINT32_MAX) as [L|G].
      + destruct (Ex L) as (El & _). split; [exact L|].
        destruct Hz as [Hz|Hz]; [left; exact Hz | right; lia].
      + assert (G' : UINT32_MAX < decimal_value a) by lia.
        specialize (Ov G'). lia.
    - intros [L Hz]. destruct (Ex L) as (El & Tw & Fv).
      repeat split; try assumption; try lia.
      destruct Hz as [Hz|Hz]; [left; exact Hz | right; lia]. }
  split; [exact F|].
  intros Hf. apply F in Hf. destruct Hf as [L _].
  unfold GetUint32. apply Ex. exact L.
Qed.

(** "4294967295" fits and "-0" fits. *)
Lemma unsigned_literal_witness :
  exists o,
    Accumulate_text true false (list_ascii_of_string "-0,") = (true, o, [","%char]) /\
    FitsInUint32 o = true /\ GetUint32 o = 0.
Proof.
  destruct (unsigned_literal true false ["-"%char] ["0"%char] [","%char] true)
    as (o & Eo & F & G).
  - right. right. repeat split.
  - repeat constructor.
  - discriminate.
  - vm_compute. discriminate.
  - reflexivity.
  - reflexivity.
  - exists o. split; [exact Eo|].
    assert (Hf : FitsInUint32 o = true).
    { apply F. split; [vm_compute; discriminate | right; reflexivity]. }
    split; [exact Hf | exact (G Hf)].
Defined.

(** X4.  After an integer literal, [FitsInInt32] holds exactly when the
    digits spell a value of at most 2^31 - 1, whatever the sign, and
    [GetInt32] then returns that value, negated after a minus sign.  The
    most negative 32-bit integer is never accepted. *)
Theorem signed_literal
  (acceptNegative acceptReals : bool) (sign a t : stream) (neg : bool) :
  sign_text acceptNegative sign neg ->
  Forall (fun c => isdigit c = true) a -> a <> [] ->
  Z.of_nat (List.length a) <= INT32_MAX ->
  ends_number acceptReals (cur t) = true ->
  (acceptReals && (toupper (cur t) =? "E")%char)%bool = false ->
  exists o,
    Accumulate_text acceptNegative acceptReals (sign ++ a ++ t) = (true, o, t) /\
    (FitsInInt32 o = true <-> decimal_value a <= INT32_MAX) /\
    (FitsInInt32 o = true ->
     GetInt32 o = (if neg then - decimal_value a else decimal_value a) /\
     INT32_MIN < GetInt32 o).
Proof.
  intros Hs Ha Hne HN Ht HE.
  destruct (integer_literal _ _ _ _ _ _ Hs Ha Hne HN Ht HE)
    as (o & Eo & Hp & He & Hn & R & V0 & Ex & Ov).
  exists o. split; [exact Eo|].
  assert (F : FitsInInt32 o = true <-> decimal_value a <= INT32_MAX).
  { unfold FitsInInt32. rewrite Hp, He. cbn [negb andb].
    rewrite !andb_true_iff, !Z.eqb_eq, Z.leb_le.
    unfold INT32_MAX, UINT32_MAX in *. split.
    - intros [[Tw Fv] L].
      destruct (Z_le_gt_dec (decimal_value a) 4294967295) as [L'|G].
      + destruct (Ex L') as (El & _). lia.
      + assert (G' : 4294967295 < decimal_value a) by lia.
        specialize (Ov G'). lia.
    - intros L. destruct (Ex ltac:(lia)) as (El & Tw & Fv).
      repeat split; try assumption; lia. }
  split; [exact F|].
  intros Hf. apply F in Hf.
  unfold INT32_MAX, UINT32_MAX, INT32_MIN in *.
  destruct (Ex ltac:(lia)) as (El & _).
  unfold GetInt32. rewrite Hn, El.
  rewrite (to_int32_id (decimal_value a)) by (unfold INT32_MIN, INT32_MAX; lia).
  destruct neg.
  - rewrite to_int32_id by (unfold INT32_MIN, INT32_MAX; lia). lia.
  - lia.
Qed.

(** "-2147483647" is the least integer accepted. *)
Lemma signed_literal_witness :
  exists o,
    Accumulate_text true false (list_ascii_of_string "-2147483647") = (true, o, []) /\
    FitsInInt32 o = true /\ GetInt32 o = -2147483647.
Proof.
  destruct (signed_literal true false ["-"%char] (list_ascii_of_string "2147483647")
              [] true) as (o & Eo & F & G).
  - right. right. repeat split.
  - repeat constructor.
  - discriminate.
  - vm_compute. discriminate.
  - reflexivity.
  - reflexivity.
  - exists o. rewrite app_nil_r in Eo. split; [exact Eo|].
    assert (Hf : FitsInInt32 o = true) by (apply F; vm_compute; discriminate).
    split; [exact Hf | exact (proj1 (G Hf))].
Defined.

(** ** The exponent part *)

Lemma to_uint32_mod_step (v d e0 : Z) :
  e0 = to_uint32 v ->
  to_uint32 (to_uint32 (10 * e0) + d) = to_uint32 (v * 10 + d).
Proof.
  intros ->. unfold to_uint32.
  rewrite Zplus_mod_idemp_l, Z.mul_comm.
  rewrite <- (Zplus_mod_idemp_l (v mod 4294967296 * 10)).
  rewrite Zmult_mod_idemp_l, Zplus_mod_idemp_l. reflexivity.
Qed.

(** The exponent digits are accumulated modulo 2^32. *)
Lemma exponent_loop_value (es : stream) :
  Forall (fun c => isdigit c = true) es ->
  forall e0 r, e0 = to_uint32 (r_value r) ->
    fst (loop exponent_body e0 es) = to_uint32 (r_value (reading_from r es)) /\
    snd (loop exponent_body e0 es) = [].
Proof.
  induction 1 as [|c es Hc _ IH]; intros e0 r He.
  - split; [exact He | reflexivity].
  - cbn [loop]. unfold exponent_body at 1 3. rewrite Hc.
    change (reading_from r (c :: es)) with (reading_from (read_char r c) es).
    apply IH. unfold read_char. rewrite Hc. cbn [r_value].
    rewrite (digit_of_value c Hc). apply to_uint32_mod_step. exact He.
Qed.

Lemma to_int32_congr (a b : Z) :
  to_int32 (a + to_uint32 b) = to_int32 (a + b) /\
  to_int32 (a - to_uint32 b) = to_int32 (a - b).
Proof.
  unfold to_int32, to_uint32. split.
  - replace (a + b mod 4294967296 + 2147483648)
      with (b mod 4294967296 + (a + 2147483648)) by lia.
    rewrite Zplus_mod_idemp_l. do 2 f_equal. lia.
  - replace (a - b mod 4294967296 + 2147483648)
      with ((a + 2147483648) - b mod 4294967296) by lia.
    rewrite Zminus_mod_idemp_r. do 2 f_equal. lia.
Qed.

(** X5.  An exponent part after a number that has been read to its end
    adds the decimal value of its digits to both scale exponents, or
    subtracts it after a minus sign, sets [hadExponent] and changes nothing
    else; [Accumulate] stops at the first character after the exponent
    digits.  The sums are reduced to the [int] range, so they are the
    plain sums whenever those are in that range. *)
Theorem exponent_shift
  (c : ascii) (acceptNegative : bool) (src : stream) (o : NumericConverter)
  (marker : ascii) (sign es t : stream) (neg : bool) :
  Accumulate c acceptNegative true src = (true, o, []) ->
  hadExponent o = false ->
  marker = "E"%char \/ marker = "e"%char ->
  (sign = [] /\ neg = false) \/ (sign = ["+"%char] /\ neg = false) \/
  (sign = ["-"%char] /\ neg = true) ->
  Forall (fun d => isdigit d = true) es -> es <> [] ->
  isdigit (cur t) = false ->
  let delta := if neg then - decimal_value es else decimal_value es in
  Accumulate c acceptNegative true (src ++ marker :: sign ++ es ++ t) =
  (true,
   mkNC (lvalue o) (to_int32 (fives o + delta)) (to_int32 (twos o + delta))
        (hadDecimalPoint o) true (isNegative o),
   t) /\
  (INT32_MIN <= twos o + delta <= INT32_MAX ->
   INT32_MIN <= fives o + delta <= INT32_MAX ->
   Accumulate c acceptNegative true (src ++ marker :: sign ++ es ++ t) =
   (true,
    mkNC (lvalue o) (fives o + delta) (twos o + delta)
         (hadDecimalPoint o) true (isNegative o),
    t)).
Proof.
  intros Hrun Hexp Hm Hs Hes Hne Ht delta.
  assert (Main :
    Accumulate c acceptNegative true (src ++ marker :: sign ++ es ++ t) =
    (true,
     mkNC (lvalue o) (to_int32 (fives o + delta)) (to_int32 (twos o + delta))
          (hadDecimalPoint o) true (isNegative o),
     t)).
  { rewrite Accumulate_unfold in Hrun. rewrite Accumulate_unfold.
    change (c :: src ++ marker :: sign ++ es ++ t)
      with ((c :: src) ++ marker :: sign ++ es ++ t).
    rewrite (read_mantissa_app acceptNegative true (c :: src)
               (marker :: sign ++ es ++ t))
      by (destruct Hm as [-> | ->]; reflexivity).
    destruct (read_mantissa acceptNegative true (c :: src)) as [[f|] s];
      cbn [fst snd]; [|discriminate Hrun].
    destruct (negb (hadDigit f)); [discriminate Hrun|].
    assert (Es : s = [] /\ o = this f).
    { destruct (true && (toupper (cur s) =? "E")%char)%bool.
      - pose proof (read_exponent_hadExponent (this f) o s) as X.
        destruct (read_exponent (this f) s) as [[o'|] s'];
          [|discriminate]. injection Hrun as -> _.
        specialize (X eq_refl). congruence.
      - injection Hrun as -> ->. split; reflexivity. }
    destruct Es as [-> ->]. cbn [app].
    assert (Em : (true && (toupper (cur (marker :: sign ++ es ++ t)) =? "E")%char)%bool
                 = true) by (destruct Hm as [-> | ->]; reflexivity).
    rewrite Em.
    destruct es as [|d es'] eqn:Ees; [contradiction|].
    assert (Hd : isdigit d = true) by (inversion Hes; assumption).
    assert (Nm : (d =? "-")%char = false)
      by (destruct (Ascii.eqb_spec d "-"%char) as [->|_];
          [discriminate Hd | reflexivity]).
    assert (Np : (d =? "+")%char = false)
      by (destruct (Ascii.eqb_spec d "+"%char) as [->|_];
          [discriminate Hd | reflexivity]).
    assert (Hacc : Forall (fun a => forall e, exponent_body e a <> None) (d :: es')).
    { eapply Forall_impl; [|exact Hes]. intros a Ha e.
      unfold exponent_body. rewrite Ha. discriminate. }
    assert (Hrej : forall e, exponent_body e (cur t) = None)
      by (intros e; unfold exponent_body; rewrite Ht; reflexivity).
    destruct (exponent_loop_value (d :: es') Hes 0 (mkReading 0 false 0 false) eq_refl)
      as [Ev _].
    fold (reading (d :: es')) in Ev. fold (decimal_value (d :: es')) in Ev.
    assert (Loop : loop exponent_body 0 ((d :: es') ++ t) =
                   (to_uint32 (decimal_value (d :: es')), t)).
    { rewrite (loop_prefix exponent_body (d :: es') t 0 Hacc Hrej), Ev. reflexivity. }
    unfold read_exponent. cbn [NextChar tl].
    destruct (to_int32_congr (twos (this f)) (decimal_value (d :: es'))) as [Ct1 Ct2].
    destruct (to_int32_congr (fives (this f)) (decimal_value (d :: es'))) as [Cf1 Cf2].
    destruct Hs as [[-> ->] | [[-> ->] | [-> ->]]]; cbn [app cur hd NextChar tl].
    - rewrite Nm, Np. cbn [orb]. fold (cur ((d :: es') ++ t)).
      cbn [app cur hd]. rewrite Hd. cbn [negb].
      change (d :: es' ++ t) with ((d :: es') ++ t). rewrite Loop.
      unfold apply_exponent. subst delta. cbv iota.
      cbn [twos fives set_twos set_fives set_hadExponent lvalue hadDecimalPoint
           hadExponent isNegative].
      rewrite !add_unsigned_eq, Ct1, Cf1. reflexivity.
    - change ("+" =? "-")%char with false. change ("+" =? "+")%char with true.
      cbn [orb NextChar tl cur hd app]. rewrite Hd. cbn [negb].
      change (d :: es' ++ t) with ((d :: es') ++ t). rewrite Loop.
      unfold apply_exponent. subst delta. cbv iota.
      cbn [twos fives set_twos set_fives set_hadExponent lvalue hadDecimalPoint
           hadExponent isNegative].
      rewrite !add_unsigned_eq, Ct1, Cf1. reflexivity.
    - change ("-" =? "-")%char with true.
      cbn [orb NextChar tl cur hd app]. rewrite Hd. cbn [negb].
      change (d :: es' ++ t) with ((d :: es') ++ t). rewrite Loop.
      unfold apply_exponent. subst delta. cbv iota.
      cbn [twos fives set_twos set_fives set_hadExponent lvalue hadDecimalPoint
           hadExponent isNegative].
      rewrite !sub_unsigned_eq, Ct2, Cf2.
      replace (twos (this f) + - decimal_value (d :: es'))
        with (twos (this f) - decimal_value (d :: es')) by lia.
      replace (fives (this f) + - decimal_value (d :: es'))
        with (fives (this f) - decimal_value (d :: es')) by lia.
      reflexivity. }
  split; [exact Main|].
  intros Rt Rf. rewrite Main.
  rewrite (to_int32_id _ Rt), (to_int32_id _ Rf). reflexivity.
Qed.

(** "12.5" followed by "e-3". *)
Lemma exponent_shift_witness :
  Accumulate "1" true true (list_ascii_of_string "2.5" ++ "e"%char :: ["-"%char] ++ ["3"%char] ++ []) =
  (true, mkNC 125 (-4) (-4) true true false, []).
Proof.
  destruct (exponent_shift "1" true (list_ascii_of_string "2.5")
              (mkNC 125 (-1) (-1) true false false) "e" ["-"%char] ["3"%char] [] true)
    as [_ H].
  - vm_compute. reflexivity.
  - reflexivity.
  - right. reflexivity.
  - right. right. split; reflexivity.
  - repeat constructor.
  - discriminate.
  - reflexivity.
  - apply H; vm_compute; split; discriminate.
Defined.

(** ** Blanks and signs before the number *)

(** X6.  Leading spaces and tabs change nothing: [Accumulate] and
    [SafeStrtod] return what they return when called at the first
    character that is not a space or a tab. *)
Theorem leading_blanks_skipped
  (acceptNegative acceptReals : bool) (long_bits : Z)
  (TimesPowerOf10 : spec_float -> Z -> spec_float)
  (b : ascii) (blanks : stream) (c : ascii) (src : stream) :
  is_blank b -> Forall is_blank blanks -> ~ is_blank c ->
  Accumulate b acceptNegative acceptReals (blanks ++ c :: src) =
  Accumulate c acceptNegative acceptReals src /\
  SafeStrtod long_bits TimesPowerOf10 (b :: blanks ++ c :: src) =
  SafeStrtod long_bits TimesPowerOf10 (c :: src).
Proof.
  intros Hb Hbs Hc.
  assert (W1 : loop white_body tt (b :: blanks ++ c :: src) = (tt, c :: src)).
  { change (b :: blanks ++ c :: src) with ((b :: blanks) ++ c :: src).
    apply skip_blanks; [constructor; assumption | exact Hc]. }
  assert (W2 : loop white_body tt (c :: src) = (tt, c :: src))
    by (apply (skip_blanks [] (c :: src)); [constructor | exact Hc]).
  split.
  - unfold Accumulate. rewrite W1, W2. reflexivity.
  - unfold SafeStrtod. rewrite W1, W2. reflexivity.
Qed.

Lemma leading_blanks_skipped_witness :
  Accumulate " " true true (list_ascii_of_string " 42") =
  Accumulate "4" true true (list_ascii_of_string "2").
Proof.
  destruct (leading_blanks_skipped true true 32 TimesPowerOf10_model
              " " [" "%char] "4" ["2"%char]) as [H _].
  - left. reflexivity.
  - repeat constructor.
  - intros [H|H]; discriminate H.
  - exact H.
Defined.

Lemma loop_map {S : Type} (body : S -> ascii -> option S) (g : S -> S) :
  (forall st c, body (g st) c = option_map g (body st c)) ->
  forall s st,
    loop body (g st) s = (g (fst (loop body st s)), snd (loop body st s)).
Proof.
  intros H. induction s as [|c s IH]; intros st; [reflexivity|].
  cbn [loop]. rewrite H. destruct (body st c) as [st'|]; cbn [option_map].
  - apply IH.
  - reflexivity.
Qed.

Lemma zeros_body_negative (acceptReals : bool) (f : Frame) (c : ascii) :
  zeros_body acceptReals (negative_frame f) c =
  option_map negative_frame (zeros_body acceptReals f c).
Proof.
  unfold zeros_body, negative_frame. destruct f as [[l fv tw dp he ng] hd ov].
  cbn [this hadDigit overflowed hadDecimalPoint set_isNegative lvalue fives twos
       hadExponent isNegative].
  destruct (c =? "0")%char; [destruct dp; reflexivity|].
  destruct ((c =? ".")%char && negb dp && acceptReals); reflexivity.
Qed.

Lemma fold_digit_negative (o : NumericConverter) (d : Z) :
  fold_digit (set_isNegative true o) d =
  (set_isNegative true (fst (fold_digit o d)), snd (fold_digit o d)).
Proof.
  unfold fold_digit. destruct o as [l fv tw dp he ng].
  cbn [lvalue set_isNegative hadDecimalPoint fives twos hadExponent isNegative].
  destruct (fits10 l d); [destruct dp; reflexivity|].
  destruct (fits5 l _); [destruct dp; reflexivity|].
  destruct (fits2 l _); destruct dp; reflexivity.
Qed.

Lemma digits_body_negative (acceptReals : bool) (f : Frame) (c : ascii) :
  digits_body acceptReals (negative_frame f) c =
  option_map negative_frame (digits_body acceptReals f c).
Proof.
  unfold digits_body, negative_frame. cbn [this hadDigit overflowed].
  destruct (isdigit c).
  - destruct (overflowed f).
    + destruct f as [[l fv tw dp he ng] hd ov]. destruct dp; reflexivity.
    + rewrite fold_digit_negative.
      destruct (fold_digit (this f) (digit_of c)) as [o' ov']. reflexivity.
  - destruct f as [[l fv tw dp he ng] hd ov].
    cbn [this hadDecimalPoint set_isNegative].
    destruct ((c =? ".")%char && negb dp && acceptReals); reflexivity.
Qed.

Lemma read_exponent_negative (o : NumericConverter) (s : stream) :
  read_exponent (set_isNegative true o) s =
  (option_map (set_isNegative true) (fst (read_exponent o s)),
   snd (read_exponent o s)).
Proof.
  unfold read_exponent.
  destruct (negb (isdigit _)); [reflexivity|].
  destruct (loop exponent_body 0 _) as [e s']. cbn [fst snd option_map].
  unfold apply_exponent. destruct o as [l fv tw dp he ng].
  destruct (cur (NextChar s) =? "-")%char; reflexivity.
Qed.

(** X7.  A sign before the number is consumed and does nothing else than
    set [isNegative]: after a plus sign [Accumulate] returns what it
    returns for the rest of the input, and after an accepted minus sign
    the same with [isNegative] set.  The number must follow the sign at
    once: the character after it is not a blank and not a second sign. *)
Theorem sign_only_sets_isNegative
  (acceptNegative acceptReals : bool) (c : ascii) (src : stream) :
  ~ is_blank c -> c <> "+"%char -> c <> "-"%char ->
  Accumulate "+" acceptNegative acceptReals (c :: src) =
  Accumulate c acceptNegative acceptReals src /\
  Accumulate "-" true acceptReals (c :: src) =
  (result_ok (Accumulate c true acceptReals src),
   set_isNegative true (result_obj (Accumulate c true acceptReals src)),
   snd (Accumulate c true acceptReals src)).
Proof.
  intros Hb Hp Hm.
  assert (W : loop white_body tt (c :: src) = (tt, c :: src))
    by (apply (skip_blanks [] (c :: src)); [constructor | exact Hb]).
  assert (Cs : forall aN, check_sign aN reset (c :: src) = Some (reset, c :: src)).
  { intros aN. unfold check_sign. cbn [cur hd].
    destruct (Ascii.eqb_spec c "+"%char) as [X|_]; [contradiction|].
    destruct (Ascii.eqb_spec c "-"%char) as [X|_]; [contradiction|]. reflexivity. }
  split.
  - unfold Accumulate. rewrite W, Cs. reflexivity.
  - unfold Accumulate, result_ok, result_obj. rewrite W, Cs.
    change (loop white_body tt ("-"%char :: c :: src)) with (tt, "-"%char :: c :: src).
    cbv iota beta.
    change (check_sign true reset ("-"%char :: c :: src))
      with (Some (set_isNegative true reset, c :: src)).
    cbv iota beta.
    change (mkFrame (set_isNegative true reset) false false)
      with (negative_frame (mkFrame reset false false)).
    rewrite (loop_map (zeros_body acceptReals) negative_frame
               (zeros_body_negative acceptReals)).
    destruct (loop (zeros_body acceptReals) (mkFrame reset false false) (c :: src))
      as [f s1]. cbn [fst snd].
    change (mkFrame (this (negative_frame f)) (hadDigit (negative_frame f)) false)
      with (negative_frame (mkFrame (this f) (hadDigit f) false)).
    rewrite (loop_map (digits_body acceptReals) negative_frame
               (digits_body_negative acceptReals)).
    destruct (loop (digits_body acceptReals) (mkFrame (this f) (hadDigit f) false) s1)
      as [g s2]. cbn [fst snd].
    change (hadDigit (negative_frame g)) with (hadDigit g).
    change (this (negative_frame g)) with (set_isNegative true (this g)).
    destruct (negb (hadDigit g)); [reflexivity|].
    destruct (acceptReals && (toupper (cur s2) =? "E")%char)%bool; [|reflexivity].
    rewrite read_exponent_negative.
    destruct (read_exponent (this g) s2) as [[o'|] s3]; reflexivity.
Qed.

Lemma sign_only_sets_isNegative_witness :
  Accumulate "-" true true (list_ascii_of_string "1.5e2") =
  (true, mkNC 15 1 1 true true true, []).
Proof.
  destruct (sign_only_sets_isNegative true true "1" (list_ascii_of_string ".5e2"))
    as [_ H].
  - intros [H|H]; discriminate H.
  - discriminate.
  - discriminate.
  - exact H.
Defined.

(** X8.  When negative numbers are not accepted, a minus sign after the
    leading blanks makes [Accumulate] return false at once: the object is
    as the reset left it and the minus sign is not consumed. *)
Theorem minus_not_accepted
  (acceptReals : bool) (c : ascii) (src blanks rest : stream) :
  Forall is_blank blanks ->
  c :: src = blanks ++ "-"%char :: rest ->
  Accumulate c false acceptReals src = (false, reset, "-"%char :: rest).
Proof.
  intros Hb E. unfold Accumulate. rewrite E.
  rewrite (skip_blanks blanks ("-"%char :: rest) Hb)
    by (intros [H|H]; discriminate H).
  reflexivity.
Qed.

Lemma minus_not_accepted_witness :
  Accumulate " " false true (list_ascii_of_string "-5") =
  (false, reset, list_ascii_of_string "-5").
Proof.
  apply (minus_not_accepted true " " (list_ascii_of_string "-5")
           [" "%char] ["5"%char]).
  - repeat constructor.
  - reflexivity.
Defined.

(** ** Flags that were not asked for *)

Lemma zeros_body_point (acceptReals : bool) (f f' : Frame) (c : ascii) :
  zeros_body acceptReals f c = Some f' ->
  hadDecimalPoint (this f') = true ->
  hadDecimalPoint (this f) = true \/ acceptReals = true.
Proof.
  unfold zeros_body. intros E H.
  destruct (c =? "0")%char.
  - injection E as <-. cbn [this] in H.
    destruct (hadDecimalPoint (this f)) eqn:D; [left; reflexivity|].
    rewrite D in H. discriminate H.
  - destruct ((c =? ".")%char && negb (hadDecimalPoint (this f)))%bool;
      [|discriminate E].
    destruct acceptReals; [right; reflexivity | discriminate E].
Qed.

Lemma digits_body_point (acceptReals : bool) (f f' : Frame) (c : ascii) :
  digits_body acceptReals f c = Some f' ->
  hadDecimalPoint (this f') = true ->
  hadDecimalPoint (this f) = true \/ acceptReals = true.
Proof.
  unfold digits_body. intros E H.
  destruct (isdigit c).
  - left. destruct (overflowed f).
    + injection E as <-. cbn [this] in H.
      destruct (hadDecimalPoint (this f)) eqn:D; [reflexivity|].
      cbn [negb hadDecimalPoint set_twos set_fives] in H. congruence.
    + destruct (fold_digit_flags (this f) (digit_of c)) as (P & _).
      destruct (fold_digit (this f) (digit_of c)) as [o' ov].
      injection E as <-. cbn [this fst] in *. congruence.
  - destruct ((c =? ".")%char && negb (hadDecimalPoint (this f)))%bool;
      [|discriminate E].
    destruct acceptReals; [right; reflexivity | discriminate E].
Qed.

Lemma read_mantissa_flags (acceptNegative acceptReals : bool) (s : stream) :
  match fst (read_mantissa acceptNegative acceptReals s) with
  | Some g =>
      (hadDecimalPoint (this g) = true -> acceptReals = true) /\
      hadExponent (this g) = false /\
      (isNegative (this g) = true -> acceptNegative = true)
  | None => True
  end.
Proof.
  unfold read_mantissa.
  destruct (loop white_body tt s) as [u s0].
  destruct (check_sign acceptNegative reset s0) as [[o s1]|] eqn:Es; [|exact Logic.I].
  assert (Q : hadDecimalPoint o = false /\ hadExponent o = false /\
              (isNegative o = true -> acceptNegative = true)).
  { unfold check_sign in Es.
    destruct (cur s0 =? "+")%char; [injection Es as <- _; repeat split; discriminate|].
    destruct (cur s0 =? "-")%char; [|injection Es as <- _; repeat split; discriminate].
    destruct acceptNegative; [|discriminate Es].
    injection Es as <- _. repeat split. }
  set (P := fun f : Frame =>
              (hadDecimalPoint (this f) = true -> acceptReals = true) /\
              hadExponent (this f) = false /\
              (isNegative (this f) = true -> acceptNegative = true)).
  destruct (loop_preserves (zeros_body acceptReals) P) with
    (s := s1) (st := mkFrame o false false) as [_ Z].
  { intros f c f' (A & B & C) E.
    destruct (zeros_body_flags _ _ _ _ E) as (F1 & F2 & _).
    split; [|split; [congruence|rewrite F2; exact C]].
    intros H. destruct (zeros_body_point _ _ _ _ E H) as [X|X]; auto. }
  { destruct Q as (A & B & C). split; [cbn [this]; congruence|].
    split; assumption. }
  destruct (loop (zeros_body acceptReals) (mkFrame o false false) s1) as [f s2].
  cbn [fst] in Z.
  destruct (loop_preserves (digits_body acceptReals) P) with
    (s := s2) (st := mkFrame (this f) (hadDigit f) false) as [_ D].
  { intros a c a' (A & B & C) E.
    destruct (digits_body_flags _ _ _ _ E) as (F1 & F2).
    split; [|split; [congruence|rewrite F2; exact C]].
    intros H. destruct (digits_body_point _ _ _ _ E H) as [X|X]; auto. }
  { exact Z. }
  destruct (loop (digits_body acceptReals) (mkFrame (this f) (hadDigit f) false) s2)
    as [g s3].
  exact D.
Qed.

(** X9.  The object that [Accumulate] leaves has [hadDecimalPoint] or
    [hadExponent] set only if reals were accepted, and [isNegative] set
    only if negative numbers were accepted; [hadExponent] is set only on a
    successful return. *)
Theorem flags_need_acceptance
  (c : ascii) (acceptNegative acceptReals : bool) (src : stream) :
  (hadDecimalPoint (result_obj (Accumulate c acceptNegative acceptReals src)) = true ->
   acceptReals = true) /\
  (hadExponent (result_obj (Accumulate c acceptNegative acceptReals src)) = true ->
   acceptReals = true /\
   result_ok (Accumulate c acceptNegative acceptReals src) = true) /\
  (isNegative (result_obj (Accumulate c acceptNegative acceptReals src)) = true ->
   acceptNegative = true).
Proof.
  rewrite Accumulate_unfold.
  pose proof (read_mantissa_flags acceptNegative acceptReals (c :: src)) as F.
  destruct (read_mantissa acceptNegative acceptReals (c :: src)) as [[g|] s];
    cbn [fst] in F; unfold result_obj, result_ok;
    [|cbn; repeat split; discriminate].
  destruct F as (A & B & C).
  destruct (negb (hadDigit g));
    [cbn [fst snd]; split; [exact A|split; [congruence|exact C]]|].
  destruct acceptReals; cbn [andb];
    [|cbn [fst snd]; split; [exact A|split; [congruence|exact C]]].
  destruct (toupper (cur s) =? "E")%char;
    [|cbn [fst snd]; split; [exact A|split; [congruence|exact C]]].
  unfold read_exponent.
  destruct (negb (isdigit _));
    [cbn [fst snd]; split; [exact A|split; [congruence|exact C]]|].
  destruct (loop exponent_body 0 _) as [e s'].
  cbn [fst snd]. split; [reflexivity|]. split; [split; reflexivity|].
  unfold apply_exponent.
  destruct (cur (NextChar s) =? "-")%char;
    cbn [isNegative set_fives set_twos set_hadExponent]; exact C.
Qed.

(** ** SafeStrtod: signs and exponent markers *)

Section StrtodSigns.
Variable long_bits : Z.
Variable TimesPowerOf10 : spec_float -> Z -> spec_float.

(** X10.  In [SafeStrtod] a minus sign before the number negates the
    value and a plus sign leaves it alone, and neither changes where the
    conversion stops.  The number must follow the sign at once. *)
Theorem SafeStrtod_sign (c : ascii) (s : stream) :
  ~ is_blank c -> c <> "+"%char -> c <> "-"%char ->
  SafeStrtod long_bits TimesPowerOf10 ("-"%char :: c :: s) =
  (SFopp (fst (SafeStrtod long_bits TimesPowerOf10 (c :: s))),
   snd (SafeStrtod long_bits TimesPowerOf10 (c :: s))) /\
  SafeStrtod long_bits TimesPowerOf10 ("+"%char :: c :: s) =
  SafeStrtod long_bits TimesPowerOf10 (c :: s).
Proof.
  intros Hb Hp Hm.
  assert (W : loop white_body tt (c :: s) = (tt, c :: s))
    by (apply (skip_blanks [] (c :: s)); [constructor | exact Hb]).
  assert (Em : (c =? "-")%char = false)
    by (destruct (Ascii.eqb_spec c "-"%char); [contradiction | reflexivity]).
  assert (Ep : (c =? "+")%char = false)
    by (destruct (Ascii.eqb_spec c "+"%char); [contradiction | reflexivity]).
  unfold SafeStrtod. rewrite W.
  change (loop white_body tt ("-"%char :: c :: s)) with (tt, "-"%char :: c :: s).
  change (loop white_body tt ("+"%char :: c :: s)) with (tt, "+"%char :: c :: s).
  cbv iota beta. cbn [cur hd NextChar tl]. rewrite Em, Ep.
  change ("-" =? "-")%char with true. change ("+" =? "-")%char with false.
  change ("+" =? "+")%char with true. cbn [orb].
  destruct (loop before_body (S754_zero false) (c :: s)) as [v s1].
  destruct (if (cur s1 =? ".")%char
            then loop (after_body long_bits) (mkFraction 0 0 false) (NextChar s1)
            else (mkFraction 0 0 false, s1)) as [fr s2].
  destruct (strtod_exponent long_bits s2) as [e s3].
  split; reflexivity.
Qed.

Lemma to_long_zero : 0 < long_bits -> to_long long_bits (- 0) = 0.
Proof.
  intros H. unfold to_long. cbn [Z.opp Z.add].
  assert (P : 0 < 2 ^ (long_bits - 1)) by (apply Z.pow_pos_nonneg; lia).
  assert (Q : 2 ^ long_bits = 2 * 2 ^ (long_bits - 1)).
  { replace long_bits with (Z.succ (long_bits - 1)) at 1 by lia.
    apply Z.pow_succ_r. lia. }
  rewrite Z.mod_small by lia. lia.
Qed.

(** X11.  [SafeStrtod] does not reject an exponent marker that no digit
    follows: the marker and a sign after it are consumed, the exponent is
    zero, and the value is that of the digits before the marker. *)
Theorem SafeStrtod_bare_marker (d : stream) (marker : ascii) (sign t : stream) :
  0 < long_bits ->
  Forall (fun c => isdigit c = true) d ->
  marker = "E"%char \/ marker = "e"%char ->
  sign = [] \/ sign = ["+"%char] \/ sign = ["-"%char] ->
  isdigit (cur t) = false ->
  (sign = [] -> (cur t =? "+")%char = false /\ (cur t =? "-")%char = false) ->
  SafeStrtod long_bits TimesPowerOf10 (d ++ marker :: sign ++ t) =
  (fst (SafeStrtod long_bits TimesPowerOf10 d), t) /\
  fst (SafeStrtod long_bits TimesPowerOf10 d) =
  TimesPowerOf10 (fst (loop before_body (S754_zero false) d)) 0.
Proof.
  intros Hl Hd Hm Hs Ht Hn.
  assert (Hd' : Forall (fun c => forall v : spec_float, before_body v c <> None) d)
    by (eapply Forall_impl; [|exact Hd]; intros c Hc; exact (before_body_digit c Hc)).
  assert (Mk : isdigit marker = false /\ (marker =? ".")%char = false /\
               (toupper marker =? "E")%char = true /\
               white_body tt marker = None /\
               (marker =? "-")%char = false /\ (marker =? "+")%char = false)
    by (destruct Hm as [-> | ->]; repeat split).
  destruct Mk as (M1 & M2 & M3 & M4 & M5 & M6).
  set (V := fst (loop before_body (S754_zero false) d)).
  (* the digits alone *)
  assert (R : SafeStrtod long_bits TimesPowerOf10 d = (TimesPowerOf10 V 0, [])).
  { unfold SafeStrtod.
    assert (W : loop white_body tt d = (tt, d)).
    { destruct d as [|c d']; [reflexivity|].
      apply (skip_blanks [] (c :: d')); [constructor|].
      inversion Hd as [|? ? Hc _]; subst. cbn [cur hd].
      intros [X|X]; rewrite X in Hc; discriminate Hc. }
    rewrite W.
    assert (Sg : ((cur d =? "-")%char || (cur d =? "+")%char)%bool = false
                 /\ (cur d =? "-")%char = false).
    { destruct d as [|c d']; [split; reflexivity|].
      inversion Hd as [|? ? Hc _]; subst. cbn [cur hd].
      destruct (Ascii.eqb_spec c "-"%char) as [->|_]; [discriminate Hc|].
      destruct (Ascii.eqb_spec c "+"%char) as [->|_]; [discriminate Hc|].
      split; reflexivity. }
    destruct Sg as [Sg1 Sg2]. rewrite Sg1, Sg2.
    pose proof (loop_consumes before_body d Hd' (S754_zero false)) as Lc.
    destruct (loop before_body (S754_zero false) d) as [v s1] eqn:El.
    cbn [snd] in Lc. subst s1. subst V. cbn [fst].
    cbn [cur hd]. change (NUL =? ".")%char with false. cbv iota.
    unfold strtod_exponent. cbn [cur hd]. change (toupper NUL =? "E")%char with false.
    cbv iota. unfold composite_value. cbn [valueAfterPoint Z.eqb negb].
    reflexivity. }
  rewrite R. cbn [fst]. split; [|reflexivity].
  (* the digits, the marker and what follows *)
  unfold SafeStrtod.
  assert (W : loop white_body tt (d ++ marker :: sign ++ t)
              = (tt, d ++ marker :: sign ++ t)).
  { destruct d as [|c d']; cbn [app].
    - cbn [loop]. rewrite M4. reflexivity.
    - apply (skip_blanks [] (c :: d' ++ marker :: sign ++ t)); [constructor|].
      inversion Hd as [|? ? Hc _]; subst. cbn [cur hd].
      intros [X|X]; rewrite X in Hc; discriminate Hc. }
  rewrite W.
  assert (Sg : ((cur (d ++ marker :: sign ++ t) =? "-")%char
                || (cur (d ++ marker :: sign ++ t) =? "+")%char)%bool = false
               /\ (cur (d ++ marker :: sign ++ t) =? "-")%char = false).
  { destruct d as [|c d']; cbn [app cur hd].
    - rewrite M5, M6. split; reflexivity.
    - inversion Hd as [|? ? Hc _]; subst.
      destruct (Ascii.eqb_spec c "-"%char) as [->|_]; [discriminate Hc|].
      destruct (Ascii.eqb_spec c "+"%char) as [->|_]; [discriminate Hc|].
      split; reflexivity. }
  destruct Sg as [Sg1 Sg2]. rewrite Sg1, Sg2.
  rewrite (loop_prefix before_body d (marker :: sign ++ t) _ Hd')
    by (intros v; apply before_body_other; exact M1).
  fold V. cbn [cur hd]. rewrite M2.
  assert (Ex : strtod_exponent long_bits (marker :: sign ++ t) = (0, t)).
  { unfold strtod_exponent. cbn [cur hd NextChar tl]. rewrite M3.
    assert (L0 : loop (strtod_exponent_body long_bits) 0 t = (0, t)).
    { destruct t as [|c t']; [reflexivity|]. cbn [loop].
      unfold strtod_exponent_body. cbn [cur hd] in Ht. rewrite Ht. reflexivity. }
    destruct Hs as [-> | [-> | ->]]; cbn [app cur hd NextChar tl].
    - destruct (Hn eq_refl) as [Np Nm]. rewrite Np, Nm. cbn [orb].
      rewrite L0. reflexivity.
    - change ("+" =? "-")%char with false. change ("+" =? "+")%char with true.
      cbn [orb]. rewrite L0. reflexivity.
    - change ("-" =? "-")%char with true. cbn [orb].
      rewrite L0. rewrite (to_long_zero Hl). reflexivity. }
  rewrite Ex. unfold composite_value. cbn [valueAfterPoint Z.eqb negb].
  reflexivity.
Qed.
End StrtodSigns.

Lemma SafeStrtod_sign_witness :
  fst (SafeStrtod 32 TimesPowerOf10_model (list_ascii_of_string "-1.5e2")) =
  SFopp (double_of_Z 150).
Proof.
  destruct (SafeStrtod_sign 32 TimesPowerOf10_model "1" (list_ascii_of_string ".5e2"))
    as [H _].
  - intros [H|H]; discriminate H.
  - discriminate.
  - discriminate.
  - change (list_ascii_of_string "-1.5e2")
      with ("-"%char :: "1"%char :: list_ascii_of_string ".5e2").
    rewrite H. vm_compute. reflexivity.
Defined.

(** "12e+x" is converted to 12 and stops at "x". *)
Lemma SafeStrtod_bare_marker_witness :
  SafeStrtod 32 TimesPowerOf10_model (list_ascii_of_string "12e+x") =
  (double_of_Z 12, ["x"%char]).
Proof.
  destruct (SafeStrtod_bare_marker 32 TimesPowerOf10_model
              (list_ascii_of_string "12") "e" ["+"%char] ["x"%char]) as [H _].
  - reflexivity.
  - repeat constructor.
  - right. reflexivity.
  - right. left. reflexivity.
  - reflexivity.
  - discriminate.
  - change (list_ascii_of_string "12e+x")
      with (list_ascii_of_string "12" ++ "e"%char :: ["+"%char] ++ ["x"%char]).
    rewrite H. vm_compute. reflexivity.
Defined.

(** A loop over accepted characters followed by more text continues on
    that text from the state reached. *)
Lemma loop_seq {S : Type} (body : S -> ascii -> option S) (pre t : stream) :
  Forall (fun c => forall st, body st c <> None) pre ->
  forall st, loop body st (pre ++ t) = loop body (fst (loop body st pre)) t.
Proof.
  induction 1 as [|c pre Hc _ IH]; intros st; [reflexivity|].
  cbn [app loop]. destruct (body st c) as [st'|] eqn:E; [apply IH|].
  exfalso. exact (Hc st E).
Qed.

(** ** SafeStrtod: the digits after the point *)

Section FractionDigits.
Variable long_bits : Z.
Variable TimesPowerOf10 : spec_float -> Z -> spec_float.
Hypothesis long_bits_pos : 0 < long_bits.

Lemma fits_ulong (M v d : Z) : (v <=? (M - d) / 10) = true <-> v * 10 + d <= M.
Proof.
  rewrite Z.leb_le.
  pose proof (Z.div_mod (M - d) 10 ltac:(lia)) as E.
  pose proof (Z.mod_pos_bound (M - d) 10 ltac:(lia)) as B.
  lia.
Qed.

Lemma to_ulong_id (z : Z) : 0 <= z <= ULONG_MAX long_bits -> to_ulong long_bits z = z.
Proof.
  unfold ULONG_MAX, to_ulong. intros H. apply Z.mod_small. lia.
Qed.

Lemma to_long_id (z : Z) :
  - 2 ^ (long_bits - 1) <= z < 2 ^ (long_bits - 1) -> to_long long_bits z = z.
Proof.
  intros H. unfold to_long.
  assert (Q : 2 ^ long_bits = 2 * 2 ^ (long_bits - 1)).
  { replace long_bits with (Z.succ (long_bits - 1)) at 1 by lia.
    apply Z.pow_succ_r. lia. }
  rewrite Z.mod_small by lia. lia.
Qed.

(** Until they no longer fit, the digits after the point are accumulated
    exactly and counted. *)
Lemma after_loop_exact (b : stream) :
  Forall (fun c => isdigit c = true) b ->
  forall fr r,
    fraction_overflowed fr = false ->
    valueAfterPoint fr = r_value r -> 0 <= r_value r ->
    r_value (reading_from r b) <= ULONG_MAX long_bits ->
    0 <= digitsAfterPoint fr ->
    digitsAfterPoint fr + Z.of_nat (List.length b) < 2 ^ (long_bits - 1) ->
    loop (after_body long_bits) fr b =
    (mkFraction (r_value (reading_from r b))
                (digitsAfterPoint fr + Z.of_nat (List.length b)) false, []).
Proof.
  induction 1 as [|c b Hc _ IH]; intros fr r Hov Hv H0 HM Hn HL.
  - cbn [loop reading_from fold_left List.length Z.of_nat].
    destruct fr as [v n ov]. cbn in *. subst. rewrite Z.add_0_r. reflexivity.
  - change (reading_from r (c :: b)) with (reading_from (read_char r c) b) in *.
    cbn [List.length] in HL. rewrite Nat2Z.inj_succ in HL.
    pose proof (digit_value_range c Hc) as Hd.
    assert (Rv : r_value (read_char r c) = r_value r * 10 + digit_value c)
      by (unfold read_char; rewrite Hc; reflexivity).
    assert (Mon : r_value (read_char r c) <= r_value (reading_from (read_char r c) b))
      by (apply reading_from_monotone; rewrite Rv; lia).
    cbn [loop]. unfold after_body at 1. rewrite Hc, Hov. cbn [negb].
    rewrite (digit_of_value c Hc), Hv.
    assert (G : (r_value r <=? (ULONG_MAX long_bits - digit_value c) / 10) = true)
      by (apply fits_ulong; lia).
    rewrite G.
    rewrite (to_ulong_id (r_value r * 10)) by lia.
    rewrite to_ulong_id by lia.
    rewrite to_long_id by lia.
    rewrite (IH _ (read_char r c)); cbn [fraction_overflowed valueAfterPoint
                                         digitsAfterPoint]; try lia; try reflexivity.
    cbn [List.length]. rewrite Nat2Z.inj_succ. do 2 f_equal. lia.
Qed.

(** The digits after the point, read from the start. *)
Lemma after_loop_value (b : stream) :
  Forall (fun c => isdigit c = true) b ->
  decimal_value b <= ULONG_MAX long_bits ->
  Z.of_nat (List.length b) < 2 ^ (long_bits - 1) ->
  loop (after_body long_bits) (mkFraction 0 0 false) b =
  (mkFraction (decimal_value b) (Z.of_nat (List.length b)) false, []).
Proof.
  intros Hb HM HL.
  rewrite (after_loop_exact b Hb (mkFraction 0 0 false) (mkReading 0 false 0 false));
    cbn [fraction_overflowed valueAfterPoint digitsAfterPoint r_value];
    try reflexivity; try lia.
  exact HM.
Qed.

(** Once they no longer fit, further digits are skipped. *)
Lemma after_loop_dropped (rest : stream) (fr : Fraction) :
  Forall (fun c => isdigit c = true) rest ->
  fraction_overflowed fr = true ->
  loop (after_body long_bits) fr rest = (fr, []).
Proof.
  intros H Hov. induction H as [|c rest Hc _ IH]; [reflexivity|].
  cbn [loop]. unfold after_body at 1. rewrite Hc, Hov. exact IH.
Qed.

(** [SafeStrtod] on digits, a point and digits. *)
Lemma SafeStrtod_point (a b t : stream) (fr : Fraction) :
  Forall (fun c => isdigit c = true) a ->
  isdigit (cur t) = false ->
  loop (after_body long_bits) (mkFraction 0 0 false) b = (fr, []) ->
  SafeStrtod long_bits TimesPowerOf10 (a ++ "."%char :: b ++ t) =
  (composite_value long_bits TimesPowerOf10
     (fst (loop before_body (S754_zero false) a)) fr
     (fst (strtod_exponent long_bits t)),
   snd (strtod_exponent long_bits t)).
Proof.
  intros Ha Ht Hb.
  assert (Ha' : Forall (fun c => forall v : spec_float, before_body v c <> None) a)
    by (eapply Forall_impl; [|exact Ha]; intros c Hc; exact (before_body_digit c Hc)).
  unfold SafeStrtod.
  assert (W : loop white_body tt (a ++ "."%char :: b ++ t)
              = (tt, a ++ "."%char :: b ++ t)).
  { destruct a as [|c a']; [reflexivity|].
    apply (skip_blanks [] ((c :: a') ++ "."%char :: b ++ t)); [constructor|].
    inversion Ha as [|? ? Hc _]; subst. cbn [app cur hd].
    intros [X|X]; rewrite X in Hc; discriminate Hc. }
  rewrite W.
  assert (Sg : ((cur (a ++ "."%char :: b ++ t) =? "-")%char
                || (cur (a ++ "."%char :: b ++ t) =? "+")%char)%bool = false
               /\ (cur (a ++ "."%char :: b ++ t) =? "-")%char = false).
  { destruct a as [|c a']; cbn [app cur hd]; [split; reflexivity|].
    inversion Ha as [|? ? Hc _]; subst.
    destruct (Ascii.eqb_spec c "-"%char) as [->|_]; [discriminate Hc|].
    destruct (Ascii.eqb_spec c "+"%char) as [->|_]; [discriminate Hc|].
    split; reflexivity. }
  destruct Sg as [Sg1 Sg2]. rewrite Sg1, Sg2.
  rewrite (loop_prefix before_body a ("."%char :: b ++ t) _ Ha')
    by (intros v; apply before_body_other; reflexivity).
  cbn [cur hd NextChar tl]. change ("." =? ".")%char with true. cbv iota.
  rewrite (loop_app (after_body long_bits) t (after_body_other long_bits _ Ht)).
  rewrite Hb. cbn [fst snd app].
  destruct (strtod_exponent long_bits t) as [e s]. reflexivity.
Qed.

(** X12.  In [SafeStrtod] the digits after the point are accumulated as an
    unsigned integer together with their count, without ever wrapping.
    As long as the digits spell a value within the range of
    [unsigned long], that integer is their exact value and the count is
    their number.  From the first digit that no longer fits, the digits
    are dropped: the integer is rounded up if that first digit is 5 or
    more (unless it is already the largest value), and the count stays
    where it was. *)
Theorem fraction_digits_accumulated (a b0 rest t : stream) (d : ascii) :
  Forall (fun c => isdigit c = true) a ->
  Forall (fun c => isdigit c = true) b0 ->
  decimal_value b0 <= ULONG_MAX long_bits ->
  Z.of_nat (List.length b0) < 2 ^ (long_bits - 1) ->
  isdigit (cur t) = false ->
  SafeStrtod long_bits TimesPowerOf10 (a ++ "."%char :: b0 ++ t) =
  (composite_value long_bits TimesPowerOf10
     (fst (loop before_body (S754_zero false) a))
     (mkFraction (decimal_value b0) (Z.of_nat (List.length b0)) false)
     (fst (strtod_exponent long_bits t)),
   snd (strtod_exponent long_bits t)) /\
  (isdigit d = true -> Forall (fun c => isdigit c = true) rest ->
   ULONG_MAX long_bits < decimal_value (b0 ++ [d]) ->
   SafeStrtod long_bits TimesPowerOf10 (a ++ "."%char :: (b0 ++ d :: rest) ++ t) =
   (composite_value long_bits TimesPowerOf10
      (fst (loop before_body (S754_zero false) a))
      (mkFraction
         (if (5 <=? digit_value d) && negb (decimal_value b0 =? ULONG_MAX long_bits)
          then decimal_value b0 + 1 else decimal_value b0)
         (Z.of_nat (List.length b0)) true)
      (fst (strtod_exponent long_bits t)),
    snd (strtod_exponent long_bits t))).
Proof.
  intros Ha Hb HM HL Ht.
  assert (V0 : 0 <= decimal_value b0).
  { pose proof (reading_from_monotone b0 (mkReading 0 false 0 false)) as M.
    cbn [r_value] in M. unfold decimal_value, reading. lia. }
  assert (L0 : loop (after_body long_bits) (mkFraction 0 0 false) b0 =
               (mkFraction (decimal_value b0) (Z.of_nat (List.length b0)) false, []))
    by (apply after_loop_value; assumption).
  split; [apply SafeStrtod_point; assumption|].
  intros Hd Hrest Hover.
  apply SafeStrtod_point; [assumption | assumption |].
  assert (Acc : Forall (fun c => forall fr, after_body long_bits fr c <> None) b0).
  { eapply Forall_impl; [|exact Hb]. intros c Hc fr. unfold after_body. rewrite Hc.
    destruct (negb (fraction_overflowed fr)); [|discriminate].
    destruct (_ <=? _); discriminate. }
  assert (Dv : decimal_value (b0 ++ [d]) = decimal_value b0 * 10 + digit_value d).
  { unfold decimal_value, reading. rewrite reading_from_app.
    cbn [reading_from fold_left]. unfold read_char. rewrite Hd. reflexivity. }
  assert (G : (decimal_value b0 <=? (ULONG_MAX long_bits - digit_value d) / 10) = false).
  { destruct (decimal_value b0 <=? (ULONG_MAX long_bits - digit_value d) / 10) eqn:X;
      [|reflexivity].
    apply fits_ulong in X. lia. }
  pose proof (loop_app (after_body long_bits) (d :: rest)) as LA.
  assert (Step : loop (after_body long_bits)
                   (mkFraction (decimal_value b0) (Z.of_nat (List.length b0)) false)
                   (d :: rest) =
                 (mkFraction
                    (if (5 <=? digit_value d)
                        && negb (decimal_value b0 =? ULONG_MAX long_bits)
                     then decimal_value b0 + 1 else decimal_value b0)
                    (Z.of_nat (List.length b0)) true, [])).
  { cbn [loop]. unfold after_body at 1. rewrite Hd.
    cbn [fraction_overflowed valueAfterPoint digitsAfterPoint negb].
    rewrite (digit_of_value d Hd), G.
    rewrite after_loop_dropped by (assumption || reflexivity).
    do 2 f_equal.
    replace (digit_value d >=? 5) with (5 <=? digit_value d)
      by (rewrite Z.geb_leb; reflexivity).
    destruct ((5 <=? digit_value d)
              && negb (decimal_value b0 =? ULONG_MAX long_bits))%bool eqn:C;
      [|reflexivity].
    apply andb_true_iff in C. destruct C as [_ C].
    apply negb_true_iff, Z.eqb_neq in C.
    apply to_ulong_id. lia. }
  clear LA.
  rewrite (loop_seq (after_body long_bits) b0 (d :: rest) Acc), L0.
  exact Step.
Qed.
End FractionDigits.

(** With a 32-bit [unsigned long], "0.429496729" is read exactly, and the
    further digit 7 of "0.4294967297" no longer fits: it rounds the
    integer up to 429496730 and is not counted. *)
Lemma fraction_digits_accumulated_witness :
  SafeStrtod 32 TimesPowerOf10_model (list_ascii_of_string "0.429496729;") =
  (TimesPowerOf10_model (double_of_Z 429496729) (-9), [";"%char]) /\
  SafeStrtod 32 TimesPowerOf10_model (list_ascii_of_string "0.4294967297;") =
  SafeStrtod 32 TimesPowerOf10_model (list_ascii_of_string "0.429496730;").
Proof.
  destruct (fraction_digits_accumulated 32 TimesPowerOf10_model eq_refl
              ["0"%char] (list_ascii_of_string "429496729") [] [";"%char] "7")
    as [H1 H2].
  - repeat constructor.
  - repeat constructor.
  - vm_compute. discriminate.
  - reflexivity.
  - reflexivity.
  - specialize (H2 eq_refl (Forall_nil _)).
    assert (G : ULONG_MAX 32 < decimal_value (list_ascii_of_string "429496729" ++ ["7"%char]))
      by (vm_compute; reflexivity).
    specialize (H2 G).
    split.
    + change (list_ascii_of_string "0.429496729;")
        with (["0"%char] ++ "."%char :: list_ascii_of_string "429496729" ++ [";"%char]).
      rewrite H1. vm_compute. reflexivity.
    + change (list_ascii_of_string "0.4294967297;")
        with (["0"%char] ++ "."%char
              :: (list_ascii_of_string "429496729" ++ "7"%char :: []) ++ [";"%char]).
      rewrite H2. vm_compute. reflexivity.
Defined.

(** ** GetFloat: a zero mantissa *)

Lemma dmul_zero_table (k : nat) :
  (k < List.length inversePowersOfTen)%nat ->
  dmul (S754_zero false) (nth k inversePowersOfTen S754_nan) = S754_zero false.
Proof.
  intros H.
  do 12 (destruct k as [|k]; [vm_compute; reflexivity|]).
  cbn [List.length inversePowersOfTen] in H. lia.
Qed.

(** X13.  [GetFloat] of a zero mantissa.  With the decimal exponent between
    -12 and 0, or with [pow] returning a positive finite number, the
    result is the zero carrying the sign flag.  When [pow] returns an
    infinity, as for an exponent beyond the range of [double], the result
    is not zero but a NaN. *)
Theorem GetFloat_zero_mantissa (pow : spec_float -> spec_float -> spec_float)
    (o : NumericConverter) :
  lvalue o = 0 ->
  let tens := Z.min (twos o) (fives o) in
  (-12 <= tens <= 0 -> GetFloat pow o = S754_zero (isNegative o)) /\
  (tens < -12 \/ 0 < tens ->
   (forall m e, pow (double_of_Z 10) (double_of_Z tens) = S754_finite false m e ->
                GetFloat pow o = S754_zero (isNegative o)) /\
   (forall s, pow (double_of_Z 10) (double_of_Z tens) = S754_infinity s ->
              GetFloat pow o = S754_nan)).
Proof.
  intros Hl tens.
  assert (Et : (if twos o <? fives o then twos o else fives o) = tens).
  { subst tens. destruct (Z.ltb_spec (twos o) (fives o)); lia. }
  assert (Z0 : double_of_Z 0 = S754_zero false) by reflexivity.
  assert (Scale : forall d,
            d = S754_zero false ->
            (if isNegative o
             then SFopp (float_of_double
                           (if fives o >? twos o then dmul d (double_of_Z 5)
                            else if twos o >? fives o then dmul d (double_of_Z 2)
                            else d))
             else float_of_double
                    (if fives o >? twos o then dmul d (double_of_Z 5)
                     else if twos o >? fives o then dmul d (double_of_Z 2)
                     else d)) = S754_zero (isNegative o)).
  { intros d ->.
    destruct (isNegative o), (fives o >? twos o), (twos o >? fives o); reflexivity. }
  unfold GetFloat. rewrite Et, Hl, Z0.
  split; [|intros Out; split].
  - intros In. apply Scale.
    destruct (Z.eqb_spec tens 0) as [E|N]; [reflexivity|]. cbn [negb].
    replace (tens <? 0) with true by (symmetry; apply Z.ltb_lt; lia).
    replace (tens >=? - Z.of_nat (List.length inversePowersOfTen)) with true
      by (symmetry; rewrite Z.geb_leb; apply Z.leb_le;
          cbn [List.length inversePowersOfTen]; lia).
    cbn [andb]. apply dmul_zero_table. cbn [List.length inversePowersOfTen]. lia.
  - intros m e Hp. apply Scale.
    replace (tens =? 0) with false by (symmetry; apply Z.eqb_neq; lia).
    cbn [negb].
    replace ((tens <? 0) && (tens >=? - Z.of_nat (List.length inversePowersOfTen)))%bool
      with false.
    + rewrite Hp. reflexivity.
    + symmetry. apply andb_false_iff. destruct Out as [O|O].
      * right. rewrite Z.geb_leb. apply Z.leb_gt.
        cbn [List.length inversePowersOfTen]. lia.
      * left. apply Z.ltb_ge. lia.
  - intros s Hp.
    replace (tens =? 0) with false by (symmetry; apply Z.eqb_neq; lia).
    cbn [negb].
    replace ((tens <? 0) && (tens >=? - Z.of_nat (List.length inversePowersOfTen)))%bool
      with false.
    + rewrite Hp.
      destruct (isNegative o), (fives o >? twos o), (twos o >? fives o); reflexivity.
    + symmetry. apply andb_false_iff. destruct Out as [O|O].
      * right. rewrite Z.geb_leb. apply Z.leb_gt.
        cbn [List.length inversePowersOfTen]. lia.
      * left. apply Z.ltb_ge. lia.
Qed.

(** "-0.00" is read as the negative zero, "0e20" as the positive zero, and
    "0e400", whose power of ten is infinite, as a NaN. *)
Lemma GetFloat_zero_mantissa_witness :
  GetFloat pow_model (result_obj (parse true true "-0.00")) = S754_zero true /\
  GetFloat pow_model (result_obj (parse true true "0e20")) = S754_zero false /\
  GetFloat pow_model (result_obj (parse true true "0e400")) = S754_nan.
Proof.
  assert (A : result_obj (parse true true "-0.00") = mkNC 0 (-2) (-2) true false true)
    by (vm_compute; reflexivity).
  assert (B : result_obj (parse true true "0e20") = mkNC 0 20 20 false true false)
    by (vm_compute; reflexivity).
  assert (C : result_obj (parse true true "0e400") = mkNC 0 400 400 false true false)
    by (vm_compute; reflexivity).
  rewrite A, B, C.
  split; [|split].
  - apply (GetFloat_zero_mantissa pow_model (mkNC 0 (-2) (-2) true false true) eq_refl).
    cbn. lia.
  - assert (P : pow_model (double_of_Z 10) (double_of_Z 20)
                = S754_finite false 6103515625000000 14) by (vm_compute; reflexivity).
    apply (proj1 (proj2 (GetFloat_zero_mantissa pow_model
                           (mkNC 0 20 20 false true false) eq_refl)
                        ltac:(cbn; lia)) _ _ P).
  - assert (P : pow_model (double_of_Z 10) (double_of_Z 400) = S754_infinity false)
      by (vm_compute; reflexivity).
    apply (proj2 (proj2 (GetFloat_zero_mantissa pow_model
                           (mkNC 0 400 400 false true false) eq_refl)
                        ltac:(cbn; lia)) _ P).
Defined.

(** ** SafeStrtod: the exponent part, and a text that is no number *)

(** A loop stops at once at a character its body refuses. *)
Lemma loop_stop {S : Type} (body : S -> ascii -> option S) (st : S) (t : stream) :
  body st (cur t) = None -> loop body st t = (st, t).
Proof.
  destruct t as [|c t]; [reflexivity|]. cbn [cur hd loop]. intros ->. reflexivity.
Qed.

Section StrtodExponent.
Variable long_bits : Z.
Variable TimesPowerOf10 : spec_float -> Z -> spec_float.
Hypothesis long_bits_pos : 0 < long_bits.

Lemma strtod_exponent_loop (es : stream) :
  Forall (fun c => isdigit c = true) es ->
  forall r,
    0 <= r_value r ->
    r_value (reading_from r es) < 2 ^ (long_bits - 1) ->
    loop (strtod_exponent_body long_bits) (r_value r) es =
    (r_value (reading_from r es), []).
Proof.
  induction 1 as [|c es Hc _ IH]; intros r H0 HM; [reflexivity|].
  change (reading_from r (c :: es)) with (reading_from (read_char r c) es) in *.
  pose proof (digit_value_range c Hc) as Hd.
  assert (Rv : r_value (read_char r c) = r_value r * 10 + digit_value c)
    by (unfold read_char; rewrite Hc; reflexivity).
  assert (Mon : r_value (read_char r c) <= r_value (reading_from (read_char r c) es))
    by (apply reading_from_monotone; rewrite Rv; lia).
  assert (P : 0 < 2 ^ (long_bits - 1)) by (apply Z.pow_pos_nonneg; lia).
  cbn [loop]. unfold strtod_exponent_body at 1. rewrite Hc.
  fold (digit_value c).
  rewrite (to_long_id long_bits long_bits_pos (10 * r_value r)) by lia.
  rewrite (to_long_id long_bits long_bits_pos) by lia.
  replace (10 * r_value r + digit_value c) with (r_value (read_char r c)) by lia.
  apply IH; lia.
Qed.

Lemma strtod_exponent_value (marker : ascii) (sign es t : stream) (neg : bool) :
  marker = "E"%char \/ marker = "e"%char ->
  (sign = [] /\ neg = false) \/ (sign = ["+"%char] /\ neg = false) \/
  (sign = ["-"%char] /\ neg = true) ->
  Forall (fun c => isdigit c = true) es -> es <> [] ->
  decimal_value es < 2 ^ (long_bits - 1) ->
  isdigit (cur t) = false ->
  strtod_exponent long_bits (marker :: sign ++ es ++ t) =
  (if neg then - decimal_value es else decimal_value es, t).
Proof.
  intros Hm Hs Hes Hne HM Ht.
  assert (V0 : 0 <= decimal_value es).
  { pose proof (reading_from_monotone es (mkReading 0 false 0 false)) as M.
    cbn [r_value] in M. unfold decimal_value, reading. lia. }
  assert (Hacc : Forall (fun a => forall e, strtod_exponent_body long_bits e a <> None) es).
  { eapply Forall_impl; [|exact Hes]. intros a Ha e.
    unfold strtod_exponent_body. rewrite Ha. discriminate. }
  assert (Hrej : forall e, strtod_exponent_body long_bits e (cur t) = None)
    by (intros e; unfold strtod_exponent_body; rewrite Ht; reflexivity).
  assert (Loop : loop (strtod_exponent_body long_bits) 0 (es ++ t) = (decimal_value es, t)).
  { rewrite (loop_prefix (strtod_exponent_body long_bits) es t 0 Hacc Hrej).
    change 0 with (r_value (mkReading 0 false 0 false)) at 1.
    rewrite (strtod_exponent_loop es Hes (mkReading 0 false 0 false));
      [reflexivity | cbn; lia | exact HM]. }
  destruct es as [|d es'] eqn:Ees; [contradiction|].
  assert (Hd : isdigit d = true) by (inversion Hes; assumption).
  assert (Nm : (d =? "-")%char = false)
    by (destruct (Ascii.eqb_spec d "-"%char) as [->|_];
        [discriminate Hd | reflexivity]).
  assert (Np : (d =? "+")%char = false)
    by (destruct (Ascii.eqb_spec d "+"%char) as [->|_];
        [discriminate Hd | reflexivity]).
  unfold strtod_exponent.
  assert (Em : (toupper (cur (marker :: sign ++ (d :: es') ++ t)) =? "E")%char = true)
    by (destruct Hm as [-> | ->]; reflexivity).
  rewrite Em. cbn [NextChar tl].
  destruct Hs as [[-> ->] | [[-> ->] | [-> ->]]]; cbn [app cur hd NextChar tl].
  - rewrite Nm, Np. cbn [orb].
    change (d :: es' ++ t) with ((d :: es') ++ t). rewrite Loop. reflexivity.
  - change ("+" =? "-")%char with false. change ("+" =? "+")%char with true.
    cbn [orb]. change (d :: es' ++ t) with ((d :: es') ++ t). rewrite Loop.
    reflexivity.
  - change ("-" =? "-")%char with true. cbn [orb].
    change (d :: es' ++ t) with ((d :: es') ++ t). rewrite Loop.
    rewrite (to_long_id long_bits long_bits_pos) by lia. reflexivity.
Qed.

(** [SafeStrtod] on digits that no point follows. *)
Lemma SafeStrtod_digits (a t : stream) :
  Forall (fun c => isdigit c = true) a ->
  isdigit (cur t) = false ->
  (cur t =? ".")%char = false ->
  (a = [] -> ~ is_blank (cur t) /\
             (cur t =? "+")%char = false /\ (cur t =? "-")%char = false) ->
  SafeStrtod long_bits TimesPowerOf10 (a ++ t) =
  (TimesPowerOf10 (fst (loop before_body (S754_zero false) a))
                  (fst (strtod_exponent long_bits t)),
   snd (strtod_exponent long_bits t)).
Proof.
  intros Ha Ht Hdot Hempty.
  assert (Ha' : Forall (fun c => forall v : spec_float, before_body v c <> None) a)
    by (eapply Forall_impl; [|exact Ha]; intros c Hc; exact (before_body_digit c Hc)).
  assert (Hd : isdigit (cur (a ++ t)) = true \/ a = []).
  { destruct a as [|c a']; [right; reflexivity|]. left.
    inversion Ha; assumption. }
  assert (Hh : ~ is_blank (cur (a ++ t)) /\
               (cur (a ++ t) =? "+")%char = false /\
               (cur (a ++ t) =? "-")%char = false).
  { destruct Hd as [Hd | ->]; [|exact (Hempty eq_refl)].
    split; [intros [X|X]; rewrite X in Hd; discriminate Hd|].
    split.
    - destruct (Ascii.eqb_spec (cur (a ++ t)) "+"%char) as [E|_]; [|reflexivity].
      rewrite E in Hd. discriminate Hd.
    - destruct (Ascii.eqb_spec (cur (a ++ t)) "-"%char) as [E|_]; [|reflexivity].
      rewrite E in Hd. discriminate Hd. }
  destruct Hh as (Hb & Hp & Hm).
  unfold SafeStrtod.
  pose proof (skip_blanks [] (a ++ t) (Forall_nil _) Hb) as W. cbn [app] in W.
  rewrite W, Hp, Hm. cbn [orb].
  rewrite (loop_prefix before_body a t _ Ha')
    by (intros v; apply before_body_other; exact Ht).
  rewrite Hdot.
  destruct (strtod_exponent long_bits t) as [e s]. reflexivity.
Qed.

(** X14.  [SafeStrtod] has no way to fail.  When what follows the leading
    blanks and an optional sign is no digit, no point and no exponent
    marker, the value is that of a zero mantissa with exponent 0, negated
    after a minus sign, and the end pointer is not left at the start of the
    text: it has moved past the blanks and the sign. *)
Theorem SafeStrtod_no_number (blanks sign t : stream) (neg : bool) :
  Forall is_blank blanks ->
  (sign = [] /\ neg = false) \/ (sign = ["+"%char] /\ neg = false) \/
  (sign = ["-"%char] /\ neg = true) ->
  isdigit (cur t) = false ->
  (cur t =? ".")%char = false ->
  (toupper (cur t) =? "E")%char = false ->
  (sign = [] -> ~ is_blank (cur t) /\
                (cur t =? "+")%char = false /\ (cur t =? "-")%char = false) ->
  SafeStrtod long_bits TimesPowerOf10 (blanks ++ sign ++ t) =
  (if neg
   then SFopp (TimesPowerOf10 (S754_zero false) 0)
   else TimesPowerOf10 (S754_zero false) 0,
   t).
Proof.
  intros Hb Hs Ht Hdot HE Hempty.
  assert (B : loop before_body (S754_zero false) t = (S754_zero false, t))
    by (apply loop_stop, before_body_other; exact Ht).
  assert (X : strtod_exponent long_bits t = (0, t))
    by (unfold strtod_exponent; rewrite HE; reflexivity).
  unfold SafeStrtod.
  destruct Hs as [[-> ->] | [[-> ->] | [-> ->]]].
  - destruct (Hempty eq_refl) as (Hnb & Hp & Hm). cbn [app].
    rewrite (skip_blanks blanks t Hb Hnb), Hp, Hm. cbn [orb].
    rewrite B, Hdot, X. reflexivity.
  - rewrite (skip_blanks blanks (["+"%char] ++ t) Hb)
      by (intros [Y|Y]; discriminate Y).
    cbn [app cur hd NextChar tl].
    change ("+" =? "-")%char with false. change ("+" =? "+")%char with true.
    cbn [orb]. rewrite B, Hdot, X. reflexivity.
  - rewrite (skip_blanks blanks (["-"%char] ++ t) Hb)
      by (intros [Y|Y]; discriminate Y).
    cbn [app cur hd NextChar tl].
    change ("-" =? "-")%char with true.
    cbn [orb]. rewrite B, Hdot, X. reflexivity.
Qed.

(** X15.  In [SafeStrtod] an exponent part with digits whose value fits a
    [long] gives that value, negated after a minus sign, as the power of
    ten applied to the number before it, and the conversion stops at the
    first character after the exponent digits.  Without digits after the
    point the result is the digits before the marker times that power;
    with them it is the composite value of both parts. *)
Theorem SafeStrtod_exponent
  (a : stream) (marker : ascii) (sign es t : stream) (neg : bool) :
  Forall (fun c => isdigit c = true) a ->
  marker = "E"%char \/ marker = "e"%char ->
  (sign = [] /\ neg = false) \/ (sign = ["+"%char] /\ neg = false) \/
  (sign = ["-"%char] /\ neg = true) ->
  Forall (fun c => isdigit c = true) es -> es <> [] ->
  decimal_value es < 2 ^ (long_bits - 1) ->
  isdigit (cur t) = false ->
  let delta := if neg then - decimal_value es else decimal_value es in
  SafeStrtod long_bits TimesPowerOf10 (a ++ marker :: sign ++ es ++ t) =
  (TimesPowerOf10 (fst (loop before_body (S754_zero false) a)) delta, t) /\
  (forall b,
     Forall (fun c => isdigit c = true) b ->
     decimal_value b <= ULONG_MAX long_bits ->
     Z.of_nat (List.length b) < 2 ^ (long_bits - 1) ->
     SafeStrtod long_bits TimesPowerOf10
       (a ++ "."%char :: b ++ marker :: sign ++ es ++ t) =
     (composite_value long_bits TimesPowerOf10
        (fst (loop before_body (S754_zero false) a))
        (mkFraction (decimal_value b) (Z.of_nat (List.length b)) false)
        delta,
      t)).
Proof.
  intros Ha Hm Hs Hes Hne HM Ht delta.
  pose proof (strtod_exponent_value marker sign es t neg Hm Hs Hes Hne HM Ht) as X.
  fold delta in X.
  assert (Mk : isdigit marker = false /\ (marker =? ".")%char = false /\
               ~ is_blank marker /\
               (marker =? "+")%char = false /\ (marker =? "-")%char = false).
  { destruct Hm as [-> | ->]; repeat split; intros [Y|Y]; discriminate Y. }
  destruct Mk as (M1 & M2 & M3 & M4 & M5).
  split.
  - rewrite (SafeStrtod_digits a (marker :: sign ++ es ++ t) Ha M1 M2), X;
      [reflexivity|].
    intros _. cbn [cur hd]. repeat split; assumption.
  - intros b Hb HB HL.
    rewrite (SafeStrtod_point long_bits TimesPowerOf10 a b
               (marker :: sign ++ es ++ t)
               (mkFraction (decimal_value b) (Z.of_nat (List.length b)) false)
               Ha M1).
    + rewrite X. reflexivity.
    + apply (after_loop_value long_bits long_bits_pos); assumption.
Qed.
End StrtodExponent.

(** "  -x" gives a negated zero and stops at "x". *)
Lemma SafeStrtod_no_number_witness :
  SafeStrtod 32 TimesPowerOf10_model (list_ascii_of_string "  -x") =
  (S754_zero true, ["x"%char]).
Proof.
  assert (H := SafeStrtod_no_number 32 TimesPowerOf10_model
                 [" "%char; " "%char] ["-"%char] ["x"%char] true).
  change (list_ascii_of_string "  -x")
    with ([" "%char; " "%char] ++ ["-"%char] ++ ["x"%char]).
  rewrite H.
  - reflexivity.
  - repeat constructor.
  - right. right. split; reflexivity.
  - reflexivity.
  - reflexivity.
  - reflexivity.
  - discriminate.
Defined.

(** "12e-3;" is 12 times ten to the power -3, and "12.5E2;" the composite
    of 12, the fraction 5 of one digit and the power 2. *)
Lemma SafeStrtod_exponent_witness :
  SafeStrtod 32 TimesPowerOf10_model (list_ascii_of_string "12e-3;") =
  (TimesPowerOf10_model (double_of_Z 12) (-3), [";"%char]) /\
  SafeStrtod 32 TimesPowerOf10_model (list_ascii_of_string "12.5e-3;") =
  (TimesPowerOf10_model
     (dadd (TimesPowerOf10_model (double_of_Z 5) (-1)) (double_of_Z 12)) (-3),
   [";"%char]).
Proof.
  destruct (SafeStrtod_exponent 32 TimesPowerOf10_model eq_refl
              (list_ascii_of_string "12") "e" ["-"%char] ["3"%char] [";"%char] true)
    as [H1 H2].
  - repeat constructor.
  - right. reflexivity.
  - right. right. split; reflexivity.
  - repeat constructor.
  - discriminate.
  - vm_compute. reflexivity.
  - reflexivity.
  - specialize (H2 ["5"%char]).
    assert (G : decimal_value ["5"%char] <= ULONG_MAX 32)
      by (vm_compute; discriminate).
    specialize (H2 ltac:(repeat constructor) G eq_refl).
    split.
    + change (list_ascii_of_string "12e-3;")
        with (list_ascii_of_string "12" ++ "e"%char :: ["-"%char] ++ ["3"%char] ++ [";"%char]).
      rewrite H1. vm_compute. reflexivity.
    + change (list_ascii_of_string "12.5e-3;")
        with (list_ascii_of_string "12" ++ "."%char :: ["5"%char] ++
              "e"%char :: ["-"%char] ++ ["3"%char] ++ [";"%char]).
      rewrite H2. vm_compute. reflexivity.
Defined.
